(** * SafeGrid: telemetry ingestion, rate computation and liveness snapshots

    A shallow embedding of the Python programs of the SafeGrid repository
    that sample counters ([estadisticas.py], [stats_writer.py]), ingest
    outlet messages ([ingest_tomas.py]), build the read view
    ([snapshot_db.py]) and show it ([dashboard_server.py]), together with
    the part of SQLite they rely on.

    Conventions of the embedding.
    - Python [int] is [Z]. Python [float] is modelled by the exact
      rationals [Q]: every float operation is the corresponding exact
      operation, so rounding, infinities and NaN are outside the model.
    - A Python [dict] with string keys is a [gmap string _]; a [set] of
      strings is a [gset string]; [None] is the [None] of [option] or the
      constructor [PNone] of {!pyval}.
    - [str] and [bytes] are [string] (a sequence of 8-bit characters).
      The string builtins follow Python on ASCII text: white space,
      line breaks, digits and letter case beyond ASCII are outside the
      model.
    - The programs are separate processes on one SQLite file. A
      function is modelled on the store it is given; where a property
      relates two statements of one function, the store each of them
      finds is made explicit.
    - A function that can raise returns an [outcome]; a [try/except] is a
      match on it.
    - Module-level mutable variables become explicit state that the
      functions take and return. *)

From Stdlib Require Import ZArith QArith Qround Qminmax Qabs String Ascii List Lia Lqa.
From stdpp Require Import base gmap strings list fin_maps sorting.

Set Warnings "-register-all".

(** ** Python values and builtins *)

Module Py.

(** The values [json.loads] produces. *)
Inductive pyval :=
| PNone
| PBool (b : bool)
| PInt (z : Z)
| PFloat (q : Q)
| PStr (s : string)
| PList (l : list pyval)
| PDict (d : gmap string pyval).

(** Truth value of an object, as [if x:] or [x or y] tests it. *)
Definition truthy (v : pyval) : bool :=
  match v with
  | PNone => false
  | PBool b => b
  | PInt z => negb (z =? 0)%Z
  | PFloat q => negb (Qeq_bool q 0)
  | PStr s => negb (String.eqb s "")
  | PList l => match l with [] => false | _ => true end
  | PDict d => negb (bool_decide (d = ∅))
  end.

(** [a or b] *)
Definition py_or (a b : pyval) : pyval := if truthy a then a else b.

(** [d.get(k)] *)
Definition get (d : gmap string pyval) (k : string) : pyval :=
  default PNone (d !! k).

(** [max(a, b)] and [min(a, b)] on floats: the first argument is kept
    unless the second is strictly larger (smaller). *)
Definition py_max (a b : Q) : Q := if Qlt_le_dec a b then b else a.
Definition py_min (a b : Q) : Q := if Qlt_le_dec b a then b else a.

(** [int(x)] on a float truncates toward zero. *)
Definition int_of_float (q : Q) : Z := Z.quot (Qnum q) (Zpos (Qden q)).

(** [round(x, n)]: to the nearest multiple of [10^-n], ties to even. *)
Definition round_half_even (q : Q) : Z :=
  let f := Qfloor q in
  let r := (q - inject_Z f)%Q in
  match (r ?= 1 # 2)%Q with
  | Lt => f
  | Gt => (f + 1)%Z
  | Eq => if Z.even f then f else (f + 1)%Z
  end.

Definition round (q : Q) (ndigits : nat) : Q :=
  let scale := (10 ^ Z.of_nat ndigits)%Z in
  (inject_Z (round_half_even (q * inject_Z scale)) / inject_Z scale)%Q.

(** ASCII fragment of [str.lower()] and [str.strip()]. *)
Definition lower_ascii (c : ascii) : ascii :=
  let n := nat_of_ascii c in
  if (65 <=? n)%nat && (n <=? 90)%nat then ascii_of_nat (n + 32) else c.

Fixpoint lower (s : string) : string :=
  match s with
  | EmptyString => EmptyString
  | String c r => String (lower_ascii c) (lower r)
  end.

Definition is_space (c : ascii) : bool :=
  let n := nat_of_ascii c in
  ((9 <=? n)%nat && (n <=? 13)%nat) || ((28 <=? n)%nat && (n <=? 32)%nat).

Fixpoint lstrip (s : string) : string :=
  match s with
  | EmptyString => EmptyString
  | String c r => if is_space c then lstrip r else s
  end.

Fixpoint rstrip (s : string) : string :=
  match s with
  | EmptyString => EmptyString
  | String c r =>
      match rstrip r with
      | EmptyString => if is_space c then EmptyString else String c EmptyString
      | r' => String c r'
      end
  end.

Definition strip (s : string) : string := rstrip (lstrip s).

(** [s.split(sep)] for a one-character separator. *)
Fixpoint split (sep : ascii) (s : string) : list string :=
  match s with
  | EmptyString => [EmptyString]
  | String c r =>
      if Ascii.eqb c sep then EmptyString :: split sep r
      else match split sep r with
           | [] => [String c EmptyString]
           | h :: t => String c h :: t
           end
  end.

(** [s.startswith(p)], with what follows the prefix. *)
Fixpoint after_prefix (p s : string) : option string :=
  match p, s with
  | EmptyString, _ => Some s
  | String a p', String b s' => if Ascii.eqb a b then after_prefix p' s' else None
  | String _ _, EmptyString => None
  end.

(** [sub in s] *)
Fixpoint contains (sub s : string) : bool :=
  bool_decide (is_Some (after_prefix sub s))
  || match s with
     | EmptyString => false
     | String _ r => contains sub r
     end.

(** [s.split()]: the words between runs of white space. The auxiliary
    function returns the word that is open at the start of the text
    (empty if there is none) and the words after it. *)
Fixpoint split_whitespace_from (s : string) : string * list string :=
  match s with
  | EmptyString => (EmptyString, [])
  | String c r =>
      let '(w, ws) := split_whitespace_from r in
      if is_space c
      then (EmptyString, if String.eqb w "" then ws else w :: ws)
      else (String c w, ws)
  end.

Definition split_whitespace (s : string) : list string :=
  let '(w, ws) := split_whitespace_from s in
  if String.eqb w "" then ws else w :: ws.

(** [s.splitlines()] on ASCII text: a line ends at a line feed, a
    vertical tab, a form feed, a carriage return (together with a line
    feed that follows it) or one of the separators 0x1c to 0x1e; a
    break at the very end opens no further line. *)
Definition is_linebreak (c : ascii) : bool :=
  let n := nat_of_ascii c in
  ((10 <=? n)%nat && (n <=? 13)%nat) || ((28 <=? n)%nat && (n <=? 30)%nat).

Fixpoint splitlines (s : string) : list string :=
  match s with
  | EmptyString => []
  | String c r =>
      if is_linebreak c then
        EmptyString ::
          match r with
          | String c' r' =>
              if Ascii.eqb c "013" && Ascii.eqb c' "010" then splitlines r'
              else splitlines r
          | EmptyString => []
          end
      else match splitlines r with
           | [] => [String c EmptyString]
           | h :: t => String c h :: t
           end
  end.

(** [s.isascii()] *)
Fixpoint isascii (s : string) : bool :=
  match s with
  | EmptyString => true
  | String c r => (nat_of_ascii c <? 128)%nat && isascii r
  end.

(** For the regular expressions of the programs: the longest run of
    characters of a class at the start of a text with what follows it,
    and [re.search] for a pattern given by its match at the start of a
    text (the leftmost position where the pattern matches wins). *)
Fixpoint span (p : ascii → bool) (s : string) : string * string :=
  match s with
  | EmptyString => (EmptyString, EmptyString)
  | String c r =>
      if p c then let '(a, b) := span p r in (String c a, b)
      else (EmptyString, s)
  end.

Fixpoint re_search {A} (match_at : string → option A) (s : string) : option A :=
  match match_at s with
  | Some a => Some a
  | None =>
      match s with
      | EmptyString => None
      | String _ r => re_search match_at r
      end
  end.

(** The white space that [int(s)] and [float(s)] skip around a
    literal is that of C's [isspace]: unlike [str.strip()] they do not
    skip the separators 0x1c to 0x1f. *)
Definition is_cspace (c : ascii) : bool :=
  let n := nat_of_ascii c in
  ((9 <=? n)%nat && (n <=? 13)%nat) || (n =? 32)%nat.

Fixpoint ltrim (s : string) : string :=
  match s with
  | EmptyString => EmptyString
  | String c r => if is_cspace c then ltrim r else s
  end.

Fixpoint rtrim (s : string) : string :=
  match s with
  | EmptyString => EmptyString
  | String c r =>
      match rtrim r with
      | EmptyString => if is_cspace c then EmptyString else String c EmptyString
      | r' => String c r'
      end
  end.

Definition trim (s : string) : string := rtrim (ltrim s).

(** [int(s)] and [float(s)] on the ASCII decimal literals: optional
    surrounding white space, an optional sign, digits with single
    underscores between them; for [float] also a fraction and an
    exponent. [None] is [ValueError]. The spellings of infinity and NaN
    have no value in the model and are not accepted. [int(s)] refuses
    a literal of more than 4300 digits (the default limit of CPython
    3.11 and later). *)
Definition digit_of (c : ascii) : option Z :=
  let n := nat_of_ascii c in
  if (48 <=? n)%nat && (n <=? 57)%nat then Some (Z.of_nat (n - 48)) else None.

Definition is_digit (c : ascii) : bool := bool_decide (is_Some (digit_of c)).

Fixpoint digits (acc : Z) (count : nat) (after_digit : bool) (s : string)
  : option (Z * nat) :=
  match s with
  | EmptyString => if after_digit then Some (acc, count) else None
  | String c r =>
      match digit_of c with
      | Some d => digits (10 * acc + d) (S count) true r
      | None =>
          if Ascii.eqb c "_" && after_digit then digits acc count false r
          else None
      end
  end.

Definition signed_int (s : string) : option Z :=
  match s with
  | String "+" r => fst <$> digits 0 0 false r
  | String "-" r => (λ p, - p.1)%Z <$> digits 0 0 false r
  | _ => fst <$> digits 0 0 false s
  end.

Definition INT_MAX_STR_DIGITS : nat := 4300.

Fixpoint count_digits (s : string) : nat :=
  match s with
  | EmptyString => 0
  | String c r =>
      (if is_digit c then 1 else 0) + count_digits r
  end.

Definition int_of_str (s : string) : option Z :=
  let t := trim s in
  if (INT_MAX_STR_DIGITS <? count_digits t)%nat then None else signed_int t.

Fixpoint break_at (p : ascii → bool) (s : string) : string * option string :=
  match s with
  | EmptyString => (EmptyString, None)
  | String c r =>
      if p c then (EmptyString, Some r)
      else let '(a, b) := break_at p r in (String c a, b)
  end.

Definition fraction (s : string) : option Q :=
  (λ p, inject_Z p.1 / inject_Z (10 ^ Z.of_nat p.2))%Q <$> digits 0 0 false s.

Definition unsigned_float (s : string) : option Q :=
  let '(m, e) := break_at (λ c, Ascii.eqb c "e" || Ascii.eqb c "E") s in
  let '(ip, fp) := break_at (λ c, Ascii.eqb c ".") m in
  mant ← match ip, fp with
         | EmptyString, None => None
         | _, None | _, Some EmptyString =>
             (λ p, inject_Z p.1) <$> digits 0 0 false ip
         | EmptyString, Some f => fraction f
         | _, Some f =>
             i ← digits 0 0 false ip; fr ← fraction f;
             Some (inject_Z i.1 + fr)%Q
         end;
  ex ← match e with
       | None => Some 0%Z
       | Some es => signed_int es
       end;
  Some (mant * 10 ^ ex)%Q.

Definition float_of_str (s : string) : option Q :=
  match trim s with
  | String "+" r => unsigned_float r
  | String "-" r => Qopp <$> unsigned_float r
  | r => unsigned_float r
  end.

(** [float(n)] on an integer raises [OverflowError] from this magnitude
    on (the integers that round to 2^1024 or beyond). *)
Definition FLOAT_OVERFLOW : Z := 2 ^ 1024 - 2 ^ 970.

Definition float_of_int (z : Z) : option Q :=
  if (Z.abs z <? FLOAT_OVERFLOW)%Z then Some (inject_Z z) else None.

(** [sum(vals)] on integers. *)
Definition sum (vals : list Z) : Z := foldr Z.add 0%Z vals.

(** Results of code that may raise. *)
Inductive outcome (A : Type) :=
| Ok (a : A)
| Raise (e : string).
Arguments Ok {A} a.
Arguments Raise {A} e.

Definition bind {A B} (m : outcome A) (f : A → outcome B) : outcome B :=
  match m with
  | Ok a => f a
  | Raise e => Raise e
  end.

Notation "'let*' x := m 'in' k" := (bind m (λ x, k))
  (at level 10, x name, m at level 100, k at level 200).

(** [for x in l: s = body(s, x)], stopping at the first exception. *)
Fixpoint for_loop {A S} (body : S → A → outcome S) (s : S) (l : list A)
  : outcome S :=
  match l with
  | [] => Ok s
  | x :: l' =>
      match body s x with
      | Ok s' => for_loop body s' l'
      | Raise e => Raise e
      end
  end.

(** [sorted(l)] on strings. *)
Fixpoint insert_sorted (x : string) (l : list string) : list string :=
  match l with
  | [] => [x]
  | y :: l' =>
      match String.compare x y with
      | Gt => y :: insert_sorted x l'
      | _ => x :: y :: l'
      end
  end.

Definition sorted (l : list string) : list string := foldr insert_sorted [] l.

End Py.
Import Py.

(** ** [stats_writer.py]: the sampler that writes to the store *)

Module StatsWriter.
Local Open Scope Q_scope.

(** [temp_c()]. [sysfs] is the text of the thermal zone file ([None]
    when opening or reading it raises) and [vcgencmd] what
    [sh(["vcgencmd", "measure_temp"])] returns. The first attempt is in
    a [try]; the conversion after the search is not. *)
Definition match_temp (s : string) : option string :=
  r ← after_prefix "temp=" s;
  let g := (span (λ c, is_digit c || Ascii.eqb c ".") r).1 in
  if String.eqb g "" then None else Some g.

Definition temp_c (sysfs : option string) (vcgencmd : string) : outcome Q :=
  match sysfs ≫= (λ text, float_of_str (strip text)) with
  | Some q => Ok (q / 1000)
  | None =>
      match re_search match_temp vcgencmd with
      | Some g =>
          match float_of_str g with
          | Some q => Ok q
          | None => Raise "ValueError"
          end
      | None => Ok 0
      end
  end.

(** A match of [Sent\s+(\d+)\s+bytes] at the start of a text: its
    group. White space, digits and the letter [b] exclude one another,
    so the longest runs are the only way to match. *)
Definition match_sent (s : string) : option string :=
  r ← after_prefix "Sent" s;
  let '(w1, r1) := span is_space r in
  let '(ds, r2) := span is_digit r1 in
  let '(w2, r3) := span is_space r2 in
  if negb (String.eqb w1 "") && negb (String.eqb ds "")
     && negb (String.eqb w2 "") && bool_decide (is_Some (after_prefix "bytes" r3))
  then Some ds else None.

(** What one line of the shaper output names and reports. *)
Definition class_line (line : string) : bool := contains "class htb" line.

Definition sent_bytes (line : string) : option string :=
  if contains "Sent " line && contains " bytes" line
  then re_search match_sent line
  else None.

(** [_parse_tc_bytes]. The loop state is the dictionary [m] and the
    local variable [cid], which has no value until a line naming a
    class was seen. *)
Definition _parse_tc_bytes (tc_out : string) : outcome (gmap string Z) :=
  let* res :=
    for_loop (λ (st : gmap string Z * option string) line,
        let '(m, cid) := st in
        let* cid :=
          if class_line line then
            match split_whitespace line !! 2%nat with
            | Some w => Ok (Some (strip w))
            | None => Raise "IndexError"
            end
          else Ok cid in
        match sent_bytes line with
        | Some ds =>
            (* the right-hand side is evaluated before [cid] is read *)
            match int_of_str ds with
            | None => Raise "ValueError"
            | Some z =>
                match cid with
                | None => Raise "UnboundLocalError"
                | Some c => Ok (<[c := z]> m, cid)
                end
            end
        | None => Ok (m, cid)
        end)
      (∅, None) (splitlines tc_out) in
  Ok res.1.

Section Config.
(** Environment configuration: the shaper class identifiers. *)
Variables CLASS_HIGH CLASS_MED CLASS_LOW : string.

(** [cpu_pct()]. The global [_prev_cpu] is passed and returned. [stat]
    is the list [vals] read from the first line of [/proc/stat], or
    [None] when reading or converting it raises. *)
Definition cpu_pct (_prev_cpu : option (Z * Z)) (stat : option (list Z))
  : Q * option (Z * Z) :=
  match stat with
  | None => (0, _prev_cpu)
  | Some vals =>
      match vals !! 3%nat with
      | None => (0, _prev_cpu)
      | Some v3 =>
          let idle :=
            (v3 + (if (4 <? length vals)%nat then default 0 (vals !! 4%nat) else 0))%Z in
          let total := sum vals in
          match _prev_cpu with
          | None => (0, Some (total, idle))
          | Some (pt, pi) =>
              let dt := (total - pt)%Z in
              let di := (idle - pi)%Z in
              (if (dt <=? 0)%Z then 0
               else py_max 0 (py_min 100
                      (inject_Z (dt - di) / inject_Z dt * 100)),
               Some (total, idle))
          end
      end
  end.

(** The closure [calc] of [net_mbps]; [b] is this tick's parsed shaper
    output, [_rx] the counters kept from the previous tick. *)
Definition calc (b : gmap string Z) (dt : Q) (_rx : gmap string Z)
    (cid : string) : Q * gmap string Z :=
  let cur := default 0%Z (b !! cid) in
  let prev := default cur (_rx !! cid) in
  let _rx := <[cid := cur]> _rx in
  let dbytes := Z.max 0 (cur - prev) in
  (inject_Z dbytes * 8 / dt / 1000000, _rx).

Record net_state := {
  _rx : gmap string Z;
  _last_t : option Q;
}.

(** [net_mbps()]. [tc] is [None] when the shaper tool printed nothing
    and otherwise the dictionary [_parse_tc_bytes] extracted. *)
Definition net_mbps (st : net_state) (now : Q) (tc : option (gmap string Z))
  : (Q * Q * Q) * net_state :=
  match tc with
  | None => ((0, 0, 0), st)
  | Some b =>
      match _last_t st with
      | None => ((0, 0, 0), {| _rx := b; _last_t := Some now |})
      | Some last =>
          let dt := py_max (2 # 10) (now - last) in
          let '(hi, rx1) := calc b dt (_rx st) CLASS_HIGH in
          let '(med, rx2) := calc b dt rx1 CLASS_MED in
          let '(low, rx3) := calc b dt rx2 CLASS_LOW in
          ((hi, med, low), {| _rx := rx3; _last_t := Some now |})
      end
  end.

(** [net_mbps()] from what [sh(["tc", ...])] returned: the text the
    shaper tool printed, empty when the tool failed. *)
Definition net_mbps_sh (st : net_state) (now : Q) (tc : string)
  : outcome ((Q * Q * Q) * net_state) :=
  if String.eqb (strip tc) "" then Ok (net_mbps st now None)
  else
    let* b := _parse_tc_bytes tc in
    Ok (net_mbps st now (Some b)).
End Config.

End StatsWriter.

(** ** MQTT messages as the callbacks receive them *)

Module Mqtt.
(** [topic] and [payload] are [msg.topic] and [msg.payload]; [json] is
    the value of [json.loads] on the decoded payload, [None] when it
    raises. Decoding the payload as UTF-8 is the identity here. *)
Record message := {
  topic : string;
  payload : string;
  json : option pyval;
}.
End Mqtt.

(** ** [estadisticas.py]: the sampler that publishes over MQTT *)

Module Estadisticas.
Local Open Scope Q_scope.

Definition TOPIC_TOMA1_TELEM : string := "safegrid/toma1/telemetry".
Definition TOPIC_TOMA1_ALERT : string := "safegrid/toma1/alert".
Definition TOPIC_TOMA1_STATUS : string := "safegrid/toma1/status".
Definition INTERVAL : Q := 1.
Definition CAP_Mbps : Q := 20.
Definition CLASS_HIGH : string := "1:10".
Definition CLASS_MED : string := "1:20".
Definition CLASS_LOW : string := "1:30".

(** The dictionary [latest_toma1], guarded by [_latest_lock]. *)
Record latest := {
  telemetry : option pyval;
  alert : option pyval;
  status : option string;
  ts : option Q;
  bytes_telem : Z;
  bytes_alert : Z;
  bytes_status : Z;
}.

(** Its value when the module is loaded. *)
Definition latest_toma1 : latest :=
  {| telemetry := None; alert := None; status := None; ts := None;
     bytes_telem := 0; bytes_alert := 0; bytes_status := 0 |}.

(** [_on_message]: runs on the MQTT thread, the whole update under the
    lock. [now] is [time.time()]. *)
Definition _on_message (l : latest) (now : Q) (msg : Mqtt.message) : latest :=
  let raw := Mqtt.payload msg in
  let data :=
    match Mqtt.json msg with
    | Some d => d
    | None => PDict {[ "raw" := PStr raw ]}
    end in
  let nbytes := Z.of_nat (String.length raw) in
  let l1 :=
    if String.eqb (Mqtt.topic msg) TOPIC_TOMA1_TELEM then
      {| telemetry := Some data; alert := alert l; status := status l;
         ts := ts l; bytes_telem := bytes_telem l + nbytes;
         bytes_alert := bytes_alert l; bytes_status := bytes_status l |}
    else if String.eqb (Mqtt.topic msg) TOPIC_TOMA1_ALERT then
      {| telemetry := telemetry l; alert := Some data; status := status l;
         ts := ts l; bytes_telem := bytes_telem l;
         bytes_alert := bytes_alert l + nbytes; bytes_status := bytes_status l |}
    else if String.eqb (Mqtt.topic msg) TOPIC_TOMA1_STATUS then
      {| telemetry := telemetry l; alert := alert l;
         status := Some (strip raw);
         ts := ts l; bytes_telem := bytes_telem l;
         bytes_alert := bytes_alert l; bytes_status := bytes_status l + nbytes |}
    else l in
  {| telemetry := telemetry l1; alert := alert l1; status := status l1;
     ts := Some now; bytes_telem := bytes_telem l1;
     bytes_alert := bytes_alert l1; bytes_status := bytes_status l1 |}.

(** [cpu_usage_total_idle()] on the fields after the label of the first
    line of [/proc/stat]; [None] is the [IndexError] of a short line. *)
Definition cpu_usage_total_idle (fields : list Z) : option (Z * Z) :=
  let vals := take 7 fields in
  v3 ← vals !! 3%nat;
  v4 ← vals !! 4%nat;
  Some (sum vals, (v3 + v4)%Z).

(** The closure [rate_mbps] of [main]. *)
Definition rate_mbps (cur prev : option Z) : option Q :=
  match cur, prev with
  | Some c, Some p =>
      let d := (c - p)%Z in
      if (d <? 0)%Z then None
      else Some (inject_Z d * 8 / (INTERVAL * 1000000))
  | _, _ => None
  end.

(** Local variables of [main] that survive from one iteration of the
    loop to the next. *)
Record loop_state := {
  t0_total : Z;
  t0_idle : Z;
  rx0 : Q;
  tx0 : Q;
  last_hi : option Z;
  last_med : option Z;
  last_low : option Z;
}.

(** What the host returned to the reads of one iteration: the pair of
    [cpu_usage_total_idle()], the pair of [net_bytes(IFACE)] and the
    dictionary of [tc_class_bytes(IFACE)]. *)
Record sample := {
  s_cpu : Z * Z;
  s_net : Q * Q;
  s_tc : gmap string Z;
}.

(** The shaper part of an iteration: [hi_tc], [med_tc], [low_tc] and
    the new [last_hi], [last_med], [last_low]. An empty dictionary
    ([if cur_tc:] false) leaves the rates [None] and the last counters
    as they were. *)
Definition shaper_step (st : loop_state) (cur_tc : gmap string Z)
  : option Q * option Q * option Q * (option Z * option Z * option Z) :=
  if bool_decide (cur_tc ≠ ∅) then
    let cur_hi := cur_tc !! CLASS_HIGH in
    let cur_med := cur_tc !! CLASS_MED in
    let cur_low := cur_tc !! CLASS_LOW in
    (rate_mbps cur_hi (last_hi st),
     rate_mbps cur_med (last_med st),
     rate_mbps cur_low (last_low st),
     (cur_hi, cur_med, cur_low))
  else (None, None, None, (last_hi st, last_med st, last_low st)).

(** The block under [with _latest_lock:] in the loop: read the window
    and reset it. *)
Definition read_and_reset (l : latest)
  : (pyval * pyval * option string * option Q * Z * Z) * latest :=
  let t := py_or (default PNone (telemetry l)) (PDict ∅) in
  let a := py_or (default PNone (alert l)) (PDict ∅) in
  let st := status l in
  let ts_ := ts l in
  let b_telem := bytes_telem l in
  let b_alert := bytes_alert l in
  ((t, a, st, ts_, b_telem, b_alert),
   {| telemetry := telemetry l; alert := alert l; status := status l;
      ts := ts l; bytes_telem := 0; bytes_alert := 0;
      bytes_status := bytes_status l |}).

(** Values of the loop's variables at the end of an iteration. *)
Record tick_out := {
  cpu_pct : Q;
  total_mbps : Q;
  telem_mbps : Q;
  alert_mbps : Q;
  hi_mbps : Q;
  med_mbps : Q;
  low_mbps : Q;
  qos_src : string;
}.

(** The selection of the source, from [use_tc = ...] to the end of the
    [if]. *)
Definition select_source (hi_tc med_tc low_tc : option Q)
    (total_mbps telem_mbps alert_mbps : Q) : Q * Q * Q * string :=
  let use_tc := bool_decide (hi_tc ≠ None) || bool_decide (med_tc ≠ None)
                || bool_decide (low_tc ≠ None) in
  if use_tc then
    let hi_mbps := default 0 hi_tc in
    let med_mbps := default 0 med_tc in
    let low_mbps :=
      match low_tc with
      | Some r => r
      | None => py_max (total_mbps - hi_mbps - med_mbps) 0
      end in
    (hi_mbps, med_mbps, low_mbps, "tc"%string)
  else
    let hi_mbps := alert_mbps in
    let med_mbps := telem_mbps in
    let low_mbps := py_max (total_mbps - hi_mbps - med_mbps) 0 in
    (hi_mbps, med_mbps, low_mbps, "mqtt"%string).

(** [isinstance(v, dict)]: the summary calls [.get] on the latest
    telemetry and alert objects. *)
Definition is_dict (v : pyval) : bool :=
  match v with PDict _ => true | _ => false end.

(** One iteration of the [while True] loop of [main], after the sleep,
    for the readings [s] of the host. The reads of temperature, memory,
    uptime and client list and the two publications only feed or send
    the published text and are left out: an exception in one of them
    ends the loop as well. Of what is kept, the iteration raises when
    the latest telemetry or alert object is not a dictionary; the
    window was reset before that. *)
Definition tick (st : loop_state) (l : latest) (s : sample)
  : outcome tick_out * loop_state * latest :=
  (* CPU% *)
  let '(t1_total, t1_idle) := s_cpu s in
  let dt_total := (t1_total - t0_total st)%Z in
  let dt_idle := (t1_idle - t0_idle st)%Z in
  let cpu_pct_ :=
    if (dt_total <=? 0)%Z then 0
    else 100 * (1 - inject_Z dt_idle / inject_Z dt_total) in
  (* NET total (rx+tx) *)
  let '(rx1, tx1) := s_net s in
  let drx := rx1 - rx0 st in
  let dtx := tx1 - tx0 st in
  let down_mbps := drx * 8 / (INTERVAL * 1000000) in
  let up_mbps := dtx * 8 / (INTERVAL * 1000000) in
  let total := py_max (down_mbps + up_mbps) 0 in
  (* shaper *)
  let '(hi_tc, med_tc, low_tc, (l_hi, l_med, l_low)) := shaper_step st (s_tc s) in
  (* message volume *)
  let '((t, a, st_, ts_, b_telem, b_alert), l') := read_and_reset l in
  let telem := inject_Z b_telem * 8 / (INTERVAL * 1000000) in
  let alert_ := inject_Z b_alert * 8 / (INTERVAL * 1000000) in
  let '(hi, med, low, src) :=
    select_source hi_tc med_tc low_tc total telem alert_ in
  let st' :=
    {| t0_total := t1_total; t0_idle := t1_idle; rx0 := rx1; tx0 := tx1;
       last_hi := l_hi; last_med := l_med; last_low := l_low |} in
  let res :=
    if is_dict t && is_dict a then
      Ok {| cpu_pct := cpu_pct_; total_mbps := total;
            telem_mbps := telem; alert_mbps := alert_;
            hi_mbps := hi; med_mbps := med; low_mbps := low;
            qos_src := src |}
    else Raise "AttributeError" in
  (res, st', l').

(** The rate fields of [payload_net] and the CPU field of
    [payload_pi], as they are published. *)
Definition payload_net (o : tick_out) : Q * Q * Q * Q * string :=
  (CAP_Mbps, round (hi_mbps o) 4, round (med_mbps o) 4,
   round (low_mbps o) 4, qos_src o).

Definition payload_pi_cpu (o : tick_out) : Q := round (cpu_pct o) 1.

(** What can happen to the process between two observations: a message
    is delivered to the callback, or the loop runs an iteration. An
    iteration that raises ends the process. *)
Inductive event :=
| Deliver (now : Q) (msg : Mqtt.message)
| Tick (s : sample).

Definition step (c : loop_state * latest) (e : event)
  : outcome (loop_state * latest) :=
  match e with
  | Deliver now msg => Ok (c.1, _on_message c.2 now msg)
  | Tick s =>
      match tick c.1 c.2 s with
      | (Ok _, st', l') => Ok (st', l')
      | (Raise err, _, _) => Raise err
      end
  end.

Fixpoint run (c : loop_state * latest) (es : list event)
  : outcome (loop_state * latest) :=
  match es with
  | [] => Ok c
  | e :: es' =>
      match step c e with
      | Ok c' => run c' es'
      | Raise err => Raise err
      end
  end.

End Estadisticas.

(** ** The part of SQLite the programs use *)

Module Sqlite.

(** Storage classes (BLOB is not used by the programs). *)
Inductive value :=
| VNull
| VInt (z : Z)
| VReal (q : Q)
| VText (s : string).

(** A table: declared columns (name, declared type) and the stored
    records in rowid order. A record written before a column was added
    is shorter than the column list; the missing fields read as NULL. *)
Record table := {
  cols : list (string * string);
  rows : list (list value);
}.

Record index := {
  on_table : string;
  on_cols : list string;
}.

Inductive journal_mode := Delete | Wal.

(** The database file. Identifiers are compared as written: every
    statement of the repository writes them in lower case. *)
Record db := {
  tables : gmap string table;
  indexes : gmap string index;
  journal : journal_mode;
}.

(** The file [sqlite3.connect] creates when there is none. *)
Definition empty_db : db :=
  {| tables := ∅; indexes := ∅; journal := Delete |}.

(** Statements run in autocommit mode ([isolation_level=None]): each
    one either takes effect or raises and leaves the file as it was;
    the effects of the statements before it stay. *)
Definition sql (A : Type) : Type := db → outcome A * db.

#[global] Instance sql_ret : MRet sql := λ A a d, (Ok a, d).
#[global] Instance sql_bind : MBind sql := λ A B f m d,
  match m d with
  | (Ok a, d') => f a d'
  | (Raise e, d') => (Raise e, d')
  end.

Definition col_names (t : table) : list string := (cols t).*1.

(** [PRAGMA journal_mode=WAL;] (persistent in the file). *)
Definition pragma_journal_wal : sql () := λ d,
  (Ok (), {| tables := tables d; indexes := indexes d; journal := Wal |}).

(** [CREATE TABLE IF NOT EXISTS name(columns);] *)
Definition create_table_if_not_exists (name : string)
    (columns : list (string * string)) : sql () := λ d,
  match tables d !! name with
  | Some _ => (Ok (), d)
  | None =>
      match indexes d !! name with
      | Some _ => (Raise "there is already an index with this name", d)
      | None =>
          (Ok (), {| tables := <[name := {| cols := columns; rows := [] |}]> (tables d);
                     indexes := indexes d; journal := journal d |})
      end
  end.

(** [CREATE INDEX IF NOT EXISTS name ON tbl(columns);] *)
Definition create_index_if_not_exists (name tbl : string)
    (columns : list string) : sql () := λ d,
  match tables d !! tbl with
  | None => (Raise "no such table", d)
  | Some t =>
      match tables d !! name with
      | Some _ => (Raise "there is already a table with this name", d)
      | None =>
          match indexes d !! name with
          | Some _ => (Ok (), d)
          | None =>
              if forallb (λ c, bool_decide (c ∈ col_names t)) columns then
                (Ok (), {| tables := tables d;
                           indexes := <[name := {| on_table := tbl; on_cols := columns |}]> (indexes d);
                           journal := journal d |})
              else (Raise "no such column", d)
          end
      end
  end.

(** [PRAGMA table_info(tbl);] reduced to the name and type of each
    column; no rows for a table that does not exist. *)
Definition table_info (tbl : string) : sql (list (string * string)) := λ d,
  (Ok (match tables d !! tbl with Some t => cols t | None => [] end), d).

(** [ALTER TABLE tbl ADD COLUMN "c" ctype;] The stored records are not
    rewritten. *)
Definition alter_table_add_column (tbl c ctype : string) : sql () := λ d,
  match tables d !! tbl with
  | None => (Raise "no such table", d)
  | Some t =>
      if bool_decide (c ∈ col_names t) then (Raise "duplicate column name", d)
      else
        (Ok (), {| tables := <[tbl := {| cols := cols t ++ [(c, ctype)]; rows := rows t |}]> (tables d);
                   indexes := indexes d; journal := journal d |})
  end.

(** [INSERT INTO tbl(columns) VALUES(vals);] The new record has one
    field per column of the table, NULL where no value is given. *)
Definition insert_into (tbl : string) (columns : list string)
    (vals : list value) : sql () := λ d,
  match tables d !! tbl with
  | None => (Raise "no such table", d)
  | Some t =>
      if forallb (λ c, bool_decide (c ∈ col_names t)) columns then
        let given : gmap string value := list_to_map (zip columns vals) in
        let record := (λ c, default VNull (given !! c)) <$> col_names t in
        (Ok (), {| tables := <[tbl := {| cols := cols t; rows := rows t ++ [record] |}]> (tables d);
                   indexes := indexes d; journal := journal d |})
      else (Raise "no such column", d)
  end.

(** *** Queries *)

(** The [sqlite3] module binds a Python integer to a parameter of a
    statement only if it fits 64 bits. *)
Definition bind_param (z : Z) : outcome Z :=
  if ((- 2 ^ 63 <=? z) && (z <? 2 ^ 63))%Z then Ok z else Raise "OverflowError".

(** The order of values of different storage classes: NULL, then
    numbers, then text. *)
Definition value_compare (a b : value) : comparison :=
  match a, b with
  | VNull, VNull => Eq
  | VNull, _ => Lt
  | _, VNull => Gt
  | VInt x, VInt y => (x ?= y)%Z
  | VInt x, VReal y => (inject_Z x ?= y)%Q
  | VReal x, VInt y => (x ?= inject_Z y)%Q
  | VReal x, VReal y => (x ?= y)%Q
  | VText x, VText y => String.compare x y
  | VText _, _ => Gt
  | _, VText _ => Lt
  end.

(** Field [i] of a stored record. *)
Definition field (r : list value) (i : nat) : value :=
  default VNull (r !! i).

(** Position of a column in a table. *)
Fixpoint col_index (cs : list string) (c : string) : option nat :=
  match cs with
  | [] => None
  | c' :: cs' => if String.eqb c' c then Some 0%nat else S <$> col_index cs' c
  end.

(** The value of a named column in a record. *)
Definition column (t : table) (c : string) : outcome (list value → value) :=
  match col_index (col_names t) c with
  | Some i => Ok (λ r, field r i)
  | None => Raise "no such column"
  end.

(** The [WHERE] clauses of the programs. A comparison with NULL is not
    true. *)
Inductive where_clause :=
| WAll
| WEq (c : string) (v : value)
| WGe (c : string) (v : value).

Definition where_holds (t : table) (w : where_clause)
  : outcome (list value → bool) :=
  match w with
  | WAll => Ok (λ _, true)
  | WEq c v =>
      match column t c with
      | Ok get =>
          Ok (λ r, match get r, v with
                   | VNull, _ | _, VNull => false
                   | x, y => bool_decide (value_compare x y = Eq)
                   end)
      | Raise e => Raise e
      end
  | WGe c v =>
      match column t c with
      | Ok get =>
          Ok (λ r, match get r, v with
                   | VNull, _ | _, VNull => false
                   | x, y => negb (bool_decide (value_compare x y = Lt))
                   end)
      | Raise e => Raise e
      end
  end.

(** [ORDER BY key DESC] and [ASC]. SQL leaves the order of records with
    equal keys open; here they stay in rowid order. *)
Fixpoint insert_desc {A} (key : A → value) (x : A) (l : list A) : list A :=
  match l with
  | [] => [x]
  | y :: l' =>
      match value_compare (key x) (key y) with
      | Lt => y :: insert_desc key x l'
      | _ => x :: y :: l'
      end
  end.

Definition order_by_desc {A} (key : A → value) (l : list A) : list A :=
  foldr (insert_desc key) [] l.

Fixpoint insert_asc {A} (key : A → value) (x : A) (l : list A) : list A :=
  match l with
  | [] => [x]
  | y :: l' =>
      match value_compare (key x) (key y) with
      | Gt => y :: insert_asc key x l'
      | _ => x :: y :: l'
      end
  end.

Definition order_by_asc {A} (key : A → value) (l : list A) : list A :=
  foldr (insert_asc key) [] l.

(** [LIMIT n]: a negative [n] means no limit. *)
Definition limit {A} (n : Z) (l : list A) : list A :=
  if (n <? 0)%Z then l else take (Z.to_nat n) l.

(** A result row as [dict(sqlite3.Row)]. *)
Abbreviation row := (gmap string value).

(** [SELECT *]: every column of the table. *)
Definition star (t : table) (r : list value) : gmap string value :=
  list_to_map (imap (λ i c, (c, field r i)) (col_names t)).

(** [SELECT c1, c2, ...] *)
Fixpoint project (t : table) (cs : list string)
  : outcome (list value → gmap string value) :=
  match cs with
  | [] => Ok (λ _, ∅)
  | c :: cs' =>
      match column t c, project t cs' with
      | Ok get, Ok rest => Ok (λ r, <[c := get r]> (rest r))
      | Raise e, _ => Raise e
      | _, Raise e => Raise e
      end
  end.

(** [SELECT * FROM tbl WHERE w ORDER BY key DESC LIMIT n;], the records
    before projection. *)
Definition select_desc (d : db) (tbl : string) (w : where_clause)
    (key : string) (n : Z) : outcome (table * list (list value)) :=
  match tables d !! tbl with
  | None => Raise "no such table"
  | Some t =>
      match where_holds t w, column t key with
      | Ok keep, Ok k => Ok (t, limit n (order_by_desc k (List.filter keep (rows t))))
      | Raise e, _ => Raise e
      | _, Raise e => Raise e
      end
  end.

(** [SELECT DISTINCT c FROM tbl;] *)
Fixpoint distinct (l : list value) : list value :=
  match l with
  | [] => []
  | v :: l' =>
      v :: List.filter (λ u, negb (bool_decide (value_compare u v = Eq))) (distinct l')
  end.

Definition select_distinct (d : db) (tbl c : string) : outcome (list value) :=
  match tables d !! tbl with
  | None => Raise "no such table"
  | Some t =>
      match column t c with
      | Ok get => Ok (distinct (get <$> rows t))
      | Raise e => Raise e
      end
  end.

(** [SELECT COUNT( * ) FROM tbl WHERE w;] *)
Definition select_count (d : db) (tbl : string) (w : where_clause) : outcome Z :=
  match tables d !! tbl with
  | None => Raise "no such table"
  | Some t =>
      match where_holds t w with
      | Ok keep => Ok (Z.of_nat (length (List.filter keep (rows t))))
      | Raise e => Raise e
      end
  end.

(** [SELECT c, COUNT( * ) AS n FROM tbl WHERE w GROUP BY c ORDER BY c ASC;]
    as pairs (value of [c], count). *)
Fixpoint group_counts (l : list value) : list (value * Z) :=
  match l with
  | [] => []
  | v :: l' =>
      match group_counts l' with
      | (u, n) :: g =>
          if bool_decide (value_compare v u = Eq) then (v, (n + 1)%Z) :: g
          else (v, 1%Z) :: (u, n) :: g
      | [] => [(v, 1%Z)]
      end
  end.

Definition select_group_count (d : db) (tbl : string) (w : where_clause)
    (c : string) : outcome (list (value * Z)) :=
  match tables d !! tbl with
  | None => Raise "no such table"
  | Some t =>
      match where_holds t w, column t c with
      | Ok keep, Ok get =>
          Ok (group_counts (order_by_asc id (get <$> List.filter keep (rows t))))
      | Raise e, _ => Raise e
      | _, Raise e => Raise e
      end
  end.

(** The comparison [x < v] of a [WHERE] clause; with NULL on either
    side it is not true. *)
Definition lt_holds (x v : value) : bool :=
  match x, v with
  | VNull, _ | _, VNull => false
  | x, y => bool_decide (value_compare x y = Lt)
  end.

(** [DELETE FROM tbl WHERE c < v;] *)
Definition delete_lt (tbl c : string) (v : value) : sql () := λ d,
  match tables d !! tbl with
  | None => (Raise "no such table", d)
  | Some t =>
      match column t c with
      | Raise e => (Raise e, d)
      | Ok get =>
          (Ok (), {| tables := <[tbl := {| cols := cols t;
                                           rows := List.filter (λ r, negb (lt_holds (get r) v)) (rows t) |}]> (tables d);
                     indexes := indexes d; journal := journal d |})
      end
  end.

End Sqlite.

(** ** [snapshot_db.py]: the snapshot builder *)

Module SnapshotDb.
Import Sqlite.

(** [_connect]: the journal mode is stored in the file; the other
    pragma is a setting of the connection. *)
Definition _connect : sql () := pragma_journal_wal.

Definition toma_samples_cols : list (string * string) :=
  [("ts", "INTEGER"); ("toma", "TEXT"); ("seq", "INTEGER");
   ("is_on", "INTEGER"); ("amperaje", "REAL"); ("potencia_w", "REAL");
   ("estado", "TEXT"); ("rssi", "INTEGER")].

Definition alert_samples_cols : list (string * string) :=
  [("ts", "INTEGER"); ("toma", "TEXT"); ("seq", "INTEGER");
   ("reason", "TEXT"); ("potencia_w", "REAL"); ("rssi", "INTEGER");
   ("raw_json", "TEXT")].

Definition pi_samples_cols : list (string * string) :=
  [("ts", "INTEGER"); ("cpu_pct", "REAL"); ("ram_used_gb", "REAL");
   ("ram_total_gb", "REAL"); ("temp_c", "REAL"); ("uptime_s", "INTEGER")].

Definition net_samples_cols : list (string * string) :=
  [("ts", "INTEGER"); ("hi_mbps", "REAL"); ("med_mbps", "REAL");
   ("low_mbps", "REAL"); ("cap_mbps", "REAL"); ("qos_src", "TEXT")].

Definition ensure_schema : sql () :=
  create_table_if_not_exists "toma_samples" toma_samples_cols;;
  create_index_if_not_exists "idx_toma_ts" "toma_samples" ["toma"; "ts"];;
  create_table_if_not_exists "alert_samples" alert_samples_cols;;
  create_index_if_not_exists "idx_alert_ts" "alert_samples" ["ts"];;
  create_index_if_not_exists "idx_alert_toma_ts" "alert_samples" ["toma"; "ts"];;
  create_table_if_not_exists "pi_samples" pi_samples_cols;;
  create_index_if_not_exists "idx_pi_ts" "pi_samples" ["ts"];;
  create_table_if_not_exists "net_samples" net_samples_cols;;
  create_index_if_not_exists "idx_net_ts" "net_samples" ["ts"].

(** One entry of [by_ttl]. A missing key and a NULL both read as
    [VNull] (Python's [None]). *)
Record liveness := {
  l_ts : Z;
  age_sec : Z;
  online : Z;
  amperaje : value;
  potencia_w : value;
  estado : value;
  rssi : value;
}.

(** The entries of [out["tables"]]. *)
Inductive table_view :=
| PiSamples (latest : list row)
| NetSamples (latest series : list row)
| TomaSamples (latest_per_toma : gmap string row)
              (series_per_toma : gmap string (list row))
| AlertSamples (count_120s : Z) (series_120s : list row).

Record snapshot := {
  now_ts : Z;
  ttl_sec : Z;
  db_path : string;
  tables : gmap string table_view;
  derived : gmap string (gmap string liveness);
  alerts : Z * list row;
}.

(** [_rows] for the [SELECT *] queries, and [_one]. *)
Definition _rows_star (q : outcome (table * list (list value)))
  : outcome (list row) :=
  let* p := q in Ok (star p.1 <$> p.2).

Definition _one (q : outcome (table * list (list value))) : outcome row :=
  let* rs := _rows_star q in Ok (default ∅ (head rs)).

(** [int(r.get("ts") or 0)] *)
Definition int_or_0 (v : value) : outcome Z :=
  match v with
  | VNull => Ok 0%Z
  | VInt z => Ok z
  | VReal q => Ok (if Qeq_bool q 0 then 0%Z else int_of_float q)
  | VText s =>
      if String.eqb s "" then Ok 0%Z
      else match int_of_str s with
           | Some z => Ok z
           | None => Raise "ValueError"
           end
  end.

(** [r.get(k)] *)
Definition rget (r : row) (k : string) : value := default VNull (r !! k).

(** [sorted([t["toma"] for t in tomas if t.get("toma")])]. The column
    has TEXT affinity in every schema of the repository; a number in it
    is outside the model and reported as an exception. *)
Fixpoint truthy_names (l : list value) : outcome (list string) :=
  match l with
  | [] => Ok []
  | VNull :: l' => truthy_names l'
  | VText s :: l' =>
      let* names := truthy_names l' in
      Ok (if String.eqb s "" then names else s :: names)
  | _ :: _ => Raise "TypeError"
  end.

(** The body of the loop that fills [by_ttl]. *)
Definition liveness_of (now ttl : Z) (r : row) : outcome liveness :=
  let* ts := int_or_0 (rget r "ts") in
  let age := if (ts =? 0)%Z then (10 ^ 9)%Z else (now - ts)%Z in
  Ok {| l_ts := ts;
        age_sec := age;
        online := if (age <=? ttl)%Z then 1 else 0;
        amperaje := rget r "amperaje";
        potencia_w := rget r "potencia_w";
        estado := rget r "estado";
        rssi := rget r "rssi" |}.

(** The queries of [build_snapshot], on the store [d] left by
    [ensure_schema], for a read during which no other process writes
    to the store; [net_views] and [alert_views] below give the
    statements on two of the tables with the store as each statement
    finds it. The integer parameters of a statement are bound before
    it runs. *)
Definition read_views (d : db) (now : Z) (path : string)
    (max_rows_per_table toma_points ttl_sec : Z) : outcome snapshot :=
  let* pi_latest := _rows_star (select_desc d "pi_samples" WAll "ts" 1) in
  let* net_latest := _rows_star (select_desc d "net_samples" WAll "ts" 1) in
  let* net_series :=
    (let* n := bind_param max_rows_per_table in
     _rows_star (select_desc d "net_samples" WAll "ts" n)) in
  let* tomas := select_distinct d "toma_samples" "toma" in
  let* names := truthy_names tomas in
  let toma_names := sorted names in
  let* latest_map :=
    for_loop (λ (m : gmap string row) tn,
        let* r := _one (select_desc d "toma_samples" (WEq "toma" (VText tn)) "ts" 1) in
        Ok (if bool_decide (r = ∅) then m else <[tn := r]> m))
      ∅ toma_names in
  let* series_per_toma :=
    for_loop (λ (m : gmap string (list row)) tn,
        let* p :=
          (let* n := bind_param toma_points in
           select_desc d "toma_samples" (WEq "toma" (VText tn)) "ts" n) in
        let* sel := project p.1 ["ts"; "toma"; "amperaje"; "potencia_w"; "estado"; "rssi"] in
        Ok (<[tn := reverse (sel <$> p.2)]> m))
      ∅ toma_names in
  let* by_ttl :=
    for_loop (λ (m : gmap string liveness) (kv : string * row),
        let* e := liveness_of now ttl_sec kv.2 in
        Ok (<[kv.1 := e]> m))
      ∅ (map_to_list latest_map) in
  let win := 120%Z in
  let* count_120 :=
    (let* since := bind_param (now - win) in
     select_count d "alert_samples" (WGe "ts" (VInt since))) in
  let* groups :=
    (let* since := bind_param (now - win) in
     select_group_count d "alert_samples" (WGe "ts" (VInt since)) "ts") in
  let series : list row :=
    (λ g : value * Z, {[ "ts" := g.1; "n" := VInt g.2 ]}) <$> groups in
  Ok {| now_ts := now;
        ttl_sec := ttl_sec;
        db_path := path;
        tables :=
          <[ "alert_samples" := AlertSamples count_120 series ]>
          (<[ "toma_samples" := TomaSamples latest_map series_per_toma ]>
          (<[ "net_samples" := NetSamples net_latest (reverse net_series) ]>
          (<[ "pi_samples" := PiSamples pi_latest ]> ∅)));
        derived := {[ "tomas_by_ttl" := by_ttl ]};
        alerts := (count_120, series) |}.

(** The two statements on [net_samples]. Every statement runs on its
    own in autocommit mode and other processes write to the file, so
    the two may find different stores: [d_latest] and [d_series]. *)
Definition net_views (d_latest d_series : db) (max_rows_per_table : Z)
  : outcome (list row * list row) :=
  let* net_latest := _rows_star (select_desc d_latest "net_samples" WAll "ts" 1) in
  let* net_series :=
    (let* n := bind_param max_rows_per_table in
     _rows_star (select_desc d_series "net_samples" WAll "ts" n)) in
  Ok (net_latest, reverse net_series).

(** The two statements on [alert_samples], on the stores [d_count] and
    [d_series] they find. *)
Definition alert_views (d_count d_series : db) (now : Z)
  : outcome (Z * list row) :=
  let win := 120%Z in
  let* count_120 :=
    (let* since := bind_param (now - win) in
     select_count d_count "alert_samples" (WGe "ts" (VInt since))) in
  let* groups :=
    (let* since := bind_param (now - win) in
     select_group_count d_series "alert_samples" (WGe "ts" (VInt since)) "ts") in
  let series : list row :=
    (λ g : value * Z, {[ "ts" := g.1; "n" := VInt g.2 ]}) <$> groups in
  Ok (count_120, series).

(** [build_snapshot]. [fs] is the file at the configured path, [None]
    when [os.path.exists] is false; [now] is [int(time.time())]. The
    result is the returned dictionary or the exception, and the file
    afterwards. *)
Definition build_snapshot (fs : option db) (now : Z) (path : string)
    (max_rows_per_table toma_points ttl_sec : Z)
  : outcome snapshot * option db :=
  let out :=
    {| now_ts := now; ttl_sec := ttl_sec; db_path := path;
       tables := ∅; derived := ∅; alerts := (0%Z, []) |} in
  match fs with
  | None => (Ok out, None)
  | Some d =>
      match (_connect;; ensure_schema) d with
      | (Raise e, d') => (Raise e, Some d')
      | (Ok _, d') =>
          (read_views d' now path max_rows_per_table toma_points ttl_sec, Some d')
      end
  end.

End SnapshotDb.

(** ** [ingest_tomas.py]: the message ingestor *)

Module IngestTomas.
Import Sqlite.
Local Open Scope Z_scope.

Definition RESERVED_IDS : gset string :=
  {[ "pi"; "ap"; "display"; "dashboard" ]}.

Definition PRINT_EVERY : Q := 8.

(** [connect_db], for an existing or a new file: of the three pragmas
    only the journal mode is stored in the file. *)
Definition connect_db : sql () := pragma_journal_wal.

(** [_cols]: the dictionary from column name to declared type. *)
Definition _cols (tbl : string) : sql (gmap string string) :=
  info ← table_info tbl;
  mret (foldl (λ (d : gmap string string) r, <[r.1 := r.2]> d) ∅ info).

Definition toma_samples_cols : list (string * string) :=
  [("ts", "INTEGER"); ("toma", "TEXT"); ("seq", "INTEGER");
   ("ms", "INTEGER"); ("sim", "INTEGER"); ("is_on", "INTEGER");
   ("amperaje", "REAL"); ("potencia_w", "REAL"); ("estado", "TEXT");
   ("rssi", "INTEGER")]%string.

Definition alert_samples_cols : list (string * string) :=
  toma_samples_cols ++ [("reason", "TEXT")]%string.

Definition need_toma : list (string * string) :=
  [("seq", "INTEGER"); ("ms", "INTEGER"); ("sim", "INTEGER");
   ("is_on", "INTEGER"); ("amperaje", "REAL"); ("potencia_w", "REAL");
   ("estado", "TEXT"); ("rssi", "INTEGER")]%string.

Definition need_alert : list (string * string) :=
  need_toma ++ [("reason", "TEXT")]%string.

(** [for c, ctype in need.items(): if c not in have: ALTER TABLE ...] *)
Fixpoint add_missing (tbl : string) (have : gmap string string)
    (need : list (string * string)) : sql () :=
  match need with
  | [] => mret ()
  | (c, ctype) :: rest =>
      (if bool_decide (have !! c = None)
       then alter_table_add_column tbl c ctype
       else mret ());;
      add_missing tbl have rest
  end.

Definition ensure_schema : sql () :=
  create_table_if_not_exists "toma_samples" toma_samples_cols;;
  create_table_if_not_exists "alert_samples" alert_samples_cols;;
  have_t ← _cols "toma_samples";
  add_missing "toma_samples" have_t need_toma;;
  have_a ← _cols "alert_samples";
  add_missing "alert_samples" have_a need_alert;;
  create_index_if_not_exists "idx_toma_ts" "toma_samples" ["toma"; "ts"]%string;;
  create_index_if_not_exists "idx_alert_ts" "alert_samples" ["toma"; "ts"]%string.

(** [topic_to_id] *)
Definition topic_to_id (topic : string) : option string :=
  let parts := split "/" topic in
  if (3 <=? length parts)%nat && bool_decide (parts !! 0%nat = Some "safegrid"%string)
  then parts !! 1%nat
  else None.

(** [safe_float] and [safe_int]: [None] for [None] and for whatever
    makes the conversion raise. *)
Definition safe_float (x : pyval) : option Q :=
  match x with
  | PNone => None
  | PBool b => Some (if b then 1%Q else 0%Q)
  | PInt z => float_of_int z
  | PFloat q => Some q
  | PStr s => float_of_str s
  | PList _ | PDict _ => None
  end.

Definition safe_int (x : pyval) : option Z :=
  match x with
  | PNone => None
  | PBool b => Some (if b then 1 else 0)
  | PInt z => Some z
  | PFloat q => Some (int_of_float q)
  | PStr s => int_of_str s
  | PList _ | PDict _ => None
  end.

(** How the [sqlite3] module binds a Python object to a parameter: an
    integer must fit 64 bits, a list or a dictionary is refused. *)
Definition int64 (z : Z) : bool := (- 2 ^ 63 <=? z) && (z <? 2 ^ 63).

Definition bind_int (z : Z) : outcome value :=
  if int64 z then Ok (VInt z) else Raise "OverflowError".

Definition bind_opt_int (o : option Z) : outcome value :=
  match o with
  | None => Ok VNull
  | Some z => bind_int z
  end.

Definition bind_opt_float (o : option Q) : outcome value :=
  Ok (match o with None => VNull | Some q => VReal q end).

Definition bind_object (v : pyval) : outcome value :=
  match v with
  | PNone => Ok VNull
  | PBool b => Ok (VInt (if b then 1 else 0))
  | PInt z => bind_int z
  | PFloat q => Ok (VReal q)
  | PStr s => Ok (VText s)
  | PList _ | PDict _ => Raise "InterfaceError"
  end.

(** All parameters of a statement are bound before it runs. *)
Fixpoint bind_all (ps : list (outcome value)) : outcome (list value) :=
  match ps with
  | [] => Ok []
  | p :: ps' =>
      let* v := p in
      let* vs := bind_all ps' in
      Ok (v :: vs)
  end.

(** The [Writer] object: its connection (the file it writes) and the
    time of its last status print. The lock makes every insertion
    atomic. *)
Record Writer := {
  con : db;
  last_print : Q;
}.

(** [Writer.__init__], on the file at [DB_PATH] if there is one. *)
Definition Writer_init (fs : option db) : outcome Writer :=
  match (connect_db;; ensure_schema) (default empty_db fs) with
  | (Ok _, d) => Ok {| con := d; last_print := 0 |}
  | (Raise e, _) => Raise e
  end.

(** The expression for the column [is_on]. *)
Definition is_on_of (doc : gmap string pyval) : option Z :=
  match get doc "on" with
  | PBool true => Some 1
  | PBool false => Some 0
  | _ => safe_int (get doc "is_on")
  end.

Definition _maybe_print (w : Writer) (now : Q) : Writer :=
  if Qle_bool PRINT_EVERY (now - last_print w)
  then {| con := con w; last_print := now |}
  else w.

(** The ten values of a telemetry row. [now] is the clock of the
    host. *)
Definition telem_row (now : Q) (toma : string) (doc : gmap string pyval)
  : list (outcome value) :=
  [ bind_int (int_of_float now);
    Ok (VText toma);
    bind_opt_int (safe_int (get doc "seq"));
    bind_opt_int (safe_int (get doc "ms"));
    bind_opt_int (safe_int (get doc "sim"));
    bind_opt_int (is_on_of doc);
    bind_opt_float (safe_float (get doc "amperaje"));
    bind_opt_float (safe_float (get doc "potencia_w"));
    bind_object (get doc "estado");
    bind_opt_int (safe_int (get doc "rssi")) ].

Definition telem_columns : list string :=
  ["ts"; "toma"; "seq"; "ms"; "sim"; "is_on"; "amperaje"; "potencia_w";
   "estado"; "rssi"]%string.

(** Run one [INSERT] on the connection of the writer. *)
Definition execute_insert (w : Writer) (tbl : string) (columns : list string)
    (params : list (outcome value)) : outcome () * Writer :=
  match bind_all params with
  | Raise e => (Raise e, w)
  | Ok vals =>
      let '(r, d) := insert_into tbl columns vals (con w) in
      (r, {| con := d; last_print := last_print w |})
  end.

Definition insert_telem (w : Writer) (now : Q) (toma : string)
    (doc : gmap string pyval) : outcome () * Writer :=
  match execute_insert w "toma_samples" telem_columns (telem_row now toma doc) with
  | (Ok _, w') => (Ok (), _maybe_print w' now)
  | (Raise e, w') => (Raise e, w')
  end.

Definition insert_alert (w : Writer) (now : Q) (toma : string)
    (doc : gmap string pyval) : outcome () * Writer :=
  match execute_insert w "alert_samples" (telem_columns ++ ["reason"%string])
          (telem_row now toma doc ++ [bind_object (get doc "reason")]) with
  | (Ok _, w') => (Ok (), _maybe_print w' now)
  | (Raise e, w') => (Raise e, w')
  end.

Section Callbacks.
(** [str(x)] for an object that is not a string: how Python prints
    numbers and containers is not part of the program. *)
Variable repr : pyval → string.

Definition py_str (v : pyval) : string :=
  match v with
  | PStr s => s
  | _ => repr v
  end.

(** The identifier a message is stored under: the payload field
    [toma], else [id], else the topic segment; trimmed and in lower
    case. *)
Definition toma_norm_of (doc : gmap string pyval) (toma : string) : string :=
  let t2 := py_or (py_or (get doc "toma") (get doc "id")) (PStr toma) in
  lower (strip (py_str t2)).

(** The callback [on_telem] of [main]: it returns nothing and lets no
    exception out; its effect is the writer afterwards. *)
Definition on_telem (w : Writer) (now : Q) (msg : Mqtt.message) : Writer :=
  let toma := default ""%string (topic_to_id (Mqtt.topic msg)) in
  if String.eqb toma "" then w
  else if bool_decide (lower toma ∈ RESERVED_IDS) then w
  else
    match Mqtt.json msg with
    | None => w
    | Some (PDict doc) =>
        let toma_norm := toma_norm_of doc toma in
        if bool_decide (toma_norm ∈ RESERVED_IDS) then w
        else (insert_telem w now toma_norm doc).2
    | Some _ => w
    end.

(** The callback [on_alert]. *)
Definition on_alert (w : Writer) (now : Q) (msg : Mqtt.message) : Writer :=
  let toma := default ""%string (topic_to_id (Mqtt.topic msg)) in
  if String.eqb toma "" then w
  else
    match Mqtt.json msg with
    | None => w
    | Some (PDict doc) =>
        let toma_norm := toma_norm_of doc toma in
        if bool_decide (toma_norm ∈ RESERVED_IDS) then w
        else (insert_alert w now toma_norm doc).2
    | Some _ => w
    end.

(** A message handed to one of the two clients, with the clock of the
    host at that moment. *)
Inductive delivery :=
| OnTelem (now : Q) (msg : Mqtt.message)
| OnAlert (now : Q) (msg : Mqtt.message).

Definition deliver (w : Writer) (e : delivery) : Writer :=
  match e with
  | OnTelem now msg => on_telem w now msg
  | OnAlert now msg => on_alert w now msg
  end.

Definition ingest (w : Writer) (es : list delivery) : Writer :=
  foldl deliver w es.
End Callbacks.

End IngestTomas.

(** ** [stats_writer.py]: schema and main loop *)

Module StatsWriterStore.
Import Sqlite.

Definition QOS_SRC : string := "mqtt".

Definition pi_samples_cols : list (string * string) :=
  [("ts", "INTEGER"); ("cpu_pct", "REAL"); ("ram_used_gb", "REAL");
   ("ram_total_gb", "REAL"); ("temp_c", "REAL"); ("uptime_s", "INTEGER")].

Definition net_samples_cols : list (string * string) :=
  [("ts", "INTEGER"); ("hi_mbps", "REAL"); ("med_mbps", "REAL");
   ("low_mbps", "REAL"); ("cap_mbps", "REAL"); ("qos_src", "TEXT")].

(** [ensure_schema] of [stats_writer.py]. *)
Definition ensure_schema : sql () :=
  pragma_journal_wal;;
  create_table_if_not_exists "pi_samples" pi_samples_cols;;
  create_index_if_not_exists "idx_pi_ts" "pi_samples" ["ts"];;
  create_table_if_not_exists "net_samples" net_samples_cols;;
  create_index_if_not_exists "idx_net_ts" "net_samples" ["ts"].

(** The connection and the module-level variables of the process. *)
Record state := {
  con : db;
  _prev_cpu : option (Z * Z);
  net : StatsWriter.net_state;
}.

(** What the host returns to the reads of one iteration: [time.time()]
    at its start, the fields of [/proc/stat] ([None] when the read
    raises), the pair of [mem_gb()], [temp_c()], [uptime_s()], and for
    [net_mbps()] its [time.time()] and the shaper output. *)
Record host := {
  h_time : Q;
  h_stat : option (list Z);
  h_mem : Q * Q;
  h_temp : Q;
  h_uptime : Z;
  h_net_time : Q;
  h_tc : option (gmap string Z);
}.

(** The same before anything is parsed: [r_temp_sys] is the text of the
    thermal zone file ([None] when it cannot be read), [r_temp_cmd]
    the output of [vcgencmd] and [r_tc_out] the output of the shaper
    tool, as [sh] returns them. *)
Record readings := {
  r_time : Q;
  r_stat : option (list Z);
  r_mem : Q * Q;
  r_temp_sys : option string;
  r_temp_cmd : string;
  r_uptime : Z;
  r_net_time : Q;
  r_tc_out : string;
}.

Section Config.
(** Environment configuration: capacity and shaper class identifiers. *)
Variable CAP : Q.
Variables CLASS_HIGH CLASS_MED CLASS_LOW : string.

(** One [execute] on the connection: the parameters are bound, then the
    statement runs. *)
Definition execute_insert (tbl : string) (columns : list string)
    (params : list (outcome value)) (d : db) : outcome () * db :=
  match IngestTomas.bind_all params with
  | Raise e => (Raise e, d)
  | Ok vals => insert_into tbl columns vals d
  end.

(** The columns and parameters of the two [INSERT] statements of
    [main]. *)
Definition pi_columns : list string :=
  ["ts"; "cpu_pct"; "ram_used_gb"; "ram_total_gb"; "temp_c"; "uptime_s"].

Definition pi_row (ts : Z) (c ru rt t : Q) (up : Z) : list (outcome value) :=
  [IngestTomas.bind_int ts; Ok (VReal c); Ok (VReal ru); Ok (VReal rt);
   Ok (VReal t); IngestTomas.bind_int up].

Definition net_columns : list string :=
  ["ts"; "hi_mbps"; "med_mbps"; "low_mbps"; "cap_mbps"; "qos_src"].

Definition net_row (ts : Z) (hi med low : Q) : list (outcome value) :=
  [IngestTomas.bind_int ts; Ok (VReal hi); Ok (VReal med); Ok (VReal low);
   Ok (VReal CAP); Ok (VText QOS_SRC)].

(** One iteration of the [while True] loop of [main], before the sleep,
    for readings [h] that were obtained: what [temp_c()] and
    [_parse_tc_bytes] can raise is in [main_iteration] below. An
    exception ends the process; statements that ran before it have
    taken effect. *)
Definition iteration (st : state) (h : host) : outcome () * state :=
  let ts := int_of_float (h_time h) in
  (* pi *)
  let '(c, prev) := StatsWriter.cpu_pct (_prev_cpu st) (h_stat h) in
  let '(ru, rt) := h_mem h in
  match execute_insert "pi_samples" pi_columns
          (pi_row ts c ru rt (h_temp h) (h_uptime h)) (con st) with
  | (Raise e, d1) => (Raise e, {| con := d1; _prev_cpu := prev; net := net st |})
  | (Ok _, d1) =>
      (* net *)
      let '((hi, med, low), ns) :=
        StatsWriter.net_mbps CLASS_HIGH CLASS_MED CLASS_LOW (net st)
          (h_net_time h) (h_tc h) in
      match execute_insert "net_samples" net_columns (net_row ts hi med low) d1 with
      | (Raise e, d2) => (Raise e, {| con := d2; _prev_cpu := prev; net := ns |})
      | (Ok _, d2) =>
          (* limpieza simple (30 min) *)
          let cutoff := (ts - 1800)%Z in
          match (delete_lt "pi_samples" "ts" (VInt cutoff);;
                 delete_lt "net_samples" "ts" (VInt cutoff)) d2 with
          | (r, d3) => (r, {| con := d3; _prev_cpu := prev; net := ns |})
          end
      end
  end.

(** The same iteration from what the host gives before any of it is
    parsed: the text of the thermal zone file ([None] when it cannot
    be read), the output of [vcgencmd] and the output of the shaper
    tool take the place of the temperature and of the parsed
    counters. *)
Definition main_iteration (st : state) (r : readings) : outcome () * state :=
  let ts := int_of_float (r_time r) in
  (* pi *)
  let '(c, prev) := StatsWriter.cpu_pct (_prev_cpu st) (r_stat r) in
  let '(ru, rt) := r_mem r in
  match StatsWriter.temp_c (r_temp_sys r) (r_temp_cmd r) with
  | Raise e => (Raise e, {| con := con st; _prev_cpu := prev; net := net st |})
  | Ok t =>
      match execute_insert "pi_samples" pi_columns
              (pi_row ts c ru rt t (r_uptime r)) (con st) with
      | (Raise e, d1) => (Raise e, {| con := d1; _prev_cpu := prev; net := net st |})
      | (Ok _, d1) =>
          (* net *)
          match StatsWriter.net_mbps_sh CLASS_HIGH CLASS_MED CLASS_LOW (net st)
                  (r_net_time r) (r_tc_out r) with
          | Raise e => (Raise e, {| con := d1; _prev_cpu := prev; net := net st |})
          | Ok ((hi, med, low), ns) =>
              match execute_insert "net_samples" net_columns
                      (net_row ts hi med low) d1 with
              | (Raise e, d2) =>
                  (Raise e, {| con := d2; _prev_cpu := prev; net := ns |})
              | (Ok _, d2) =>
                  (* limpieza simple (30 min) *)
                  let cutoff := (ts - 1800)%Z in
                  match (delete_lt "pi_samples" "ts" (VInt cutoff);;
                         delete_lt "net_samples" "ts" (VInt cutoff)) d2 with
                  | (res, d3) => (res, {| con := d3; _prev_cpu := prev; net := ns |})
                  end
              end
          end
      end
  end.
End Config.

End StatsWriterStore.

(** ** [dashboard_server.py]: what the dashboard shows of a snapshot *)

Module DashboardServer.
Import Sqlite.

Section Config.
(** Environment configuration: the time to live, the capacity used when
    a sample carries none, and the outlets that are always listed. *)
Variable TTL_SEC : Z.
Variable CAP_FALLBACK_MBPS : Q.
Variable _EXPECTED_TOMAS : list string.

(** [s.startswith(p)] *)
Definition startswith (s p : string) : bool := String.prefix p s.

(** [snap.get("tables", {}).get(table, {}).get("latest") or []]: only
    the views of [pi_samples] and [net_samples] have the key. *)
Definition latest_rows (v : option SnapshotDb.table_view) : list row :=
  match v with
  | Some (SnapshotDb.PiSamples latest) => latest
  | Some (SnapshotDb.NetSamples latest _) => latest
  | _ => []
  end.

(** [_last_from_table] *)
Definition _last_from_table (snap : SnapshotDb.snapshot) (table : string) : row :=
  default ∅ (head (latest_rows (SnapshotDb.tables snap !! table))).

(** [_net_state] *)
Definition _net_state (util_pct : Q) : string :=
  if Qle_bool 80 util_pct then "SATURADA"
  else if Qle_bool 50 util_pct then "ALTA"
  else "OK".

(** [_qos_panel]: the returned dictionary is one of four constants,
    named here by its congestion level. *)
Inductive panel := SIN_CONGESTION | MODERADA | FUERTE | CRITICA.

Definition _qos_panel (util_pct : Q) : panel :=
  if Qlt_le_dec util_pct 40 then SIN_CONGESTION
  else if Qlt_le_dec util_pct 80 then MODERADA
  else if Qlt_le_dec util_pct 95 then FUERTE
  else CRITICA.

(** [float(x or 0)] on a value read from the store. *)
Definition float_or_0 (v : value) : outcome Q :=
  match v with
  | VNull => Ok 0%Q
  | VInt z => Ok (inject_Z z)
  | VReal q => Ok q
  | VText s =>
      if String.eqb s "" then Ok 0%Q
      else match float_of_str s with
           | Some q => Ok q
           | None => Raise "ValueError"
           end
  end.

Record net_fields := {
  hi_mbps : Q;
  med_mbps : Q;
  low_mbps : Q;
  cap_mbps : Q;
  total_mbps : Q;
  util_pct : Q;
  state : string;
  qos_src : value;
  qos_panel : panel;
}.

(** [_calc_net_fields] *)
Definition _calc_net_fields (snap : SnapshotDb.snapshot) : net_fields :=
  let net := _last_from_table snap "net_samples" in
  let '(hi, med, low, cap) :=
    match (let* hi := float_or_0 (SnapshotDb.rget net "hi_mbps") in
           let* med := float_or_0 (SnapshotDb.rget net "med_mbps") in
           let* low := float_or_0 (SnapshotDb.rget net "low_mbps") in
           let* cap := float_or_0 (SnapshotDb.rget net "cap_mbps") in
           Ok (hi, med, low, cap)) with
    | Ok r => r
    | Raise _ => (0, 0, 0, 0)%Q
    end in
  (* fallback cap si viene 0 *)
  let cap := if Qle_bool cap (1 # 10) then CAP_FALLBACK_MBPS else cap in
  let total := (hi + med + low)%Q in
  let util := if Qeq_bool cap 0 then 0%Q else (total / cap * 100)%Q in
  {| hi_mbps := hi; med_mbps := med; low_mbps := low; cap_mbps := cap;
     total_mbps := total; util_pct := util;
     state := _net_state util;
     qos_src := SnapshotDb.rget net "qos_src";
     qos_panel := _qos_panel util |}.

(** One element of the list [_tomas_detail_from_ttl] returns, without
    the formatted local time. *)
Record toma_detail := {
  toma : string;
  online : bool;
  age_sec : Z;
  ts : Z;
  amperaje : value;
  potencia_w : value;
  estado : value;
  rssi : value;
}.

(** [_tomas_detail_from_ttl]. [clock] is [time.time()], read when the
    snapshot carries the time 0. *)
Definition _tomas_detail_from_ttl (snap : SnapshotDb.snapshot) (clock : Q)
  : list toma_detail :=
  let now :=
    if (SnapshotDb.now_ts snap =? 0)%Z then int_of_float clock
    else SnapshotDb.now_ts snap in
  let ttl :=
    if (SnapshotDb.ttl_sec snap =? 0)%Z then TTL_SEC else SnapshotDb.ttl_sec snap in
  let mp : gmap string SnapshotDb.liveness :=
    default ∅ (SnapshotDb.derived snap !! "tomas_by_ttl") in
  let keys : gset string :=
    list_to_set _EXPECTED_TOMAS
    ∪ list_to_set (lower <$> List.filter (λ k, startswith (lower k) "toma")
                               (map_to_list mp).*1) in
  (λ k,
     let r := mp !! k in
     let ts := match r with Some e => SnapshotDb.l_ts e | None => 0%Z end in
     let age :=
       match r with
       | Some e =>
           if (SnapshotDb.age_sec e =? 0)%Z
           then (if (ts =? 0)%Z then 10 ^ 9 else now - ts)%Z
           else SnapshotDb.age_sec e
       | None => (10 ^ 9)%Z
       end in
     {| toma := k;
        online := negb (ts =? 0)%Z && (age <=? ttl)%Z;
        age_sec := age;
        ts := ts;
        amperaje := match r with Some e => SnapshotDb.amperaje e | None => VNull end;
        potencia_w := match r with Some e => SnapshotDb.potencia_w e | None => VNull end;
        estado := match r with Some e => SnapshotDb.estado e | None => VNull end;
        rssi := match r with Some e => SnapshotDb.rssi e | None => VNull end |})
  <$> sorted (elements keys).
End Config.

End DashboardServer.

(** ** Concrete stores, messages and samples used in the examples *)

Module Examples.
Import Sqlite.
Local Open Scope Q_scope.

(** Two readings of [/proc/stat] one second apart in which the
    [iowait] field went down while the others went up. *)
Definition stat_before : list Z := [50; 0; 0; 20; 30; 0; 0]%Z.
Definition stat_after : list Z := [80; 0; 0; 25; 5; 0; 0]%Z.

Definition loop0 : Estadisticas.loop_state :=
  {| Estadisticas.t0_total := 100; Estadisticas.t0_idle := 50;
     Estadisticas.rx0 := 0; Estadisticas.tx0 := 0;
     Estadisticas.last_hi := None; Estadisticas.last_med := None;
     Estadisticas.last_low := None |}.

(** A quiet second with no shaper configured. *)
Definition sample_idle : Estadisticas.sample :=
  {| Estadisticas.s_cpu := (200%Z, 100%Z); Estadisticas.s_net := (0, 0);
     Estadisticas.s_tc := ∅ |}.

Definition sample_iowait : Estadisticas.sample :=
  {| Estadisticas.s_cpu := (110%Z, 30%Z); Estadisticas.s_net := (0, 0);
     Estadisticas.s_tc := ∅ |}.

(** The window of scenario B: 125000 alert bytes and 250000 telemetry
    bytes since the last iteration. *)
Definition window_b : Estadisticas.latest :=
  {| Estadisticas.telemetry := None; Estadisticas.alert := None;
     Estadisticas.status := None; Estadisticas.ts := None;
     Estadisticas.bytes_telem := 250000; Estadisticas.bytes_alert := 125000;
     Estadisticas.bytes_status := 0 |}.

Definition status_online : Mqtt.message :=
  {| Mqtt.topic := "safegrid/toma1/status"; Mqtt.payload := "online";
     Mqtt.json := None |}.

(** An older file: the outlet table as [snapshot_db.py] declares it,
    holding one sample. *)
Definition old_sample : list value :=
  [VInt 1700000000; VText "toma1"; VInt 7; VInt 1; VReal (3 # 2);
   VReal 180; VText "OK"; VInt (-61)].

Definition old_store : db :=
  {| tables := {[ "toma_samples" :=
                   {| cols := SnapshotDb.toma_samples_cols;
                      rows := [old_sample] |} ]};
     indexes := ∅;
     journal := Wal |}.

(** A stand-in for [str] on objects that are not strings; the examples
    only convert strings. *)
Definition repr_opaque : pyval → string := λ _, "<object>"%string.

(** The writer on a new file. *)
Definition writer0 : IngestTomas.Writer :=
match IngestTomas.Writer_init None with
| Ok w => w
| Raise _ => {| IngestTomas.con := empty_db; IngestTomas.last_print := 0 |}
end.

(** Telemetry of outlet 1 whose current is the text [abc]. *)
Definition telem_abc : Mqtt.message :=
{| Mqtt.topic := "safegrid/toma1/telemetry";
   Mqtt.payload := "";
   Mqtt.json := Some (PDict {[ "amperaje" := PStr "abc"; "seq" := PInt 4 ]}) |}.

(** A telemetry message published under the identifier of the display
    node, claiming to be outlet 1. *)
Definition telem_display : Mqtt.message :=
{| Mqtt.topic := "safegrid/display/telemetry";
   Mqtt.payload := "";
   Mqtt.json := Some (PDict {[ "toma" := PStr "toma1" ]}) |}.

(** A store whose only sample of outlet 1 carries the timestamp 0. *)
Definition epoch_store : db :=
{| tables := {[ "toma_samples" :=
                 {| cols := SnapshotDb.toma_samples_cols;
                    rows := [[VInt 0; VText "toma1"; VInt 1; VInt 1;
                              VReal (3 # 2); VReal 180; VText "OK"; VInt (-61)]] |} ]};
   indexes := ∅;
   journal := Wal |}.

(** Telemetry of outlet 1 carrying the empty object, two bytes long. *)
Definition telem_empty : Mqtt.message :=
{| Mqtt.topic := "safegrid/toma1/telemetry";
   Mqtt.payload := "{}";
   Mqtt.json := Some (PDict ∅) |}.

(** The writing sampler right after its schema setup on a new file, and
    a first reading of the host. *)
Definition sampler0 : StatsWriterStore.state :=
{| StatsWriterStore.con := (StatsWriterStore.ensure_schema empty_db).2;
   StatsWriterStore._prev_cpu := None;
   StatsWriterStore.net := {| StatsWriter._rx := ∅; StatsWriter._last_t := None |} |}.

Definition reading0 : StatsWriterStore.host :=
{| StatsWriterStore.h_time := 3400000001 # 2;
   StatsWriterStore.h_stat := Some stat_before;
   StatsWriterStore.h_mem := (1, 4);
   StatsWriterStore.h_temp := 45;
   StatsWriterStore.h_uptime := 3600;
   StatsWriterStore.h_net_time := 3400000002 # 2;
   StatsWriterStore.h_tc := None |}.


Definition shaper_output_unnamed : string :=
  " Sent 1000 bytes 10 pkt (dropped 0, overlimits 0)" +:+ String "010" "".


Definition readings_unnamed : StatsWriterStore.readings :=
{| StatsWriterStore.r_time := 3400000001 # 2;
   StatsWriterStore.r_stat := Some stat_before;
   StatsWriterStore.r_mem := (1, 4);
   StatsWriterStore.r_temp_sys := Some ("45000" +:+ String "010" "");
   StatsWriterStore.r_temp_cmd := "";
   StatsWriterStore.r_uptime := 3600;
   StatsWriterStore.r_net_time := 3400000002 # 2;
   StatsWriterStore.r_tc_out := shaper_output_unnamed |}.

(** A store with three alerts, two of them in the same second. *)
Definition alert_store : db :=
{| tables := {[ "alert_samples" :=
                 {| cols := SnapshotDb.alert_samples_cols;
                    rows := [[VInt 1700000000; VText "toma1"; VInt 1; VText "overload";
                              VReal 2000; VInt (-60); VNull];
                             [VInt 1700000005; VText "toma2"; VInt 1; VText "overload";
                              VReal 2100; VInt (-58); VNull];
                             [VInt 1700000000; VText "toma2"; VInt 2; VText "overload";
                              VReal 2200; VInt (-58); VNull]] |} ]};
   indexes := ∅;
   journal := Wal |}.

(** A store with three network samples written out of order. *)
Definition net_store : db :=
{| tables := {[ "net_samples" :=
                 {| cols := SnapshotDb.net_samples_cols;
                    rows := [[VInt 1700000002; VReal 1; VReal 2; VReal 3; VReal 20; VText "mqtt"];
                             [VInt 1700000001; VReal 0; VReal 0; VReal 0; VReal 20; VText "mqtt"];
                             [VInt 1700000003; VReal 4; VReal 5; VReal 6; VReal 20; VText "tc"]] |} ]};
   indexes := ∅;
   journal := Wal |}.

(** A telemetry payload that is valid JSON but not an object. *)
Definition telem_number : Mqtt.message :=
{| Mqtt.topic := "safegrid/toma1/telemetry";
   Mqtt.payload := "5";
   Mqtt.json := Some (PInt 5) |}.

End Examples.

(** ** Notions used to state the properties *)

Module Spec.
Import Sqlite.

(** No name is both a table and an index (SQLite keeps one name space
    for both). *)
Definition wf_db (d : db) : Prop :=
  ∀ n, is_Some (tables d !! n) → indexes d !! n = None.

(** The store with one more table or index, unless the name is taken. *)
Definition add_table (n : string) (cs : list (string * string)) (d : db) : db :=
  {| tables := tables d ∪ {[ n := {| cols := cs; rows := [] |} ]};
     indexes := indexes d; journal := journal d |}.

Definition add_index (i t : string) (cs : list string) (d : db) : db :=
  {| tables := tables d;
     indexes := indexes d ∪ {[ i := {| on_table := t; on_cols := cs |} ]};
     journal := journal d |}.

Definition set_table (n : string) (t : table) (d : db) : db :=
  {| tables := <[n := t]> (tables d); indexes := indexes d; journal := journal d |}.

Definition fresh (cs : list (string * string)) : table := {| cols := cs; rows := [] |}.

(** The tables and indexes of [snapshot_db.py]. *)
Definition schema_tables : gmap string table :=
  {[ "toma_samples" := fresh SnapshotDb.toma_samples_cols ]} ∪
  ({[ "alert_samples" := fresh SnapshotDb.alert_samples_cols ]} ∪
  ({[ "pi_samples" := fresh SnapshotDb.pi_samples_cols ]} ∪
   {[ "net_samples" := fresh SnapshotDb.net_samples_cols ]})).

Definition schema_indexes : gmap string index :=
  {[ "idx_toma_ts" := {| on_table := "toma_samples"; on_cols := ["toma"; "ts"] |} ]} ∪
  ({[ "idx_alert_ts" := {| on_table := "alert_samples"; on_cols := ["ts"] |} ]} ∪
  ({[ "idx_alert_toma_ts" := {| on_table := "alert_samples"; on_cols := ["toma"; "ts"] |} ]} ∪
  ({[ "idx_pi_ts" := {| on_table := "pi_samples"; on_cols := ["ts"] |} ]} ∪
   {[ "idx_net_ts" := {| on_table := "net_samples"; on_cols := ["ts"] |} ]}))).

Definition table_names : list string :=
  ["toma_samples"; "alert_samples"; "pi_samples"; "net_samples"].
Definition index_names : list string :=
  ["idx_toma_ts"; "idx_alert_ts"; "idx_alert_toma_ts"; "idx_pi_ts"; "idx_net_ts"].

(** The store with whatever of that schema it lacked. *)
Definition provisioned_schema (d : db) : db :=
  {| tables := tables d ∪ schema_tables;
     indexes := indexes d ∪ schema_indexes;
     journal := journal d |}.

(** The four tables and the five indexes exist. *)
Definition snapshot_provisioned (d : db) : Prop :=
  Forall (λ n, is_Some (tables d !! n)) table_names
  ∧ Forall (λ i, is_Some (indexes d !! i)) index_names.

(** [d'] keeps everything [d] holds: every table is still there with
    the same records and with its columns as a prefix of the new column
    list, every index is still there unchanged. *)
Definition extends (d d' : db) : Prop :=
  (∀ n t, tables d !! n = Some t →
     ∃ t', tables d' !! n = Some t' ∧ rows t' = rows t
           ∧ cols t `prefix_of` cols t')
  ∧ indexes d ⊆ indexes d'.

(** No table declares a column name twice. *)
Definition nodup_cols (d : db) : Prop :=
  ∀ n t, tables d !! n = Some t → NoDup (col_names t).

(** A statement that, whatever its outcome, only adds to the store. *)
Definition additive {A} (m : sql A) : Prop :=
  ∀ d, extends d (m d).2
       ∧ (nodup_cols d → nodup_cols (m d).2)
       ∧ (wf_db d → wf_db (m d).2).

(** The table after the [ALTER TABLE] loop of [ingest_tomas.py]: the
    columns of [need] that it lacked are appended, the records are the
    same. *)
Definition migrate (need : list (string * string)) (t : table) : table :=
  {| cols := cols t ++ List.filter (λ c, bool_decide (c.1 ∉ col_names t)) need;
     rows := rows t |}.

(** Both outlet tables exist with every needed column, and both
    indexes of [ingest_tomas.py] exist. *)
Definition ingest_provisioned (d : db) : Prop :=
  (∃ tt, tables d !! "toma_samples" = Some tt
         ∧ Forall (λ c, c ∈ col_names tt) IngestTomas.need_toma.*1)
  ∧ (∃ ta, tables d !! "alert_samples" = Some ta
         ∧ Forall (λ c, c ∈ col_names ta) IngestTomas.need_alert.*1)
  ∧ is_Some (indexes d !! "idx_toma_ts")
  ∧ is_Some (indexes d !! "idx_alert_ts").

(** What a schema setup needs of the file it finds: no table is named
    like the index, and a table that exists has the columns of an index
    still to be created. *)
Definition indexed (d : db) (i t : string) (cs : list string) : Prop :=
  tables d !! i = None
  ∧ (indexes d !! i = None →
     ∀ tb, tables d !! t = Some tb → Forall (λ c, c ∈ col_names tb) cs).

Definition snapshot_compatible (d : db) : Prop :=
  Forall (λ n, tables d !! n = None → indexes d !! n = None) table_names
  ∧ indexed d "idx_toma_ts" "toma_samples" ["toma"; "ts"]
  ∧ indexed d "idx_alert_ts" "alert_samples" ["ts"]
  ∧ indexed d "idx_alert_toma_ts" "alert_samples" ["toma"; "ts"]
  ∧ indexed d "idx_pi_ts" "pi_samples" ["ts"]
  ∧ indexed d "idx_net_ts" "net_samples" ["ts"].

Definition ingest_compatible (d : db) : Prop :=
  (tables d !! "toma_samples" = None → indexes d !! "toma_samples" = None)
  ∧ (tables d !! "alert_samples" = None → indexes d !! "alert_samples" = None)
  ∧ indexed d "idx_toma_ts" "toma_samples" ["toma"; "ts"]
  ∧ indexed d "idx_alert_ts" "alert_samples" ["toma"; "ts"].

(** The identifier stored in a record of an outlet table. *)
Definition stored_id (t : table) (r : list value) : value :=
match col_index (col_names t) "toma" with
| Some i => field r i
| None => VNull
end.

Definition outlet_tables : list string := ["toma_samples"; "alert_samples"].

(** No record of the two outlet tables carries a reserved identifier. *)
Definition no_reserved_rows (d : db) : Prop :=
∀ tbl t r s,
  tbl ∈ outlet_tables → tables d !! tbl = Some t → r ∈ rows t →
  stored_id t r = VText s → s ∉ IngestTomas.RESERVED_IDS.

(** The store with one more record in a table. *)
Definition append_row (tbl : string) (r : list value) (d : db) : db :=
match tables d !! tbl with
| Some t => set_table tbl {| cols := cols t; rows := rows t ++ [r] |} d
| None => d
end.

(** The record [INSERT] builds for a table from the named values. *)
Definition record_of (t : table) (columns : list string) (vals : list value)
  : list value :=
(λ c, default VNull ((list_to_map (zip columns vals) : gmap string value) !! c))
  <$> col_names t.

(** What a callback of the ingestor can do to the store: nothing, or
    append one record that carries the normalised identifier, which is
    not reserved. [repr] is [str] on objects that are not strings. *)
Definition stores (repr : pyval → string) (kind : string)
    (w w' : IngestTomas.Writer) (msg : Mqtt.message) : Prop :=
w' = w
∨ (∃ id doc t r,
    IngestTomas.topic_to_id (Mqtt.topic msg) = Some id
    ∧ Mqtt.json msg = Some (PDict doc)
    ∧ (IngestTomas.toma_norm_of repr doc id ∉ IngestTomas.RESERVED_IDS)
    ∧ tables (IngestTomas.con w) !! kind = Some t
    ∧ IngestTomas.con w' = append_row kind r (IngestTomas.con w)
    ∧ (stored_id t r = VText (IngestTomas.toma_norm_of repr doc id)
       ∨ stored_id t r = VNull)).

(** The value is the text [s]. *)
Definition is_text (s : string) (v : value) : bool :=
match v with
| VText s' => String.eqb s' s
| _ => false
end.

(** The stored samples of the outlet [tn]: the records of the table whose
    column [toma] (at position [i]) is the text [tn]. *)
Definition samples_of (t : table) (i : nat) (tn : string) : list (list value) :=
List.filter (λ r, is_text tn (field r i)) (rows t).

(** The outputs of the iterations of a run of [estadisticas.py], in
    order, up to the first iteration that raises. *)
Fixpoint outputs (c : Estadisticas.loop_state * Estadisticas.latest)
    (es : list Estadisticas.event) : list Estadisticas.tick_out :=
match es with
| [] => []
| Estadisticas.Deliver now msg :: es' =>
    outputs (c.1, Estadisticas._on_message c.2 now msg) es'
| Estadisticas.Tick s :: es' =>
    match Estadisticas.tick c.1 c.2 s with
    | (Ok o, st', l') => o :: outputs (st', l') es'
    | (Raise _, _, _) => []
    end
end.

(** Payload bytes of the messages of a run that arrive on a topic. *)
Fixpoint delivered (tp : string) (es : list Estadisticas.event) : Z :=
match es with
| [] => 0
| Estadisticas.Deliver _ msg :: es' =>
    ((if String.eqb (Mqtt.topic msg) tp
      then Z.of_nat (String.length (Mqtt.payload msg)) else 0)
     + delivered tp es')%Z
| Estadisticas.Tick _ :: es' => delivered tp es'
end.

(** Sum of a list of rates. *)
Definition Qsum (l : list Q) : Q := foldr Qplus 0%Q l.

(** Bytes that make one megabit per second over the interval. *)
Definition bytes_per_mbps : Q := 125000%Q.

(** [d'] differs from [d] at most by records appended to the tables
    named in [grow]. *)
Definition appended (grow : list string) (d d' : db) : Prop :=
indexes d' = indexes d ∧ journal d' = journal d
∧ (∀ n, n ∉ grow → tables d' !! n = tables d !! n)
∧ (∀ n, tables d !! n = None → tables d' !! n = None)
∧ (∀ n t, tables d !! n = Some t →
     ∃ t', tables d' !! n = Some t' ∧ cols t' = cols t
           ∧ rows t `prefix_of` rows t').

(** An identifier in the form the ingestor stores: no upper-case ASCII
    letter, no white space at either end. *)
Definition normalised (s : string) : Prop := lower s = s ∧ strip s = s.

(** The character does not occur in the string. *)
Definition free_of (c : ascii) (s : string) : Prop :=
∀ x, x ∈ list_ascii_of_string s → x ≠ c.

(** Nothing to strip on the left of the string. *)
Definition no_lead (s : string) : Prop :=
match s with
| EmptyString => True
| String c _ => is_space c = false
end.

(** The latest object of a topic can be summarised: there is none, or it
    is a dictionary, or it is falsy and [or {}] replaces it. *)
Definition summarisable (v : option pyval) : bool :=
match v with
| None => true
| Some d => Estadisticas.is_dict d || negb (truthy d)
end.

(** The columns a snapshot reads of each table. *)
Definition read_columns (n : string) : list string :=
if String.eqb n "toma_samples"
then ["ts"; "toma"; "amperaje"; "potencia_w"; "estado"; "rssi"]
else ["ts"].

(** A store the snapshot can read: each of the four tables, if it
    exists, has the columns that are read; in the outlet table every
    identifier is NULL or a text and every timestamp is NULL or an
    integer. *)
Definition readable (d : db) : Prop :=
(∀ n t, n ∈ table_names → tables d !! n = Some t →
   Forall (λ c, c ∈ col_names t) (read_columns n))
∧ (∀ t i j r,
     tables d !! "toma_samples" = Some t →
     col_index (col_names t) "toma" = Some i →
     col_index (col_names t) "ts" = Some j →
     r ∈ rows t →
     (field r i = VNull ∨ ∃ s, field r i = VText s)
     ∧ (field r j = VNull ∨ ∃ z, field r j = VInt z)).

(** The temperature can be read: the thermal zone file holds a number
    or, when the file cannot be read, what [vcgencmd] printed after
    [temp=] (if anything) is a number. *)
Definition temp_readable (sysfs : option string) (vcgencmd : string) : Prop :=
match sysfs with
| Some text => is_Some (float_of_str (strip text))
| None =>
    ∀ g, re_search StatsWriter.match_temp vcgencmd = Some g →
         is_Some (float_of_str g)
end.




End Spec.
Import Sqlite Spec.

(** * Properties *)

Ltac str_ne := let H := fresh in intros H; discriminate H.

Ltac forall_intro :=
  repeat match goal with
  | |- Forall _ (_ :: _) => apply List.Forall_cons
  | |- Forall _ [] => apply List.Forall_nil
  end.

(** ** Arithmetic of the Python builtins *)

Section Builtins.
Local Open Scope Q_scope.

Lemma py_max_Qmax a b : py_max a b == Qmax a b.
Proof.
  unfold py_max. destruct (Qlt_le_dec a b) as [H|H].
  - symmetry. apply Q.max_r. apply Qlt_le_weak, H.
  - symmetry. apply Q.max_l, H.
Qed.

Lemma py_min_Qmin a b : py_min a b == Qmin a b.
Proof.
  unfold py_min. destruct (Qlt_le_dec b a) as [H|H].
  - symmetry. apply Q.min_r. apply Qlt_le_weak, H.
  - symmetry. apply Q.min_l, H.
Qed.

Lemma py_max_nonneg_r a : 0 <= py_max a 0.
Proof.
  unfold py_max. destruct (Qlt_le_dec a 0) as [H|H]; [apply Qle_refl | exact H].
Qed.

Lemma py_max_lower a b : a <= py_max a b.
Proof.
  unfold py_max. destruct (Qlt_le_dec a b) as [H|H];
    [apply Qlt_le_weak, H | apply Qle_refl].
Qed.

Lemma clamp_bounds lo hi x : lo <= hi → lo <= py_max lo (py_min hi x) <= hi.
Proof.
  intros Hlh. split; [apply py_max_lower|].
  unfold py_max, py_min.
  destruct (Qlt_le_dec x hi) as [Hx|Hx];
    destruct (Qlt_le_dec lo _) as [Hl|Hl]; auto using Qle_refl, Qlt_le_weak.
Qed.

(** A byte count over a positive interval is a non-negative rate. *)
Lemma mbps_nonneg (n : Z) (dt : Q) :
  (0 <= n)%Z → 0 <= dt → 0 <= inject_Z n * 8 / dt / 1000000.
Proof.
  intros Hn Hdt. unfold Qdiv.
  apply Qmult_le_0_compat; [|discriminate].
  apply Qmult_le_0_compat.
  - apply Qmult_le_0_compat; [|discriminate].
    change 0 with (inject_Z 0). rewrite <- Zle_Qle. exact Hn.
  - apply Qinv_le_0_compat, Hdt.
Qed.
End Builtins.

(** ** The samplers *)

Section Sampler.
Import Estadisticas.
Local Open Scope Q_scope.

Lemma calc_nonneg b dt rx cid :
  0 <= dt → 0 <= (StatsWriter.calc b dt rx cid).1.
Proof.
  intros Hdt. unfold StatsWriter.calc. cbn [fst].
  apply mbps_nonneg; [lia | exact Hdt].
Qed.

Lemma net_mbps_nonneg H M L st now tc :
  let r := (StatsWriter.net_mbps H M L st now tc).1 in
  0 <= r.1.1 ∧ 0 <= r.1.2 ∧ 0 <= r.2.
Proof.
  unfold StatsWriter.net_mbps.
  destruct tc as [b|]; [|cbn; repeat split; apply Qle_refl].
  destruct (StatsWriter._last_t st) as [last|]; [|cbn; repeat split; apply Qle_refl].
  assert (Hdt : 0 <= py_max (2 # 10) (now - last)).
  { eapply Qle_trans; [|apply py_max_lower]. discriminate. }
  cbn. repeat split; apply mbps_nonneg; try lia; exact Hdt.
Qed.

Lemma rate_mbps_nonneg c p r : rate_mbps c p = Some r → 0 <= r.
Proof.
  unfold rate_mbps. destruct c as [c|], p as [p|]; try discriminate.
  destruct (Z.ltb_spec (c - p) 0) as [Hd|Hd]; [discriminate|].
  intros [= <-]. unfold Qdiv.
  apply Qmult_le_0_compat; [|discriminate].
  apply Qmult_le_0_compat; [|discriminate].
  change 0 with (inject_Z 0). rewrite <- Zle_Qle. exact Hd.
Qed.

(** C2 (as amended). When a counter reading is below the previous one,
    [calc] of [stats_writer.py] yields the rate 0, while [rate_mbps] of
    [estadisticas.py] yields no rate at all ([None]); neither program
    ever yields a negative class rate. *)
Theorem rate_on_counter_reset (cur prev : Z) (Hreset : (cur < prev)%Z) :
  (∀ b dt rx cid,
      default 0%Z (b !! cid) = cur → default cur (rx !! cid) = prev →
      (StatsWriter.calc b dt rx cid).1 == 0)
  ∧ rate_mbps (Some cur) (Some prev) = None
  ∧ (∀ H M L st now tc,
      let r := (StatsWriter.net_mbps H M L st now tc).1 in
      0 <= r.1.1 ∧ 0 <= r.1.2 ∧ 0 <= r.2)
  ∧ (∀ c p r, rate_mbps c p = Some r → 0 <= r).
Proof.
  split; [|split; [|split]].
  - intros b dt rx cid Hcur Hprev. unfold StatsWriter.calc. cbn [fst].
    rewrite Hcur, Hprev.
    replace (Z.max 0 (cur - prev)) with 0%Z by lia.
    unfold Qdiv. ring.
  - unfold rate_mbps. destruct (Z.ltb_spec (cur - prev) 0); [reflexivity | lia].
  - apply net_mbps_nonneg.
  - apply rate_mbps_nonneg.
Qed.

Lemma rate_on_counter_reset_witness :
  (5 < 10)%Z ∧ rate_mbps (Some 5%Z) (Some 10%Z) = None.
Proof.
  split; [lia|]. apply (rate_on_counter_reset 5 10). lia.
Defined.

(** C2 fails as stated: for the readings 10 then 5 of a shaper class,
    [rate_mbps] of [estadisticas.py] does not return 0.0 but [None]. *)
Lemma rate_mbps_reset_not_zero :
  (5 < 10)%Z ∧ rate_mbps (Some 5%Z) (Some 10%Z) = None
  ∧ rate_mbps (Some 5%Z) (Some 10%Z) ≠ Some 0.
Proof. split; [lia|]. split; [reflexivity | discriminate]. Qed.

Lemma tick_ok st l s o st' l' :
  tick st l s = (Ok o, st', l') →
  let '(hi_tc, med_tc, low_tc, _) := shaper_step st (s_tc s) in
  (hi_mbps o, med_mbps o, low_mbps o, qos_src o) =
    select_source hi_tc med_tc low_tc (total_mbps o)
      (inject_Z (bytes_telem l) * 8 / (INTERVAL * 1000000))
      (inject_Z (bytes_alert l) * 8 / (INTERVAL * 1000000)).
Proof.
  unfold tick. destruct (s_cpu s) as [t1 i1], (s_net s) as [rx1 tx1].
  destruct (shaper_step st (s_tc s)) as [[[hi_tc med_tc] low_tc] [[lh lm] ll]].
  cbn [read_and_reset].
  destruct (select_source _ _ _ _ _ _) as [[[hi med] low] src] eqn:Hsel.
  destruct (is_dict _ && is_dict _); [|discriminate].
  intros [= <- _ _]. cbn. rewrite <- Hsel. reflexivity.
Qed.

(** What an iteration that completes computed, and what it left. *)
Lemma tick_inv st l s o st' l' :
  tick st l s = (Ok o, st', l') →
  cpu_pct o =
    (if ((s_cpu s).1 - t0_total st <=? 0)%Z then 0
     else 100 * (1 - inject_Z ((s_cpu s).2 - t0_idle st)
                     / inject_Z ((s_cpu s).1 - t0_total st)))
  ∧ total_mbps o =
      py_max (((s_net s).1 - rx0 st) * 8 / (INTERVAL * 1000000)
              + ((s_net s).2 - tx0 st) * 8 / (INTERVAL * 1000000)) 0
  ∧ telem_mbps o = inject_Z (bytes_telem l) * 8 / (INTERVAL * 1000000)
  ∧ alert_mbps o = inject_Z (bytes_alert l) * 8 / (INTERVAL * 1000000)
  ∧ l' = (read_and_reset l).2
  ∧ (t0_total st', t0_idle st') = s_cpu s
  ∧ (rx0 st', tx0 st') = s_net s
  ∧ (last_hi st', last_med st', last_low st') = (shaper_step st (s_tc s)).2.
Proof.
  unfold tick. destruct (s_cpu s) as [t1 i1], (s_net s) as [rx1 tx1].
  destruct (shaper_step st (s_tc s)) as [[[hi_tc med_tc] low_tc] [[lh lm] ll]].
  cbn [read_and_reset fst snd].
  destruct (select_source _ _ _ _ _ _) as [[[hi med] low] src].
  destruct (is_dict _ && is_dict _); [|discriminate].
  intros [= <- <- <-]. cbn. repeat split; reflexivity.
Qed.

Lemma tick_outcome st l s :
  (∃ o, (tick st l s).1.1 = Ok o)
  ↔ summarisable (telemetry l) = true ∧ summarisable (alert l) = true.
Proof.
  unfold tick. destruct (s_cpu s) as [t1 i1], (s_net s) as [rx1 tx1].
  destruct (shaper_step st (s_tc s)) as [[[hi_tc med_tc] low_tc] [[lh lm] ll]].
  cbn [read_and_reset].
  destruct (select_source _ _ _ _ _ _) as [[[hi med] low] src].
  cbn [fst].
  assert (Hd : ∀ v, is_dict (py_or (default PNone v) (PDict ∅)) = summarisable v).
  { intros [d|]; [|done]. change (default PNone (Some d)) with d.
    cbn [summarisable]. unfold py_or.
    destruct (truthy d) eqn:E; cbn [negb is_dict].
    - by rewrite orb_false_r.
    - by rewrite orb_true_r. }
  rewrite !Hd.
  destruct (summarisable (telemetry l)), (summarisable (alert l)); cbn [andb].
  - split; [auto|eauto].
  - split; [intros [o H]; discriminate H | intros [_ H]; discriminate H].
  - split; [intros [o H]; discriminate H | intros [H _]; discriminate H].
  - split; [intros [o H]; discriminate H | intros [H _]; discriminate H].
Qed.

(** C3. In every iteration that completes, the total is measured from
    the two interface counters: [max] of 0 and the received plus the
    sent bytes since the last reading, times 8 over 1e6; the shaper
    rate of a class is [None] when the shaper printed no counters and
    otherwise the rate from its counter and the one kept, which when
    it is not [None] is the advance of the counter, not negative,
    times 8 over 1e6. When some
    shaper class rate is not [None] the source tag is the shaper's, a
    high or medium class without a rate gets 0.0 and a low class
    without a rate gets [max(total - high - medium, 0)]; when all three
    are [None] the source tag is the message-volume one, the alert
    bytes of the window (times 8 over 1e6) are the high class, the
    telemetry bytes the medium class and the low class is
    [max(total - high - medium, 0)]. With 125000 alert bytes and 250000
    telemetry bytes this gives 1.0 and 2.0. The iteration empties the
    window and keeps the counters it read for the next one; it
    completes only if the latest telemetry and alert objects are such
    that the summary can read them. *)
Theorem qos_arbitration st l s o st' l' hi_tc med_tc low_tc lasts
  (Htick : tick st l s = (Ok o, st', l'))
  (Hshaper : shaper_step st (s_tc s) = (hi_tc, med_tc, low_tc, lasts)) :
  total_mbps o
  == Qmax (((s_net s).1 - rx0 st) * 8 / 1000000
           + ((s_net s).2 - tx0 st) * 8 / 1000000) 0
  ∧ ((hi_tc ≠ None ∨ med_tc ≠ None ∨ low_tc ≠ None) →
     qos_src o = "tc"%string
     ∧ hi_mbps o = default 0 hi_tc
     ∧ med_mbps o = default 0 med_tc
     ∧ (∀ r, low_tc = Some r → low_mbps o = r)
     ∧ (low_tc = None →
        low_mbps o == Qmax (total_mbps o - hi_mbps o - med_mbps o) 0))
  ∧ (hi_tc = None ∧ med_tc = None ∧ low_tc = None →
     qos_src o = "mqtt"%string
     ∧ hi_mbps o == inject_Z (bytes_alert l) * 8 / 1000000
     ∧ med_mbps o == inject_Z (bytes_telem l) * 8 / 1000000
     ∧ low_mbps o == Qmax (total_mbps o - hi_mbps o - med_mbps o) 0
     ∧ (bytes_alert l = 125000%Z → bytes_telem l = 250000%Z →
        hi_mbps o == 1 ∧ med_mbps o == 2))
  ∧ bytes_alert l' = 0%Z ∧ bytes_telem l' = 0%Z
  ∧ (t0_total st', t0_idle st') = s_cpu s
  ∧ (rx0 st', tx0 st') = s_net s
  ∧ (last_hi st', last_med st', last_low st') = lasts
  ∧ summarisable (telemetry l) = true ∧ summarisable (alert l) = true
  ∧ (s_tc s = ∅ → hi_tc = None ∧ med_tc = None ∧ low_tc = None)
  ∧ (s_tc s ≠ ∅ →
     hi_tc = rate_mbps (s_tc s !! CLASS_HIGH) (last_hi st)
     ∧ med_tc = rate_mbps (s_tc s !! CLASS_MED) (last_med st)
     ∧ low_tc = rate_mbps (s_tc s !! CLASS_LOW) (last_low st))
  ∧ (∀ cur prev r, rate_mbps cur prev = Some r →
       ∃ c p, cur = Some c ∧ prev = Some p ∧ (p ≤ c)%Z
              ∧ r == inject_Z (c - p) * 8 / 1000000).
Proof.
  assert (Hempty : s_tc s = ∅ → hi_tc = None ∧ med_tc = None ∧ low_tc = None).
  { intros E. revert Hshaper. unfold shaper_step.
    rewrite bool_decide_eq_false_2 by (by intros H; apply H).
    by intros [= <- <- <- _]. }
  assert (Hcounters : s_tc s ≠ ∅ →
            hi_tc = rate_mbps (s_tc s !! CLASS_HIGH) (last_hi st)
            ∧ med_tc = rate_mbps (s_tc s !! CLASS_MED) (last_med st)
            ∧ low_tc = rate_mbps (s_tc s !! CLASS_LOW) (last_low st)).
  { intros E. revert Hshaper. unfold shaper_step.
    rewrite bool_decide_eq_true_2 by done. by intros [= <- <- <- _]. }
  assert (Hrate : ∀ cur prev r, rate_mbps cur prev = Some r →
            ∃ c p, cur = Some c ∧ prev = Some p ∧ (p ≤ c)%Z
                   ∧ r == inject_Z (c - p) * 8 / 1000000).
  { intros [c|] [p|] r; try discriminate. unfold rate_mbps.
    destruct (Z.ltb_spec (c - p) 0); [discriminate|]. intros [= <-].
    exists c, p. split; [reflexivity|]. split; [reflexivity|]. split; [lia|].
    unfold INTERVAL, Qdiv. rewrite !Qmult_1_l. reflexivity. }
  pose proof (tick_ok _ _ _ _ _ _ Htick) as Hsel. rewrite Hshaper in Hsel.
  destruct (tick_inv _ _ _ _ _ _ Htick)
    as (_ & Htot & _ & _ & Hl' & Hcpu & Hnet & Hlast).
  rewrite Hshaper in Hlast. cbn [snd] in Hlast.
  assert (Hsum : summarisable (telemetry l) = true ∧ summarisable (alert l) = true).
  { apply (proj1 (tick_outcome st l s)). exists o. by rewrite Htick. }
  unfold select_source in Hsel.
  split; [|split; [|split; [|split; [|split; [|split; [|split; [|split]]]]]]].
  9:{ split; [exact (proj1 Hsum)|]. split; [exact (proj2 Hsum)|].
      split; [exact Hempty|]. split; [exact Hcounters | exact Hrate]. }
  - rewrite Htot, py_max_Qmax. unfold INTERVAL, Qdiv. rewrite !Qmult_1_l.
    reflexivity.
  - intros Hany.
    assert (Huse : bool_decide (hi_tc ≠ None) || bool_decide (med_tc ≠ None)
                   || bool_decide (low_tc ≠ None) = true).
    { destruct Hany as [H|[H|H]];
        rewrite (bool_decide_eq_true_2 _ H); rewrite ?orb_true_r; reflexivity. }
    rewrite Huse in Hsel. injection Hsel as Hh Hm Hl Hs.
    rewrite Hh, Hm, Hs. repeat split.
    + intros r ->. exact Hl.
    + intros ->. rewrite Hl. apply py_max_Qmax.
  - intros (-> & -> & ->). cbn in Hsel. injection Hsel as Hh Hm Hl Hs.
    assert (Ha : hi_mbps o == inject_Z (bytes_alert l) * 8 / 1000000).
    { rewrite Hh. unfold INTERVAL. unfold Qdiv. rewrite Qmult_1_l. reflexivity. }
    assert (Ht : med_mbps o == inject_Z (bytes_telem l) * 8 / 1000000).
    { rewrite Hm. unfold INTERVAL. unfold Qdiv. rewrite Qmult_1_l. reflexivity. }
    repeat split; try assumption.
    + rewrite Hl, Hh, Hm. apply py_max_Qmax.
    + rewrite Ha, H. reflexivity.
    + rewrite Ht, H0. reflexivity.
  - rewrite Hl'. reflexivity.
  - rewrite Hl'. reflexivity.
  - exact Hcpu.
  - exact Hnet.
  - exact Hlast.
Qed.

Lemma qos_arbitration_witness :
  ∃ o st' l',
    tick Examples.loop0 Examples.window_b Examples.sample_idle = (Ok o, st', l')
    ∧ qos_src o = "mqtt"%string ∧ hi_mbps o == 1 ∧ med_mbps o == 2
    ∧ total_mbps o == 0.
Proof.
  eexists _, _, _. split; [reflexivity|].
  pose proof (qos_arbitration Examples.loop0 Examples.window_b
                Examples.sample_idle _ _ _ None None None _
                eq_refl eq_refl) as (Htot & _ & H & _).
  destruct (H (conj eq_refl (conj eq_refl eq_refl))) as (Hs & _ & _ & _ & Hb).
  split; [exact Hs|]. split; [apply Hb; reflexivity|].
  split; [apply Hb; reflexivity|]. rewrite Htot. reflexivity.
Defined.
End Sampler.

Section Cpu.
Import Estadisticas.
Local Open Scope Q_scope.

(** The percentage of [stats_writer.py] is clamped, and is 0.0 without
    a predecessor, on a read failure and when the total did not
    advance. *)
Lemma stats_writer_cpu_pct_bounded prev stat :
  0 <= (StatsWriter.cpu_pct prev stat).1 <= 100.
Proof.
  unfold StatsWriter.cpu_pct.
  destruct stat as [vals|]; [|cbn; split; discriminate].
  destruct (vals !! 3%nat) as [v3|]; [|cbn; split; discriminate].
  destruct prev as [[pt pi]|]; [|cbn; split; discriminate].
  cbn [fst]. destruct (_ <=? 0)%Z; [split; discriminate|].
  apply clamp_bounds. discriminate.
Qed.

Lemma stats_writer_cpu_pct_zero prev stat :
  (prev = None ∨ stat = None ∨
   ∃ vals pt pi, stat = Some vals ∧ prev = Some (pt, pi) ∧ (sum vals - pt <= 0)%Z) →
  (StatsWriter.cpu_pct prev stat).1 = 0.
Proof.
  unfold StatsWriter.cpu_pct. intros [->|[->|(vals & pt & pi & -> & -> & Hdt)]].
  - destruct stat as [vals|]; [|reflexivity].
    destruct (vals !! 3%nat); reflexivity.
  - reflexivity.
  - destruct (vals !! 3%nat); [|reflexivity]. cbn [fst].
    destruct (Z.leb_spec (sum vals - pt) 0); [reflexivity | lia].
Qed.

Lemma tick_cpu_pct_zero st l s o st' l' :
  tick st l s = (Ok o, st', l') →
  ((s_cpu s).1 - t0_total st <= 0)%Z → cpu_pct o = 0.
Proof.
  unfold tick. destruct (s_cpu s) as [t1 i1], (s_net s) as [rx1 tx1].
  destruct (shaper_step st (s_tc s)) as [[[hi_tc med_tc] low_tc] [[lh lm] ll]].
  cbn [read_and_reset fst].
  destruct (select_source _ _ _ _ _ _) as [[[hi med] low] src].
  destruct (is_dict _ && is_dict _); [|discriminate].
  intros [= <- _ _] Hdt. cbn.
  destruct (Z.leb_spec (t1 - t0_total st) 0); [reflexivity | lia].
Qed.

(** C7 fails in [estadisticas.py]. Between the two readings of
    [Examples.stat_before] and [Examples.stat_after] the total advances
    by 10 ticks and the idle sum falls by 20; the loop computes
    [100 * (1 - (-20 / 10)) = 300] and publishes it, outside [0, 100]. *)
Theorem estadisticas_cpu_pct_unclamped :
  cpu_usage_total_idle Examples.stat_before = Some (100%Z, 50%Z)
  ∧ cpu_usage_total_idle Examples.stat_after = Some (110%Z, 30%Z)
  ∧ ∃ o st' l',
      tick Examples.loop0 latest_toma1 Examples.sample_iowait = (Ok o, st', l')
      ∧ cpu_pct o == 300
      ∧ ¬ cpu_pct o <= 100
      ∧ payload_pi_cpu o == 300.
Proof.
  split; [reflexivity|]. split; [reflexivity|].
  eexists _, _, _. split; [reflexivity|].
  split; [reflexivity|]. split; [|reflexivity].
  intros H. vm_compute in H. apply H. reflexivity.
Qed.

Lemma read_and_reset_window l :
  let l' := (read_and_reset l).2 in
  bytes_telem l' = 0%Z ∧ bytes_alert l' = 0%Z ∧ bytes_status l' = bytes_status l.
Proof. cbn. auto. Qed.

Lemma tick_window st l s : (tick st l s).2 = (read_and_reset l).2.
Proof.
  unfold tick. destruct (s_cpu s) as [t1 i1], (s_net s) as [rx1 tx1].
  destruct (shaper_step st (s_tc s)) as [[[hi_tc med_tc] low_tc] [[lh lm] ll]].
  cbn [read_and_reset].
  destruct (select_source _ _ _ _ _ _) as [[[hi med] low] src].
  reflexivity.
Qed.

(** C8 fails for one of the three accumulators. An iteration resets
    [bytes_telem] and [bytes_alert] and leaves [bytes_status] as it
    was: after a 6-byte status message and one iteration the status
    accumulator still holds 6. *)
Theorem tick_leaves_bytes_status :
  (∀ st l s,
      let l' := (tick st l s).2 in
      bytes_telem l' = 0%Z ∧ bytes_alert l' = 0%Z
      ∧ bytes_status l' = bytes_status l)
  ∧ ∃ st' l',
      run (Examples.loop0, latest_toma1)
          [Deliver 0 Examples.status_online; Tick Examples.sample_idle]
        = Ok (st', l')
      ∧ bytes_telem l' = 0%Z ∧ bytes_alert l' = 0%Z ∧ bytes_status l' = 6%Z.
Proof.
  split.
  - intros st l s. rewrite tick_window. apply read_and_reset_window.
  - eexists _, _. split; [reflexivity|]. cbn. auto.
Qed.
End Cpu.

(** ** Schema statements *)

Section Statements.

Lemma union_singleton_present {A} (m : gmap string A) k x y :
  m !! k = Some x → m ∪ {[ k := y ]} = m.
Proof.
  intros H. apply map_eq. intros j. rewrite lookup_union.
  destruct (decide (k = j)) as [<-|Hne].
  - rewrite H, lookup_singleton_eq. reflexivity.
  - rewrite lookup_singleton_ne by done. destruct (m !! j); reflexivity.
Qed.

Lemma lookup_union_singleton_ne {A} (m : gmap string A) k j x :
  k ≠ j → (m ∪ {[ k := x ]}) !! j = m !! j.
Proof.
  intros Hne. rewrite lookup_union, lookup_singleton_ne by done.
  destruct (m !! j); reflexivity.
Qed.

Lemma lookup_union_singleton_eq {A} (m : gmap string A) k x :
  is_Some ((m ∪ {[ k := x ]}) !! k).
Proof.
  rewrite lookup_union, lookup_singleton_eq. destruct (m !! k); eauto.
Qed.

Lemma lookup_union_singleton_default {A} (m : gmap string A) k x :
  (m ∪ {[ k := x ]}) !! k = Some (default x (m !! k)).
Proof.
  rewrite lookup_union, lookup_singleton_eq. by destruct (m !! k).
Qed.

Lemma db_eta d : {| tables := tables d; indexes := indexes d; journal := journal d |} = d.
Proof. destruct d; reflexivity. Qed.

Lemma bind_ok {A B} (m : sql A) (k : A → sql B) d u d' :
  (m ≫= k) d = (Ok u, d') → ∃ a d1, m d = (Ok a, d1) ∧ k a d1 = (Ok u, d').
Proof.
  unfold mbind, sql_bind. destruct (m d) as [[a|e] d1]; [eauto | discriminate].
Qed.

Lemma bind_run {A B} (m : sql A) (k : A → sql B) d a d1 :
  m d = (Ok a, d1) → (m ≫= k) d = k a d1.
Proof. unfold mbind, sql_bind. intros ->. reflexivity. Qed.

Lemma create_table_ok n cs d u d' :
  create_table_if_not_exists n cs d = (Ok u, d') →
  d' = add_table n cs d ∧ (tables d !! n = None → indexes d !! n = None).
Proof.
  unfold create_table_if_not_exists, add_table.
  destruct (tables d !! n) as [t|] eqn:Ht.
  - intros [= _ <-]. rewrite (union_singleton_present _ _ _ _ Ht), db_eta. done.
  - destruct (indexes d !! n) eqn:Hi; [discriminate|].
    intros [= _ <-]. rewrite (insert_union_singleton_r _ _ _ Ht). done.
Qed.

Lemma create_table_run n cs d :
  (tables d !! n = None → indexes d !! n = None) →
  create_table_if_not_exists n cs d = (Ok (), add_table n cs d).
Proof.
  unfold create_table_if_not_exists, add_table. intros H.
  destruct (tables d !! n) as [t|] eqn:Ht.
  - rewrite (union_singleton_present _ _ _ _ Ht), db_eta. done.
  - rewrite (H eq_refl), (insert_union_singleton_r _ _ _ Ht). done.
Qed.

Lemma create_index_ok i t cs d u d' :
  create_index_if_not_exists i t cs d = (Ok u, d') →
  d' = add_index i t cs d ∧ is_Some (tables d !! t) ∧ tables d !! i = None.
Proof.
  unfold create_index_if_not_exists, add_index.
  destruct (tables d !! t) as [t0|] eqn:Ht; [|discriminate].
  destruct (tables d !! i) eqn:Hi; [discriminate|].
  destruct (indexes d !! i) as [x|] eqn:Hx.
  - intros [= _ <-]. rewrite (union_singleton_present _ _ _ _ Hx), db_eta. eauto.
  - destruct (forallb _ cs); [|discriminate].
    intros [= _ <-]. rewrite (insert_union_singleton_r _ _ _ Hx). eauto.
Qed.

Lemma create_index_run i t cs d t0 :
  tables d !! t = Some t0 → tables d !! i = None →
  (indexes d !! i = None → Forall (λ c, c ∈ col_names t0) cs) →
  create_index_if_not_exists i t cs d = (Ok (), add_index i t cs d).
Proof.
  unfold create_index_if_not_exists, add_index. intros -> -> H.
  destruct (indexes d !! i) as [x|] eqn:Hx.
  - rewrite (union_singleton_present _ _ _ _ Hx), db_eta. done.
  - assert (forallb (λ c, bool_decide (c ∈ col_names t0)) cs = true) as ->.
    { apply forallb_forall. intros c Hc. apply bool_decide_eq_true_2.
      specialize (H eq_refl). rewrite Forall_forall in H. apply H.
      by apply list_elem_of_In. }
    rewrite (insert_union_singleton_r _ _ _ Hx). done.
Qed.
End Statements.

Ltac simpl_lookups :=
  repeat match goal with
  | H : context [(?m ∪ {[ ?k := ?x ]}) !! ?j] |- _ =>
      rewrite (lookup_union_singleton_ne m k j x) in H by str_ne
  | |- context [(?m ∪ {[ ?k := ?x ]}) !! ?j] =>
      rewrite (lookup_union_singleton_ne m k j x) by str_ne
  end.

Ltac invert_run H :=
  repeat match type of H with
  | (_ ≫= _) _ = _ =>
      let a := fresh "a" in let d1 := fresh "d" in
      let H1 := fresh "H" in
      apply bind_ok in H as (a & d1 & H1 & H)
  end;
  repeat match goal with
  | H : create_table_if_not_exists _ _ _ = _ |- _ =>
      apply create_table_ok in H as [-> ?]
  | H : create_index_if_not_exists _ _ _ _ = _ |- _ =>
      apply create_index_ok in H as (-> & ? & ?)
  end.

Section SnapshotSchema.

Lemma create_table_noop n cs d :
  is_Some (tables d !! n) → create_table_if_not_exists n cs d = (Ok (), d).
Proof. intros [t Ht]. unfold create_table_if_not_exists. by rewrite Ht. Qed.

Lemma create_index_noop i t cs d :
  is_Some (tables d !! t) → tables d !! i = None → is_Some (indexes d !! i) →
  create_index_if_not_exists i t cs d = (Ok (), d).
Proof.
  intros [t0 Ht] Hi [x Hx]. unfold create_index_if_not_exists.
  by rewrite Ht, Hi, Hx.
Qed.

Lemma ensure_schema_ok d u d' :
  SnapshotDb.ensure_schema d = (Ok u, d') →
  d' = provisioned_schema d
  ∧ Forall (λ i, tables d !! i = None) index_names
  ∧ Forall (λ n, tables d !! n = None → indexes d !! n = None) table_names.
Proof.
  unfold SnapshotDb.ensure_schema. intros H. invert_run H.
  destruct d as [T I J]. unfold add_table, add_index in *.
  cbn [tables indexes journal] in *.
  repeat match goal with H : is_Some _ |- _ => clear H end.
  simpl_lookups.
  split; [|split].
  - unfold provisioned_schema, schema_tables, schema_indexes, fresh.
    cbn [tables indexes journal].
    rewrite <- !(assoc_L (∪) T), <- !(assoc_L (∪) I). reflexivity.
  - unfold index_names. forall_intro; assumption.
  - unfold table_names. forall_intro; assumption.
Qed.

Lemma ensure_schema_provisioned d :
  wf_db d → snapshot_provisioned d → SnapshotDb.ensure_schema d = (Ok (), d).
Proof.
  intros Hwf [Ht Hi]. unfold SnapshotDb.ensure_schema.
  unfold table_names, index_names in *.
  repeat match goal with H : Forall _ (_ :: _) |- _ => apply Forall_cons in H as [? H] end.
  assert (Hfree : ∀ i, is_Some (indexes d !! i) → tables d !! i = None).
  { intros i [x Hx]. destruct (tables d !! i) eqn:E; [|done].
    rewrite Hwf in Hx by eauto. discriminate. }
  repeat first
    [ erewrite bind_run by (apply create_table_noop; assumption)
    | erewrite bind_run by (apply create_index_noop; auto) ].
  apply create_index_noop; auto.
Qed.

Lemma provisioned_schema_provisioned d : snapshot_provisioned (provisioned_schema d).
Proof.
  unfold snapshot_provisioned, table_names, index_names.
  split; forall_intro; cbn [tables indexes provisioned_schema];
    apply lookup_union_is_Some; right; vm_compute; eauto.
Qed.

End SnapshotSchema.

Section Additive.
Lemma extends_refl d : extends d d.
Proof. split; [|done]. intros n t Ht. exists t. done. Qed.

Lemma extends_trans d1 d2 d3 : extends d1 d2 → extends d2 d3 → extends d1 d3.
Proof.
  intros [H1 I1] [H2 I2]. split; [|by etrans].
  intros n t Ht. destruct (H1 n t Ht) as (t2 & Ht2 & Hr2 & Hc2).
  destruct (H2 n t2 Ht2) as (t3 & Ht3 & Hr3 & Hc3).
  exists t3. split; [done|]. split; [congruence | by etrans].
Qed.

Lemma additive_skip {A} (m : sql A) d : (m d).2 = d →
  extends d (m d).2 ∧ (nodup_cols d → nodup_cols (m d).2) ∧ (wf_db d → wf_db (m d).2).
Proof. intros ->. split; [apply extends_refl | done]. Qed.

Lemma additive_ret {A} (a : A) : additive (mret a).
Proof. intros d. by apply additive_skip. Qed.

Lemma additive_bind {A B} (m : sql A) (k : A → sql B) :
  additive m → (∀ a, additive (k a)) → additive (m ≫= k).
Proof.
  intros Hm Hk d. unfold mbind, sql_bind.
  destruct (Hm d) as (He & Hn & Hw). destruct (m d) as [[a|e] d1]; cbn [snd] in *.
  - destruct (Hk a d1) as (He' & Hn' & Hw').
    split; [by eapply extends_trans | auto].
  - done.
Qed.

Lemma additive_create_table n cs :
  NoDup cs.*1 → additive (create_table_if_not_exists n cs).
Proof.
  intros Hcs d. unfold create_table_if_not_exists.
  destruct (tables d !! n) as [t|] eqn:Ht; [by apply additive_skip|].
  destruct (indexes d !! n) eqn:Hi; [by apply additive_skip|].
  cbn [snd]. split; [split|split].
  - intros m t Hm. exists t. cbn [tables].
    rewrite lookup_insert_ne by congruence. done.
  - done.
  - intros Hnd m t. cbn [tables]. intros [[<- <-]|[_ Hm]]%lookup_insert_Some.
    + exact Hcs.
    + by eapply Hnd.
  - intros Hwf m. cbn [tables indexes].
    intros [t [[<- <-]|[_ Hm]]%lookup_insert_Some]; [done | eauto].
Qed.

Lemma additive_create_index i t cs : additive (create_index_if_not_exists i t cs).
Proof.
  intros d. unfold create_index_if_not_exists.
  destruct (tables d !! t) as [tb|]; [|by apply additive_skip].
  destruct (tables d !! i) eqn:Hti; [by apply additive_skip|].
  destruct (indexes d !! i) eqn:Hi; [by apply additive_skip|].
  destruct (forallb _ cs); [|by apply additive_skip].
  cbn [snd]. split; [split|split; [done|]].
  - intros m t0 Hm. exists t0. done.
  - cbn [indexes]. by apply insert_subseteq.
  - intros Hwf m Hm. cbn [tables indexes] in *.
    rewrite lookup_insert_ne; [eauto|]. intros <-. rewrite Hti in Hm. by destruct Hm.
Qed.

Lemma additive_table_info tbl : additive (table_info tbl).
Proof. intros d. by apply additive_skip. Qed.

Lemma additive_alter tbl c ty : additive (alter_table_add_column tbl c ty).
Proof.
  intros d. unfold alter_table_add_column.
  destruct (tables d !! tbl) as [t|] eqn:Ht; [|by apply additive_skip].
  case_bool_decide as Hc; [by apply additive_skip|].
  cbn [snd]. split; [split|split].
  - intros m t0 Hm. cbn [tables]. destruct (decide (tbl = m)) as [<-|Hne].
    + rewrite lookup_insert_eq. eexists. split; [done|].
      assert (t0 = t) as -> by congruence. split; [done|].
      by apply prefix_app_r.
    + rewrite lookup_insert_ne by done. exists t0. done.
  - done.
  - intros Hnd m t0. cbn [tables]. intros [[<- <-]|[_ Hm]]%lookup_insert_Some.
    + unfold col_names in *. cbn [cols]. rewrite fmap_app. cbn.
      apply NoDup_app. split; [by eapply Hnd|]. split.
      * intros x Hx [->|[]%elem_of_nil]%elem_of_cons. done.
      * apply NoDup_singleton.
    + by eapply Hnd.
  - intros Hwf m. cbn [tables indexes].
    intros [t0 [[<- <-]|[_ Hm]]%lookup_insert_Some]; apply Hwf; eauto.
Qed.

Lemma additive_pragma_journal_wal : additive pragma_journal_wal.
Proof.
  intros d. split; [|done]. split; [|done]. intros n t Ht. exists t. done.
Qed.
End Additive.

Section IngestSchema.
Import IngestTomas.

Lemma foldl_insert_None (l : list (string * string)) (m : gmap string string) c :
  foldl (λ (d : gmap string string) r, <[r.1 := r.2]> d) m l !! c = None
  ↔ m !! c = None ∧ c ∉ l.*1.
Proof.
  revert m. induction l as [|[k v] l IH]; intros m; cbn.
  - split; [intros H; split; [done | apply not_elem_of_nil] | by intros [? _]].
  - rewrite IH, lookup_insert_None, not_elem_of_cons. cbn. intuition congruence.
Qed.

Lemma _cols_run tbl d :
  ∃ have, _cols tbl d = (Ok have, d)
    ∧ ∀ c, have !! c = None ↔
           c ∉ match tables d !! tbl with Some t => col_names t | None => [] end.
Proof.
  eexists. split; [reflexivity|]. intros c.
  rewrite foldl_insert_None, lookup_empty.
  unfold col_names. destruct (tables d !! tbl); intuition.
Qed.

Lemma additive__cols tbl : additive (_cols tbl).
Proof. intros d. by apply additive_skip. Qed.

Lemma additive_add_missing tbl have need : additive (add_missing tbl have need).
Proof.
  induction need as [|[c ty] need IH]; cbn [add_missing].
  - apply additive_ret.
  - apply additive_bind; [|intros _; exact IH].
    case_bool_decide; [apply additive_alter | apply additive_ret].
Qed.

Lemma additive_ingest_ensure_schema : additive IngestTomas.ensure_schema.
Proof.
  unfold IngestTomas.ensure_schema.
  repeat first
    [ apply additive_create_table; apply (bool_decide_unpack _); by vm_compute
    | apply additive_create_index
    | apply additive__cols
    | apply additive_add_missing
    | apply additive_bind; [|intros ?] ].
Qed.

Lemma additive_snapshot_ensure_schema : additive SnapshotDb.ensure_schema.
Proof.
  unfold SnapshotDb.ensure_schema.
  repeat first
    [ apply additive_create_table; apply (bool_decide_unpack _); by vm_compute
    | apply additive_create_index
    | apply additive_bind; [|intros ?] ].
Qed.

Lemma add_missing_noop tbl have need d :
  Forall (λ c, have !! c ≠ None) need.*1 → add_missing tbl have need d = (Ok (), d).
Proof.
  induction need as [|[c ty] need IH]; cbn; [done|].
  intros [Hc Hr]%Forall_cons.
  rewrite bool_decide_eq_false_2 by done.
  unfold mbind, sql_bind, mret, sql_ret. by apply IH.
Qed.

Lemma set_table_set_table n t1 t2 d :
  set_table n t2 (set_table n t1 d) = set_table n t2 d.
Proof. unfold set_table. cbn. by rewrite insert_insert_eq. Qed.

Lemma set_table_id n t d : tables d !! n = Some t → set_table n t d = d.
Proof. intros H. unfold set_table. rewrite insert_id by done. apply db_eta. Qed.

(** The loop never hits a duplicate column: it adds exactly the needed
    columns the table lacked. *)
Lemma add_missing_run tbl have need d t0 extra :
  tables d !! tbl = Some {| cols := cols t0 ++ extra; rows := rows t0 |} →
  (∀ c, have !! c = None ↔ c ∉ col_names t0) →
  NoDup need.*1 → (∀ c, c ∈ need.*1 → c ∉ extra.*1) →
  add_missing tbl have need d =
    (Ok (), set_table tbl
              {| cols := cols t0 ++ extra ++
                   List.filter (λ c, bool_decide (c.1 ∉ col_names t0)) need;
                 rows := rows t0 |} d).
Proof.
  revert d extra. induction need as [|[c ty] need IH]; intros d extra Ht Hhave Hnd Hex.
  - cbn. rewrite app_nil_r, set_table_id by done. done.
  - cbn [add_missing]. cbn in Hnd. apply NoDup_cons in Hnd as [Hc Hnd].
    cbn [List.filter fst].
    destruct (decide (c ∈ col_names t0)) as [Hin|Hnin].
    + rewrite bool_decide_eq_false_2 by (rewrite Hhave; tauto).
      rewrite (bool_decide_eq_false_2 (c ∉ _)) by tauto.
      unfold mbind at 1, sql_bind at 1, mret at 1, sql_ret at 1.
      apply IH; try done. intros c' Hc'. apply Hex. cbn. by apply elem_of_cons; right.
    + rewrite bool_decide_eq_true_2 by (rewrite Hhave; tauto).
      rewrite (bool_decide_eq_true_2 (c ∉ _)) by tauto.
      unfold mbind at 1, sql_bind at 1.
      unfold alter_table_add_column at 1. rewrite Ht.
      rewrite bool_decide_eq_false_2.
      2:{ unfold col_names. cbn [cols]. rewrite fmap_app, elem_of_app.
          intros [?|Hx]; [done|]. eapply Hex; [|exact Hx]. cbn. apply elem_of_cons; by left. }
      cbn [cols rows].
      erewrite (IH _ (extra ++ [(c, ty)])); try done.
      * fold (set_table tbl {| cols := (cols t0 ++ extra) ++ [(c, ty)]; rows := rows t0 |} d).
        rewrite set_table_set_table. do 3 f_equal.
        rewrite <- !app_assoc. reflexivity.
      * cbn [tables]. rewrite lookup_insert_eq. by rewrite <- app_assoc.
      * intros c' Hc'. rewrite fmap_app, elem_of_app. cbn.
        intros [Hx|Hx%list_elem_of_singleton].
        -- eapply Hex; [|exact Hx]. cbn. by apply elem_of_cons; right.
        -- subst. done.
Qed.
End IngestSchema.

Section IngestRun.
Import IngestTomas.

Lemma table_eta t : {| cols := cols t; rows := rows t |} = t.
Proof. by destruct t. Qed.

Lemma add_missing_migrate tbl have need d t0 :
  tables d !! tbl = Some t0 →
  (∀ c, have !! c = None ↔ c ∉ col_names t0) →
  NoDup need.*1 →
  add_missing tbl have need d = (Ok (), set_table tbl (migrate need t0) d).
Proof.
  intros Ht Hh Hnd.
  rewrite (add_missing_run tbl have need d t0 []); try done.
  - by rewrite app_nil_r, table_eta.
  - intros c _. apply not_elem_of_nil.
Qed.

Lemma migrate_has need t c : c ∈ need.*1 → c ∈ col_names (migrate need t).
Proof.
  intros Hc. unfold col_names, migrate. cbn [cols].
  rewrite fmap_app, elem_of_app.
  destruct (decide (c ∈ (cols t).*1)) as [?|Hn]; [by left | right].
  apply list_elem_of_fmap in Hc as ([c' ty] & -> & Hin).
  apply list_elem_of_fmap. exists (c', ty). split; [done|].
  apply list_elem_of_In, filter_In. split; [by apply list_elem_of_In|].
  by apply bool_decide_eq_true_2.
Qed.

Lemma migrate_id need t :
  Forall (λ c, c ∈ col_names t) need.*1 → migrate need t = t.
Proof.
  intros H. unfold migrate.
  assert (List.filter (λ c, bool_decide (c.1 ∉ col_names t)) need = []) as ->.
  { induction need as [|[c ty] need IH]; [done|].
    cbn in H. apply Forall_cons in H as [Hc H]. cbn.
    rewrite bool_decide_eq_false_2 by tauto. by apply IH. }
  by rewrite app_nil_r, table_eta.
Qed.

Lemma need_toma_nodup : NoDup need_toma.*1.
Proof. apply (bool_decide_unpack _). by vm_compute. Qed.

Lemma need_alert_nodup : NoDup need_alert.*1.
Proof. apply (bool_decide_unpack _). by vm_compute. Qed.

(** What a successful run of the ingestor's [ensure_schema] leaves. *)
Lemma ingest_ensure_schema_ok d u d' :
  IngestTomas.ensure_schema d = (Ok u, d') → ingest_provisioned d'.
Proof.
  unfold IngestTomas.ensure_schema. intros H.
  apply bind_ok in H as (? & d1 & H1 & H).
  apply bind_ok in H as (? & d2 & H2 & H).
  apply bind_ok in H as (have_t & d2' & H3 & H).
  apply bind_ok in H as (? & d3 & H4 & H).
  apply bind_ok in H as (have_a & d3' & H5 & H).
  apply bind_ok in H as (? & d4 & H6 & H).
  apply bind_ok in H as (? & d5 & H7 & H8).
  apply create_table_ok in H1 as [-> _].
  apply create_table_ok in H2 as [-> _].
  apply create_index_ok in H7 as (-> & _ & _).
  apply create_index_ok in H8 as (-> & _ & _).
  destruct (_cols_run "toma_samples"
              (add_table "alert_samples" alert_samples_cols
                 (add_table "toma_samples" toma_samples_cols d)))
    as (h & E & Hh).
  rewrite E in H3. injection H3 as <- <-.
  destruct (lookup_union_singleton_eq (tables d) "toma_samples"
              {| cols := toma_samples_cols; rows := [] |}) as [tt Htt].
  assert (Htt2 : tables (add_table "alert_samples" alert_samples_cols
                   (add_table "toma_samples" toma_samples_cols d))
                 !! "toma_samples" = Some tt).
  { cbn [tables add_table]. rewrite lookup_union_singleton_ne by discriminate. done. }
  rewrite Htt2 in Hh.
  rewrite (add_missing_migrate _ _ _ _ tt Htt2 Hh need_toma_nodup) in H4.
  injection H4 as _ <-.
  match type of H5 with _cols ?t ?s = _ =>
    destruct (_cols_run t s) as (h' & E' & Hh') end.
  rewrite E' in H5. injection H5 as <- <-.
  match type of Hh' with context [tables ?s !! _] =>
    destruct (lookup_union_singleton_eq
                (tables (add_table "toma_samples" toma_samples_cols d))
                "alert_samples" {| cols := alert_samples_cols; rows := [] |})
      as [ta Hta];
    assert (Hta2 : tables s !! "alert_samples" = Some ta)
  end.
  { cbn [tables add_table set_table]. rewrite lookup_insert_ne by discriminate. done. }
  rewrite Hta2 in Hh'.
  rewrite (add_missing_migrate _ _ _ _ ta Hta2 Hh' need_alert_nodup) in H6.
  injection H6 as _ <-.
  unfold ingest_provisioned.
  cbn [tables indexes add_table add_index set_table].
  split; [|split; [|split]].
  - exists (migrate need_toma tt).
    rewrite lookup_insert_ne by discriminate. rewrite lookup_insert_eq.
    split; [done|]. apply Forall_forall. intros c Hc. by apply migrate_has.
  - exists (migrate need_alert ta). rewrite lookup_insert_eq.
    split; [done|]. apply Forall_forall. intros c Hc. by apply migrate_has.
  - apply lookup_union_is_Some. left. apply lookup_union_singleton_eq.
  - apply lookup_union_singleton_eq.
Qed.

(** On a store that has it all, [ensure_schema] changes nothing. *)
Lemma ingest_ensure_schema_provisioned d :
  wf_db d → ingest_provisioned d → IngestTomas.ensure_schema d = (Ok (), d).
Proof.
  intros Hwf ((tt & Htt & Hct) & (ta & Hta & Hca) & Hi1 & Hi2).
  assert (Hfree : ∀ i, is_Some (indexes d !! i) → tables d !! i = None).
  { intros i [x Hx]. destruct (tables d !! i) eqn:E; [|done].
    rewrite Hwf in Hx by eauto. discriminate. }
  unfold IngestTomas.ensure_schema.
  erewrite bind_run by (apply create_table_noop; eauto).
  erewrite bind_run by (apply create_table_noop; eauto).
  destruct (_cols_run "toma_samples" d) as (h & E & Hh). rewrite Htt in Hh.
  erewrite bind_run by exact E.
  erewrite bind_run.
  2:{ apply add_missing_noop. eapply Forall_impl; [exact Hct|].
      intros c Hc. cbn beta in Hc. rewrite Hh. tauto. }
  destruct (_cols_run "alert_samples" d) as (h' & E' & Hh'). rewrite Hta in Hh'.
  erewrite bind_run by exact E'.
  erewrite bind_run.
  2:{ apply add_missing_noop. eapply Forall_impl; [exact Hca|].
      intros c Hc. cbn beta in Hc. rewrite Hh'. tauto. }
  erewrite bind_run by (apply create_index_noop; eauto).
  apply create_index_noop; eauto.
Qed.
End IngestRun.

Section FirstRun.
Ltac run_table :=
  erewrite bind_run;
  [| apply create_table_run; cbn [tables indexes add_table add_index];
     simpl_lookups; assumption ].

Ltac index_pre Hidx :=
  destruct Hidx as [? Hcols];
  eapply create_index_run;
  [ cbn [tables indexes add_table add_index]; simpl_lookups;
    apply lookup_union_singleton_default
  | cbn [tables indexes add_table add_index]; simpl_lookups; assumption
  | let Hi := fresh "Hi" in
    intros Hi; cbn [tables indexes add_table add_index] in Hi; simpl_lookups;
    match goal with
    | |- Forall _ _ =>
        match goal with
        | |- context [default _ (?T !! ?t)] =>
            let E := fresh "E" in
            destruct (T !! t) as [tb|] eqn:E; cbn [default];
            [ eapply Hcols; [exact Hi | reflexivity]
            | forall_intro; apply (bool_decide_unpack _); by vm_compute ]
        end
    end ].

Lemma snapshot_ensure_schema_succeeds d :
  snapshot_compatible d →
  SnapshotDb.ensure_schema d = (Ok (), provisioned_schema d).
Proof.
  intros (Ht & I1 & I2 & I3 & I4 & I5).
  unfold table_names in Ht.
  repeat match goal with H : Forall _ (_ :: _) |- _ => apply Forall_cons in H as [? H] end.
  destruct d as [T I J]. unfold indexed in *. cbn [tables indexes] in *.
  unfold SnapshotDb.ensure_schema.
  run_table.
  erewrite bind_run; [|index_pre I1].
  run_table.
  erewrite bind_run; [|index_pre I2].
  erewrite bind_run; [|index_pre I3].
  run_table.
  erewrite bind_run; [|index_pre I4].
  run_table.
  erewrite create_index_run.
  - unfold provisioned_schema, schema_tables, schema_indexes, fresh, add_table, add_index.
    cbn [tables indexes journal].
    rewrite <- !(assoc_L (∪) T), <- !(assoc_L (∪) I). reflexivity.
  - cbn [tables indexes add_table add_index]; simpl_lookups.
    apply lookup_union_singleton_default.
  - cbn [tables indexes add_table add_index]; simpl_lookups. apply I5.
  - destruct I5 as [? Hcols].
    intros Hi; cbn [tables indexes add_table add_index] in Hi; simpl_lookups.
    destruct (T !! "net_samples") as [tb|] eqn:E; cbn [default].
    + eapply Hcols; [exact Hi | reflexivity].
    + forall_intro; apply (bool_decide_unpack _); by vm_compute.
Qed.

Lemma migrate_keeps need t c : c ∈ col_names t → c ∈ col_names (migrate need t).
Proof.
  unfold col_names, migrate. cbn [cols]. rewrite fmap_app, elem_of_app. tauto.
Qed.

Lemma ingest_ensure_schema_succeeds d :
  ingest_compatible d → ∃ d', IngestTomas.ensure_schema d = (Ok (), d').
Proof.
  intros (Ht & Ha & [Hf1 Hc1] & [Hf2 Hc2]).
  unfold IngestTomas.ensure_schema.
  erewrite bind_run by (by apply create_table_run).
  erewrite bind_run.
  2:{ apply create_table_run. cbn [tables indexes add_table]. simpl_lookups. exact Ha. }
  set (d2 := add_table "alert_samples" _ _).
  pose (tt := default {| cols := IngestTomas.toma_samples_cols; rows := [] |}
                (tables d !! "toma_samples")).
  pose (ta := default {| cols := IngestTomas.alert_samples_cols; rows := [] |}
                (tables d !! "alert_samples")).
  assert (Htt : tables d2 !! "toma_samples" = Some tt).
  { subst d2. cbn [tables add_table]. simpl_lookups. apply lookup_union_singleton_default. }
  assert (Hta : tables d2 !! "alert_samples" = Some ta).
  { subst d2. cbn [tables add_table]. rewrite lookup_union_singleton_default.
    f_equal. subst ta. by simpl_lookups. }
  destruct (_cols_run "toma_samples" d2) as (h & E & Hh). rewrite Htt in Hh.
  erewrite bind_run by exact E.
  erewrite bind_run by (by apply (add_missing_migrate _ _ _ _ tt Htt Hh need_toma_nodup)).
  set (d3 := set_table "toma_samples" _ d2).
  assert (Hta3 : tables d3 !! "alert_samples" = Some ta).
  { subst d3. cbn [tables set_table]. by rewrite lookup_insert_ne by discriminate. }
  destruct (_cols_run "alert_samples" d3) as (h' & E' & Hh'). rewrite Hta3 in Hh'.
  erewrite bind_run by exact E'.
  erewrite bind_run by (by apply (add_missing_migrate _ _ _ _ ta Hta3 Hh' need_alert_nodup)).
  set (d4 := set_table "alert_samples" _ d3).
  assert (Htabs : ∀ i, i ≠ "toma_samples" → i ≠ "alert_samples" →
                       tables d4 !! i = tables d !! i).
  { intros i H1 H2. subst d4 d3 d2. cbn [tables set_table add_table].
    rewrite !lookup_insert_ne by done. by rewrite !lookup_union_singleton_ne by done. }
  assert (Hidx : indexes d4 = indexes d) by reflexivity.
  assert (Htt4 : tables d4 !! "toma_samples" = Some (migrate IngestTomas.need_toma tt)).
  { subst d4 d3. cbn [tables set_table].
    rewrite lookup_insert_ne by discriminate. by rewrite lookup_insert_eq. }
  assert (Hta4 : tables d4 !! "alert_samples" = Some (migrate IngestTomas.need_alert ta)).
  { subst d4. cbn [tables set_table]. by rewrite lookup_insert_eq. }
  clearbody d4. clear d2 d3 Htt Hta Hta3 E E' Hh Hh'.
  erewrite bind_run.
  2:{ eapply create_index_run; [exact Htt4 | by rewrite Htabs |].
      rewrite Hidx. intros Hi. subst tt.
      destruct (tables d !! "toma_samples") as [tb|] eqn:Etb; cbn [default].
      - eapply Forall_impl; [by eapply Hc1|]. intros c. apply migrate_keeps.
      - forall_intro; apply migrate_keeps; apply (bool_decide_unpack _); by vm_compute. }
  eexists. eapply create_index_run.
  - cbn [tables add_index]. exact Hta4.
  - cbn [tables add_index]. by rewrite Htabs.
  - cbn [indexes add_index]. rewrite Hidx. simpl_lookups. intros Hi. subst ta.
    destruct (tables d !! "alert_samples") as [tb|] eqn:Etb; cbn [default].
    + eapply Forall_impl; [by eapply Hc2|]. intros c. apply migrate_keeps.
    + forall_intro; apply migrate_keeps; apply (bool_decide_unpack _); by vm_compute.
Qed.
End FirstRun.

(** ** Schema setup and the snapshot's effect on the store *)

Section SchemaSetup.

Lemma additive_run {A} (m : sql A) d r d' :
  additive m → m d = (r, d') →
  extends d d' ∧ (nodup_cols d → nodup_cols d') ∧ (wf_db d → wf_db d').
Proof. intros Hm E. specialize (Hm d). by rewrite E in Hm. Qed.

(** C6. Both [ensure_schema] functions only add to the store, whether
    they complete or raise: every table keeps its records and its
    columns (new columns come after the old ones) and no column name is
    duplicated. On a store they are compatible with they complete; when
    one has completed, running it again completes and changes nothing;
    and the ingestor's leaves both outlet tables with every column it
    needs. *)
Theorem ensure_schema_idempotent_additive (d : db) (Hwf : wf_db d) :
  (∀ r d1, SnapshotDb.ensure_schema d = (r, d1) →
     extends d d1 ∧ (nodup_cols d → nodup_cols d1))
  ∧ (snapshot_compatible d → ∃ d1, SnapshotDb.ensure_schema d = (Ok (), d1))
  ∧ (∀ u d1, SnapshotDb.ensure_schema d = (Ok u, d1) →
     SnapshotDb.ensure_schema d1 = (Ok (), d1))
  ∧ (∀ r d1, IngestTomas.ensure_schema d = (r, d1) →
     extends d d1 ∧ (nodup_cols d → nodup_cols d1))
  ∧ (ingest_compatible d → ∃ d1, IngestTomas.ensure_schema d = (Ok (), d1))
  ∧ (∀ u d1, IngestTomas.ensure_schema d = (Ok u, d1) →
     ingest_provisioned d1 ∧ IngestTomas.ensure_schema d1 = (Ok (), d1)).
Proof.
  split; [|split; [|split; [|split; [|split]]]].
  - intros r d1 H.
    destruct (additive_run _ _ _ _ additive_snapshot_ensure_schema H) as (? & ? & _).
    done.
  - intros H. eexists. by apply snapshot_ensure_schema_succeeds.
  - intros u d1 H.
    destruct (additive_run _ _ _ _ additive_snapshot_ensure_schema H) as (_ & _ & Hw).
    apply ensure_schema_ok in H as (-> & _ & _).
    apply ensure_schema_provisioned; [auto | apply provisioned_schema_provisioned].
  - intros r d1 H.
    destruct (additive_run _ _ _ _ additive_ingest_ensure_schema H) as (? & ? & _).
    done.
  - apply ingest_ensure_schema_succeeds.
  - intros u d1 H. split; [by eapply ingest_ensure_schema_ok|].
    destruct (additive_run _ _ _ _ additive_ingest_ensure_schema H) as (_ & _ & Hw).
    apply ingest_ensure_schema_provisioned; [auto | by eapply ingest_ensure_schema_ok].
Qed.

(** An older file: the outlet table as [snapshot_db.py] declares it,
    holding one sample, and nothing else. The ingestor's setup adds the
    columns [ms] and [sim] behind the old ones and keeps the sample. *)
Lemma ensure_schema_idempotent_additive_witness :
  wf_db Examples.old_store
  ∧ ∃ d1 t1,
      IngestTomas.ensure_schema Examples.old_store = (Ok (), d1)
      ∧ IngestTomas.ensure_schema d1 = (Ok (), d1)
      ∧ tables d1 !! "toma_samples" = Some t1
      ∧ rows t1 = [Examples.old_sample]
      ∧ col_names t1 = ["ts"; "toma"; "seq"; "is_on"; "amperaje"; "potencia_w";
                        "estado"; "rssi"; "ms"; "sim"].
Proof.
  assert (Hwf : wf_db Examples.old_store) by (intros n _; apply lookup_empty).
  split; [exact Hwf|].
  destruct (ensure_schema_idempotent_additive Examples.old_store Hwf)
    as (_ & _ & _ & _ & _ & Hidem).
  destruct (IngestTomas.ensure_schema Examples.old_store) as [[[]|e] d1] eqn:E;
    [|by vm_compute in E].
  destruct (Hidem () d1 eq_refl) as [_ Hagain].
  assert (Et : tables d1 !! "toma_samples"
               = tables (IngestTomas.ensure_schema Examples.old_store).2 !! "toma_samples")
    by (by rewrite E).
  vm_compute in Et.
  eexists d1, _. split; [reflexivity|]. split; [exact Hagain|].
  split; [exact Et|]. split; reflexivity.
Defined.

(** C10. On an existing store [build_snapshot] runs the schema setup
    before it reads: the file it leaves is the one [_connect] and
    [ensure_schema] leave, which keeps everything the file held. When
    the setup completes all four tables and five indexes exist
    afterwards, and the file is left as it was only if they all existed
    before (and then it is, once the file is in WAL mode). *)
Theorem build_snapshot_store_effect (d : db) (now : Z) (path : string)
    (max_rows toma_points ttl : Z) (Hwf : wf_db d) :
  ∃ o d',
    (SnapshotDb._connect ≫= λ _, SnapshotDb.ensure_schema) d = (o, d')
    ∧ (SnapshotDb.build_snapshot (Some d) now path max_rows toma_points ttl).2 = Some d'
    ∧ extends d d'
    ∧ (∀ u, o = Ok u →
         snapshot_provisioned d'
         ∧ (d' = d → snapshot_provisioned d)
         ∧ (snapshot_provisioned d → journal d = Wal → d' = d))
    ∧ (snapshot_compatible d → ∃ u, o = Ok u).
Proof.
  unfold SnapshotDb.build_snapshot.
  destruct ((SnapshotDb._connect ≫= λ _, SnapshotDb.ensure_schema) d) as [o d'] eqn:E.
  exists o, d'. split; [done|]. split; [by destruct o|].
  assert (Hadd : additive (SnapshotDb._connect ≫= λ _, SnapshotDb.ensure_schema)).
  { apply additive_bind; [apply additive_pragma_journal_wal|].
    intros _. apply additive_snapshot_ensure_schema. }
  split; [by eapply additive_run|].
  unfold mbind, sql_bind, SnapshotDb._connect, pragma_journal_wal in E.
  set (dw := {| tables := tables d; indexes := indexes d; journal := Wal |}) in E.
  split.
  - intros u ->. apply ensure_schema_ok in E as (-> & _ & _).
    split; [apply provisioned_schema_provisioned|]. split.
    + intros Heq. pose proof (provisioned_schema_provisioned dw) as Hp.
      rewrite Heq in Hp. exact Hp.
    + intros Hp Hj.
      assert (dw = d) as Hdw by (subst dw; rewrite <- Hj; apply db_eta).
      rewrite Hdw.
      pose proof (ensure_schema_provisioned d Hwf Hp) as Hrun.
      apply ensure_schema_ok in Hrun as (Hrun & _ & _). by symmetry.
  - intros Hc.
    assert (Hcw : snapshot_compatible dw) by exact Hc.
    rewrite (snapshot_ensure_schema_succeeds dw Hcw) in E.
    injection E as <- _. eauto.
Qed.

(** A new, empty file: the snapshot read creates the whole schema in
    it. *)
Lemma build_snapshot_store_effect_witness :
  wf_db empty_db
  ∧ ∃ d',
      (SnapshotDb.build_snapshot (Some empty_db) 100 "safegrid.db" 60 60 10).2 = Some d'
      ∧ snapshot_provisioned d' ∧ d' ≠ empty_db.
Proof.
  assert (Hwf : wf_db empty_db) by (intros n _; apply lookup_empty).
  split; [exact Hwf|].
  destruct (build_snapshot_store_effect empty_db 100 "safegrid.db" 60 60 10 Hwf)
    as (o & d' & E & Hfs & _ & Hok & _).
  exists d'. split; [exact Hfs|].
  destruct o as [u|e]; [|by vm_compute in E].
  destruct (Hok u eq_refl) as (Hp & Hback & _).
  split; [exact Hp|]. intros ->. specialize (Hback eq_refl).
  destruct Hback as [Ht _]. apply Forall_cons in Ht as [[t Ht] _].
  unfold empty_db in Ht. cbn [tables] in Ht. by rewrite lookup_empty in Ht.
Defined.

(** C4. Without a store file [build_snapshot] returns the empty
    snapshot: no tables, nothing derived, zero alerts and an empty
    alert series; it raises nothing and creates no file. *)
Theorem build_snapshot_missing_store (now : Z) (path : string)
    (max_rows toma_points ttl : Z) :
  ∃ snap,
    SnapshotDb.build_snapshot None now path max_rows toma_points ttl = (Ok snap, None)
    ∧ SnapshotDb.tables snap = ∅
    ∧ SnapshotDb.derived snap = ∅
    ∧ SnapshotDb.alerts snap = (0%Z, [])
    ∧ SnapshotDb.now_ts snap = now
    ∧ SnapshotDb.ttl_sec snap = ttl.
Proof. eexists. repeat split. Qed.
End SchemaSetup.

(** ** The message ingestor *)

Section Ingestor.
Import IngestTomas.
Variable repr : pyval → string.

Lemma writer_eta w : {| con := con w; last_print := last_print w |} = w.
Proof. by destruct w. Qed.

Lemma insert_into_spec tbl columns vals d :
  insert_into tbl columns vals d = (Raise "no such table"%string, d)
  ∨ insert_into tbl columns vals d = (Raise "no such column"%string, d)
  ∨ ∃ t, tables d !! tbl = Some t
         ∧ Forall (λ c, c ∈ col_names t) columns
         ∧ insert_into tbl columns vals d
           = (Ok (), append_row tbl (record_of t columns vals) d).
Proof.
  unfold insert_into, append_row.
  destruct (tables d !! tbl) as [t|] eqn:Ht; [|by left].
  destruct (forallb _ columns) eqn:Hf; [|by right; left].
  right; right. exists t. split; [done|]. split; [|done].
  apply Forall_forall. intros c Hc.
  rewrite forallb_forall in Hf. specialize (Hf c).
  rewrite bool_decide_eq_true in Hf. apply Hf. by apply list_elem_of_In.
Qed.

(** An [INSERT] through the writer either appends one record or leaves
    the writer as it was. *)
Lemma execute_insert_spec w tbl columns params :
  (∃ e, execute_insert w tbl columns params = (Raise e, w))
  ∨ ∃ vals t,
      bind_all params = Ok vals
      ∧ tables (con w) !! tbl = Some t
      ∧ Forall (λ c, c ∈ col_names t) columns
      ∧ execute_insert w tbl columns params
        = (Ok (), {| con := append_row tbl (record_of t columns vals) (con w);
                     last_print := last_print w |}).
Proof.
  unfold execute_insert. destruct (bind_all params) as [vals|e]; [|eauto].
  destruct (insert_into_spec tbl columns vals (con w)) as [E|[E|(t & Ht & Hc & E)]];
    rewrite E; rewrite ?writer_eta; eauto 10.
Qed.

Lemma bind_all_cons p ps vs :
  bind_all (p :: ps) = Ok vs →
  ∃ v vs', p = Ok v ∧ bind_all ps = Ok vs' ∧ vs = v :: vs'.
Proof.
  cbn. destruct p as [v|]; [|done]. cbn.
  destruct (bind_all ps) as [vs'|]; [|done]. cbn. intros [= <-]. eauto.
Qed.

(** The identifier is the second value of a row. *)
Lemma telem_row_id now toma doc extra vals :
  bind_all (telem_row now toma doc ++ extra) = Ok vals →
  ∃ v0 rest, vals = v0 :: VText toma :: rest.
Proof.
  unfold telem_row. cbn [app]. intros H.
  apply bind_all_cons in H as (v0 & vs1 & _ & H & ->).
  apply bind_all_cons in H as (v1 & vs2 & [= <-] & _ & ->). eauto.
Qed.

Lemma col_index_lookup cs c i : col_index cs c = Some i → cs !! i = Some c.
Proof.
  revert i. induction cs as [|c' cs IH]; intros i; cbn; [done|].
  destruct (String.eqb_spec c' c) as [->|Hne].
  - by intros [= <-].
  - destruct (col_index cs c) as [j|]; [|done]. cbn. intros [= <-]. by apply IH.
Qed.

Lemma record_of_field t columns vals c i :
  col_index (col_names t) c = Some i →
  field (record_of t columns vals) i
  = default VNull ((list_to_map (zip columns vals) : gmap string value) !! c).
Proof.
  intros Hi%col_index_lookup. unfold field, record_of.
  by rewrite list_lookup_fmap, Hi.
Qed.

Lemma stored_id_record t now toma doc extra_cols extra vals :
  bind_all (telem_row now toma doc ++ extra) = Ok vals →
  stored_id t (record_of t (telem_columns ++ extra_cols) vals) = VText toma
  ∨ stored_id t (record_of t (telem_columns ++ extra_cols) vals) = VNull.
Proof.
  intros (v0 & rest & ->)%telem_row_id. unfold stored_id.
  destruct (col_index (col_names t) "toma") as [i|] eqn:Hi; [|by right].
  left. rewrite (record_of_field _ _ _ _ _ Hi). cbn [telem_columns app zip zip_with list_to_map foldr uncurry fst snd].
  rewrite lookup_insert_ne by discriminate. by rewrite lookup_insert_eq.
Qed.

Lemma no_reserved_append tbl t r d :
  no_reserved_rows d →
  tables d !! tbl = Some t →
  (∀ s, stored_id t r = VText s → s ∉ RESERVED_IDS) →
  no_reserved_rows (append_row tbl r d).
Proof.
  intros Hinv Ht Hr tbl' t' r' s Htbl. unfold append_row. rewrite Ht.
  cbn [tables set_table]. destruct (decide (tbl = tbl')) as [<-|Hne].
  - rewrite lookup_insert_eq. intros [= <-]. cbn [rows].
    intros [Hin|Hx%list_elem_of_singleton]%elem_of_app Hs.
    + by eapply (Hinv tbl t r').
    + subst r'. by apply Hr.
  - rewrite lookup_insert_ne by done. by apply Hinv.
Qed.

Lemma on_telem_stores w now msg :
  stores repr "toma_samples" w (on_telem repr w now msg) msg.
Proof.
  unfold on_telem, stores.
  destruct (topic_to_id (Mqtt.topic msg)) as [tid|] eqn:Hid;
    cbn [default from_option id]; [|cbn; by left].
  destruct (String.eqb tid ""); [by left|].
  case_bool_decide; [by left|].
  destruct (Mqtt.json msg) as [[| | | | | |doc]|] eqn:Hj; try by left.
  case_bool_decide as Hres; [by left|].
  unfold insert_telem.
  destruct (execute_insert_spec w "toma_samples" telem_columns
              (telem_row now (toma_norm_of repr doc tid) doc))
    as [[e E]|(vals & t & Hb & Ht & Hc & E)]; rewrite E; [by left|].
  right. exists tid, doc, t, (record_of t telem_columns vals).
  repeat split; try done.
  - cbn [snd]. unfold _maybe_print. by destruct (Qle_bool _ _).
  - rewrite <- (app_nil_r (telem_row _ _ _)) in Hb.
    pose proof (stored_id_record t _ _ _ [] _ _ Hb) as H'.
    by rewrite app_nil_r in H'.
Qed.

Lemma on_alert_stores w now msg :
  stores repr "alert_samples" w (on_alert repr w now msg) msg.
Proof.
  unfold on_alert, stores.
  destruct (topic_to_id (Mqtt.topic msg)) as [tid|] eqn:Hid;
    cbn [default from_option id]; [|cbn; by left].
  destruct (String.eqb tid ""); [by left|].
  destruct (Mqtt.json msg) as [[| | | | | |doc]|] eqn:Hj; try by left.
  case_bool_decide as Hres; [by left|].
  unfold insert_alert.
  destruct (execute_insert_spec w "alert_samples" (telem_columns ++ ["reason"%string])
              (telem_row now (toma_norm_of repr doc tid) doc ++ [bind_object (get doc "reason")]))
    as [[e E]|(vals & t & Hb & Ht & Hc & E)]; rewrite E; [by left|].
  right. exists tid, doc, t, (record_of t (telem_columns ++ ["reason"%string]) vals).
  repeat split; try done.
  - cbn [snd]. unfold _maybe_print. by destruct (Qle_bool _ _).
  - by eapply stored_id_record.
Qed.

Lemma stores_no_reserved kind w w' msg :
  kind ∈ outlet_tables → stores repr kind w w' msg →
  no_reserved_rows (con w) → no_reserved_rows (con w').
Proof.
  intros Hk [->|(id & doc & t & r & _ & _ & Hres & Ht & -> & Hid)] Hinv; [done|].
  apply (no_reserved_append _ t); [done..|].
  intros s Hs. destruct Hid as [Hid|Hid]; rewrite Hid in Hs; [|done].
  by injection Hs as <-.
Qed.

Lemma split_prefix (ns rest : string) :
  (∀ c, c ∈ list_ascii_of_string ns → c ≠ "/"%char) →
  split "/" (ns ++ String "/" rest) = ns :: split "/" rest.
Proof.
  induction ns as [|c ns IH]; intros Hns.
  - reflexivity.
  - change (String c ns +:+ String "/" rest)
      with (String c (ns +:+ String "/" rest)).
    cbn [split]. destruct (Ascii.eqb_spec c "/") as [->|Hne].
    + exfalso. eapply Hns; [|reflexivity]. cbn. by left.
    + rewrite IH; [done|]. intros c' Hc'. apply Hns. cbn. by right.
Qed.

Lemma display_reserved : bool_decide (lower "display" ∈ RESERVED_IDS) = true.
Proof. by vm_compute. Qed.

Lemma on_telem_display w now msg ns :
  (∀ c, c ∈ list_ascii_of_string ns → c ≠ "/"%char) →
  Mqtt.topic msg = (ns ++ "/display/telemetry")%string →
  on_telem repr w now msg = w.
Proof.
  intros Hns Ht. unfold on_telem.
  assert (Hid : topic_to_id (Mqtt.topic msg) = None
                ∨ topic_to_id (Mqtt.topic msg) = Some "display"%string).
  { unfold topic_to_id. rewrite Ht.
    change (ns +:+ "/display/telemetry")%string
      with (ns +:+ String "/" "display/telemetry")%string.
    rewrite (split_prefix ns "display/telemetry" Hns).
    change (split "/" "display/telemetry") with ["display"; "telemetry"]%string.
    destruct (_ && _); [by right | by left]. }
  destruct Hid as [->| ->]; cbn [default from_option id].
  - reflexivity.
  - change (String.eqb "display" "") with false. cbv iota.
    by rewrite display_reserved.
Qed.

(** C5. A callback of the ingestor either leaves the store as it was or
    appends one record to its table, stored under the identifier the
    message normalises to (payload field [toma], else [id], else the
    topic segment; trimmed, lower case), and that identifier is not
    reserved. So a store without reserved identifiers in the two outlet
    tables stays so whatever messages arrive, and a telemetry message
    on [<ns>/display/telemetry] changes nothing, whatever its
    payload. *)
Theorem reserved_ids_never_stored (w : Writer) (Hclean : no_reserved_rows (con w)) :
  (∀ now msg, stores repr "toma_samples" w (on_telem repr w now msg) msg)
  ∧ (∀ now msg, stores repr "alert_samples" w (on_alert repr w now msg) msg)
  ∧ (∀ es, no_reserved_rows (con (ingest repr w es)))
  ∧ (∀ now msg ns,
       (∀ c, c ∈ list_ascii_of_string ns → c ≠ "/"%char) →
       Mqtt.topic msg = (ns ++ "/display/telemetry")%string →
       on_telem repr w now msg = w).
Proof.
  split; [intros; apply on_telem_stores|].
  split; [intros; apply on_alert_stores|].
  split.
  - intros es. revert w Hclean. induction es as [|e es IH]; intros w Hclean; [done|].
    cbn. apply IH. destruct e as [now msg|now msg]; cbn.
    + eapply stores_no_reserved; [|apply on_telem_stores|done].
      apply elem_of_cons; by left.
    + eapply stores_no_reserved; [|apply on_alert_stores|done].
      apply elem_of_cons; right; apply elem_of_cons; by left.
  - intros now msg ns Hns Ht. by apply (on_telem_display w now msg ns).
Qed.

Lemma insert_into_run tbl columns vals d t :
  tables d !! tbl = Some t → Forall (λ c, c ∈ col_names t) columns →
  insert_into tbl columns vals d = (Ok (), append_row tbl (record_of t columns vals) d).
Proof.
  intros Ht Hc. unfold insert_into, append_row. rewrite Ht.
  assert (forallb (λ c, bool_decide (c ∈ col_names t)) columns = true) as ->; [|done].
  apply forallb_forall. intros c Hin. apply bool_decide_eq_true_2.
  rewrite Forall_forall in Hc. apply Hc. by apply list_elem_of_In.
Qed.

Lemma telem_row_values now toma doc vals :
  bind_all (telem_row now toma doc) = Ok vals →
  (safe_int (get doc "seq") = None → vals !! 2%nat = Some VNull)
  ∧ (safe_int (get doc "ms") = None → vals !! 3%nat = Some VNull)
  ∧ (safe_int (get doc "sim") = None → vals !! 4%nat = Some VNull)
  ∧ (safe_float (get doc "amperaje") = None → vals !! 6%nat = Some VNull)
  ∧ (safe_float (get doc "potencia_w") = None → vals !! 7%nat = Some VNull)
  ∧ (safe_int (get doc "rssi") = None → vals !! 9%nat = Some VNull).
Proof.
  unfold telem_row. intros H.
  repeat match type of H with
  | bind_all (_ :: _) = Ok _ =>
      let v := fresh "v" in let E := fresh "E" in
      apply bind_all_cons in H as (v & ? & E & H & ->)
  end.
  injection H as <-. cbn [lookup list_lookup].
  repeat split; intros Hn;
    match goal with E : _ = Ok ?v |- Some ?v = _ => rewrite Hn in E; by injection E as <- end.
Qed.

(** C9 (as amended). A message whose payload did not parse, or is not
    an object, or holds a value that cannot be bound to an SQL
    parameter, is dropped: the callbacks return with the writer as it
    was. A payload with non-numeric content in a numeric field is not
    dropped: [safe_int] and [safe_float] turn that field into NULL and
    the row is persisted. The callbacks never raise. *)
Theorem malformed_payload_handling (w : Writer) (now : Q) (msg : Mqtt.message) :
  ((Mqtt.json msg = None ∨ ∃ v, Mqtt.json msg = Some v ∧ ∀ doc, v ≠ PDict doc) →
     on_telem repr w now msg = w ∧ on_alert repr w now msg = w)
  ∧ (∀ tid doc e,
       topic_to_id (Mqtt.topic msg) = Some tid →
       Mqtt.json msg = Some (PDict doc) →
       bind_all (telem_row now (toma_norm_of repr doc tid) doc) = Raise e →
       on_telem repr w now msg = w ∧ on_alert repr w now msg = w)
  ∧ (∀ tid doc t vals,
       topic_to_id (Mqtt.topic msg) = Some tid → tid ≠ ""%string →
       lower tid ∉ RESERVED_IDS →
       Mqtt.json msg = Some (PDict doc) →
       toma_norm_of repr doc tid ∉ RESERVED_IDS →
       tables (con w) !! "toma_samples" = Some t →
       Forall (λ c, c ∈ col_names t) telem_columns →
       bind_all (telem_row now (toma_norm_of repr doc tid) doc) = Ok vals →
       con (on_telem repr w now msg)
         = append_row "toma_samples" (record_of t telem_columns vals) (con w)
       ∧ (safe_float (get doc "amperaje") = None → vals !! 6%nat = Some VNull)
       ∧ (safe_float (get doc "potencia_w") = None → vals !! 7%nat = Some VNull)
       ∧ (safe_int (get doc "seq") = None → vals !! 2%nat = Some VNull)
       ∧ (safe_int (get doc "rssi") = None → vals !! 9%nat = Some VNull))
  ∧ (∀ s, float_of_str s = None → safe_float (PStr s) = None)
  ∧ (∀ s, int_of_str s = None → safe_int (PStr s) = None)
  ∧ (∀ v, (∃ l, v = PList l) ∨ (∃ d, v = PDict d) →
       safe_float v = None ∧ safe_int v = None).
Proof.
  split; [|split; [|split; [|split; [|split]]]].
  - intros Hj. unfold on_telem, on_alert.
    destruct (default ""%string (topic_to_id (Mqtt.topic msg)) =? "")%string; [done|].
    destruct Hj as [->|(v & -> & Hv)].
    + by destruct (bool_decide _).
    + destruct v; try (by destruct (bool_decide _)). by destruct (Hv d).
  - intros tid doc e Hid Hj Hb. unfold on_telem, on_alert.
    rewrite Hid, Hj. cbn [default from_option id].
    destruct (String.eqb tid ""); [done|].
    assert (Hin : ∀ tbl cs extra,
               execute_insert w tbl cs
                  (telem_row now (toma_norm_of repr doc tid) doc ++ extra)
               = (Raise e, w)).
    { intros tbl cs extra. unfold execute_insert.
      assert (bind_all (telem_row now (toma_norm_of repr doc tid) doc ++ extra)
              = Raise e) as ->; [|done].
      revert Hb. generalize (telem_row now (toma_norm_of repr doc tid) doc).
      induction l as [|p l IH]; [done|]. cbn. destruct p as [v|e']; [|done]. cbn.
      destruct (bind_all l) as [vs|e'] eqn:El; [done|]. cbn.
      intros [= ->]. by rewrite IH. }
    split.
    + destruct (bool_decide (lower tid ∈ _)); [done|].
      destruct (bool_decide (toma_norm_of repr doc tid ∈ _)); [done|].
      unfold insert_telem. specialize (Hin "toma_samples"%string telem_columns []).
      rewrite app_nil_r in Hin. by rewrite Hin.
    + destruct (bool_decide (toma_norm_of repr doc tid ∈ _)); [done|].
      unfold insert_alert.
      specialize (Hin "alert_samples"%string (telem_columns ++ ["reason"%string])
                    [bind_object (get doc "reason")]).
      by rewrite Hin.
  - intros tid doc t vals Hid Hne Hr1 Hj Hr2 Ht Hc Hb.
    split; [|by apply telem_row_values in Hb as (? & ? & ? & ? & ? & ?)].
    unfold on_telem. rewrite Hid, Hj. cbn [default from_option id].
    rewrite (proj2 (String.eqb_neq _ _) Hne).
    rewrite !bool_decide_eq_false_2 by done.
    unfold insert_telem, execute_insert. rewrite Hb.
    rewrite (insert_into_run _ _ _ _ t Ht Hc). cbn [snd].
    unfold _maybe_print. by destruct (Qle_bool _ _).
  - intros s Hs. exact Hs.
  - intros s Hs. exact Hs.
  - intros v [[l ->]|[d ->]]; done.
Qed.
End Ingestor.

(** The invariant of C5 on a new file with a telemetry message for outlet
    1 and one for the display node. *)
Lemma reserved_ids_never_stored_witness :
  no_reserved_rows (IngestTomas.con Examples.writer0)
  ∧ no_reserved_rows
      (IngestTomas.con
         (IngestTomas.ingest Examples.repr_opaque Examples.writer0
            [IngestTomas.OnTelem 1700000000 Examples.telem_abc;
             IngestTomas.OnTelem 1700000001 Examples.telem_display])).
Proof.
  assert (H0 : no_reserved_rows (IngestTomas.con Examples.writer0)).
  { intros tbl t r s Htbl Ht Hr.
    assert (rows t = []) as Hrows.
    { apply elem_of_cons in Htbl as [->|Htbl];
        [|apply elem_of_cons in Htbl as [->|Htbl]; [|by apply elem_of_nil in Htbl]];
        vm_compute in Ht; by injection Ht as <-. }
    rewrite Hrows in Hr. by apply elem_of_nil in Hr. }
  split; [exact H0|].
  apply (reserved_ids_never_stored Examples.repr_opaque Examples.writer0 H0).
Defined.

(** C9 fails as stated: telemetry for outlet 1 whose [amperaje] is the
    text [abc] is not discarded; its row is persisted with NULL for the
    current. *)
Lemma non_numeric_field_is_persisted :
  IngestTomas.safe_float (PStr "abc") = None
  ∧ (∃ t, tables (IngestTomas.con Examples.writer0) !! "toma_samples" = Some t
          ∧ rows t = [])
  ∧ ∃ t, tables (IngestTomas.con
                   (IngestTomas.on_telem Examples.repr_opaque Examples.writer0
                      1700000000 Examples.telem_abc)) !! "toma_samples" = Some t
         ∧ rows t = [[VInt 1700000000; VText "toma1"; VInt 4; VNull; VNull; VNull;
                      VNull; VNull; VNull; VNull]].
Proof.
  split; [by vm_compute|]. split.
  - eexists. split; [by vm_compute | reflexivity].
  - eexists. split; [by vm_compute | reflexivity].
Qed.

(** ** The queries of the snapshot *)

Section Queries.

Lemma bind_Ok {A B} (m : outcome A) (f : A → outcome B) b :
  bind m f = Ok b → ∃ a, m = Ok a ∧ f a = Ok b.
Proof. destruct m as [a|e]; [eauto | done]. Qed.

Lemma bind_param_Ok {A} z (k : Z → outcome A) r :
  bind (bind_param z) k = Ok r → bind_param z = Ok z ∧ k z = Ok r.
Proof.
  unfold bind_param. destruct (_ && _); [|discriminate]. cbn. by split.
Qed.

Lemma for_loop_weaken {A S} (f g : S → A → outcome S) s l r :
  (∀ s1 x s2, f s1 x = Ok s2 → g s1 x = Ok s2) →
  for_loop f s l = Ok r → for_loop g s l = Ok r.
Proof.
  intros Hfg. revert s. induction l as [|x l IH]; intros s Hl; [exact Hl|].
  cbn in Hl |- *. destruct (f s x) as [s2|e] eqn:E; [|discriminate].
  rewrite (Hfg _ _ _ E). by apply IH.
Qed.

Lemma column_index t c i :
  col_index (col_names t) c = Some i → column t c = Ok (λ r, field r i).
Proof. unfold column. by intros ->. Qed.

Lemma column_Ok t c get :
  column t c = Ok get →
  ∃ i, col_index (col_names t) c = Some i ∧ get = (λ r, field r i).
Proof.
  unfold column. destruct (col_index (col_names t) c) as [i|]; [|done].
  intros [= <-]. eauto.
Qed.

Lemma star_lookup_gen (cs : list string) (g : nat → value) c :
  (list_to_map (imap (λ i c', (c', g i)) cs) : gmap string value) !! c
  = g <$> col_index cs c.
Proof.
  revert g. induction cs as [|c' cs IH]; intros g; [done|].
  cbn [imap list_to_map foldr uncurry fst snd col_index].
  destruct (String.eqb_spec c' c) as [->|Hne].
  - by rewrite lookup_insert_eq.
  - rewrite lookup_insert_ne by done.
    change (imap ((λ i c'0, (c'0, g i)) ∘ S) cs)
      with (imap (λ i c'0, (c'0, (g ∘ S) i)) cs).
    rewrite IH. by destruct (col_index cs c).
Qed.

(** A result row holds, under the name of a column, the field of the
    record at the position of that column. *)
Lemma star_lookup t r c :
  star t r !! c = (λ i, field r i) <$> col_index (col_names t) c.
Proof. unfold star. apply star_lookup_gen. Qed.

Lemma string_compare_refl s : String.compare s s = Eq.
Proof.
  induction s as [|c s IH]; [done|]. cbn.
  unfold Ascii.compare. by rewrite N.compare_refl.
Qed.

Lemma string_compare_eq s1 s2 : String.compare s1 s2 = Eq ↔ s1 = s2.
Proof.
  split; [apply String.compare_eq_iff | intros ->; apply string_compare_refl].
Qed.

Lemma value_compare_text_eq v s :
  v ≠ VNull → bool_decide (value_compare v (VText s) = Eq) = is_text s v.
Proof.
  intros Hv. destruct v as [|z|q|s']; cbn; try done.
  destruct (String.eqb_spec s' s) as [->|Hne].
  - apply bool_decide_eq_true_2. by apply string_compare_eq.
  - apply bool_decide_eq_false_2. by intros ?%string_compare_eq.
Qed.

Lemma where_toma t i tn :
  col_index (col_names t) "toma" = Some i →
  ∃ keep, where_holds t (WEq "toma" (VText tn)) = Ok keep
          ∧ ∀ r, keep r = is_text tn (field r i).
Proof.
  intros Hi. unfold where_holds. rewrite (column_index _ _ _ Hi).
  eexists. split; [reflexivity|]. intros r. cbn beta.
  destruct (field r i) as [|z|q|s]; [done|..].
  - by apply (value_compare_text_eq (VInt z)).
  - by apply (value_compare_text_eq (VReal q)).
  - by apply (value_compare_text_eq (VText s)).
Qed.

Lemma filter_ext_eq {A} (f g : A → bool) l :
  (∀ x, f x = g x) → List.filter f l = List.filter g l.
Proof. intros H. induction l as [|x l IH]; cbn; [done|]. by rewrite H, IH. Qed.

(** The first record of [ORDER BY key DESC] on integer keys carries the
    greatest key. *)
Lemma order_by_desc_head {A} (k : A → value) (l : list A) (zs : list Z) :
  k <$> l = VInt <$> zs →
  match order_by_desc k l with
  | [] => l = []
  | r :: _ => ∃ z, k r = VInt z ∧ z ∈ zs ∧ ∀ z', z' ∈ zs → (z' ≤ z)%Z
  end.
Proof.
  revert zs. induction l as [|x l IH]; intros zs Hk; [done|].
  destruct zs as [|z zs]; [done|]. cbn in Hk. injection Hk as Hx Hk.
  specialize (IH zs Hk). cbn [order_by_desc foldr].
  fold (order_by_desc k l).
  destruct (order_by_desc k l) as [|y l'] eqn:E.
  - cbn. subst l. destruct zs; [|done]. exists z. split; [done|].
    split; [by left|]. intros z' ->%list_elem_of_singleton. lia.
  - destruct IH as (zy & Hy & Hin & Hmax). cbn [insert_desc].
    rewrite Hx, Hy. cbn [value_compare].
    destruct (Z.compare_spec z zy) as [->|Hlt|Hgt].
    + exists zy. split; [done|]. split; [by left|].
      intros z' [->|Hz']%elem_of_cons; [lia | by apply Hmax].
    + exists zy. split; [done|]. split; [by right|].
      intros z' [->|Hz']%elem_of_cons; [lia | by apply Hmax].
    + exists z. split; [done|]. split; [by left|].
      intros z' [->|Hz']%elem_of_cons; [lia|]. specialize (Hmax z' Hz'). lia.
Qed.

Lemma distinct_text l s : VText s ∈ distinct l ↔ VText s ∈ l.
Proof.
  induction l as [|v l IH]; [done|]. cbn [distinct].
  rewrite !elem_of_cons, <- IH, list_elem_of_In, filter_In, <- list_elem_of_In.
  split.
  - intros [?|[? _]]; auto.
  - intros [?|Hin]; [by left|].
    destruct (decide (value_compare (VText s) v = Eq)) as [Heq|Hne].
    + left. destruct v; try done. cbn in Heq.
      by apply string_compare_eq in Heq as ->.
    + right. split; [done|]. by rewrite bool_decide_eq_false_2.
Qed.

Lemma truthy_names_spec l names :
  SnapshotDb.truthy_names l = Ok names →
  ∀ s, s ∈ names ↔ s ≠ ""%string ∧ VText s ∈ l.
Proof.
  revert names. induction l as [|v l IH]; intros names; cbn.
  - intros [= <-] s. rewrite !elem_of_nil. tauto.
  - destruct v as [|z|q|s']; try done.
    + intros H s. rewrite (IH _ H), elem_of_cons. intuition congruence.
    + intros (ns & Hns & H)%bind_Ok s. injection H as <-.
      specialize (IH _ Hns s). rewrite elem_of_cons.
      destruct (String.eqb_spec s' "") as [->|Hne].
      * rewrite IH. intuition congruence.
      * rewrite elem_of_cons, IH. intuition congruence.
Qed.

Lemma insert_sorted_elem x l s : s ∈ insert_sorted x l ↔ s = x ∨ s ∈ l.
Proof.
  induction l as [|y l IH]; cbn.
  - rewrite list_elem_of_singleton, elem_of_nil. tauto.
  - destruct (String.compare x y); rewrite !elem_of_cons, ?IH; tauto.
Qed.

Lemma sorted_elem l s : s ∈ sorted l ↔ s ∈ l.
Proof.
  induction l as [|x l IH]; [done|]. cbn [sorted foldr].
  fold (sorted l). rewrite insert_sorted_elem, elem_of_cons, IH. tauto.
Qed.

Lemma latest_query d t i j tn :
  tables d !! "toma_samples" = Some t →
  col_index (col_names t) "toma" = Some i →
  col_index (col_names t) "ts" = Some j →
  SnapshotDb._one (select_desc d "toma_samples" (WEq "toma" (VText tn)) "ts" 1)
  = Ok (default ∅ (star t <$> head (order_by_desc (λ r, field r j) (samples_of t i tn)))).
Proof.
  intros Ht Hi Hj. unfold SnapshotDb._one, SnapshotDb._rows_star, select_desc.
  rewrite Ht. destruct (where_toma t i tn Hi) as (keep & -> & Hkeep).
  rewrite (column_index _ _ _ Hj). cbn [bind fst snd].
  rewrite (filter_ext_eq keep (λ r, is_text tn (field r i))) by done.
  fold (samples_of t i tn). unfold limit. cbn [Z.ltb Z.compare Z.to_nat Pos.to_nat Pos.iter_op Nat.add].
  by destruct (order_by_desc _ _).
Qed.

Lemma latest_loop (Qf : string → outcome row) names (m0 lm : gmap string row) :
  for_loop (λ (m : gmap string row) tn,
      bind (Qf tn) (λ r, Ok (if bool_decide (r = ∅) then m else <[tn := r]> m)))
    m0 names = Ok lm →
  ∀ tn,
    (tn ∈ names →
       ∃ r, Qf tn = Ok r
            ∧ lm !! tn = if bool_decide (r = ∅) then m0 !! tn else Some r)
    ∧ (tn ∉ names → lm !! tn = m0 !! tn).
Proof.
  revert m0. induction names as [|n names IH]; intros m0; cbn [for_loop].
  - intros [= <-] tn. split; [by intros ?%elem_of_nil | done].
  - destruct (Qf n) as [r|e] eqn:Hq; [|done]. cbn [bind].
    intros Hloop tn. destruct (IH _ Hloop tn) as [Hin Hout].
    split.
    + intros Htn. destruct (decide (tn ∈ names)) as [Hrest|Hrest].
      * destruct (Hin Hrest) as (r' & Hr' & Hlm). exists r'. split; [done|].
        rewrite Hlm. case_bool_decide as Hr'e; [|done].
        case_bool_decide as Hre; [done|].
        destruct (decide (n = tn)) as [->|Hne]; [congruence|].
        by rewrite lookup_insert_ne.
      * apply elem_of_cons in Htn as [->|?]; [|done].
        exists r. split; [done|]. rewrite (Hout Hrest).
        case_bool_decide; [done|]. by rewrite lookup_insert_eq.
    + intros [Hne Hrest]%not_elem_of_cons. rewrite (Hout Hrest).
      case_bool_decide; [done|]. by rewrite lookup_insert_ne.
Qed.

Lemma by_ttl_loop {B} (f : row → outcome B) (l : list (string * row))
    (m0 bt : gmap string B) :
  NoDup l.*1 →
  for_loop (λ (m : gmap string B) (kv : string * row),
      bind (f kv.2) (λ e, Ok (<[kv.1 := e]> m)))
    m0 l = Ok bt →
  ∀ k, (∀ r, (k, r) ∈ l → ∃ e, f r = Ok e ∧ bt !! k = Some e)
       ∧ (k ∉ l.*1 → bt !! k = m0 !! k).
Proof.
  revert m0. induction l as [|[k0 r0] l IH]; intros m0 Hnd; cbn [for_loop].
  - intros [= <-] k. split; [by intros ? ?%elem_of_nil | done].
  - cbn in Hnd. apply NoDup_cons in Hnd as [Hk0 Hnd]. cbn [fst snd].
    destruct (f r0) as [e0|err] eqn:Hf; [|done]. cbn [bind].
    intros Hloop k. destruct (IH _ Hnd Hloop k) as [Hin Hout]. split.
    + intros r [[= -> ->]|Hr]%elem_of_cons.
      * exists e0. split; [done|].
        destruct (IH _ Hnd Hloop k0) as [_ Hout0].
        rewrite (Hout0 Hk0). by rewrite lookup_insert_eq.
      * by apply Hin.
    + cbn. intros [Hne Hrest]%not_elem_of_cons. rewrite (Hout Hrest).
      by rewrite lookup_insert_ne.
Qed.

Lemma liveness_of_int now ttl (r : row) z :
  SnapshotDb.rget r "ts" = VInt z →
  ∃ e, SnapshotDb.liveness_of now ttl r = Ok e
       ∧ SnapshotDb.l_ts e = z
       ∧ SnapshotDb.age_sec e = (if (z =? 0)%Z then 10 ^ 9 else now - z)%Z
       ∧ SnapshotDb.online e
         = (if (SnapshotDb.age_sec e <=? ttl)%Z then 1 else 0)%Z.
Proof.
  intros Hts. unfold SnapshotDb.liveness_of. rewrite Hts.
  cbn [SnapshotDb.int_or_0 bind]. eexists. split; [reflexivity|]. done.
Qed.

Lemma read_views_by_ttl d now path mr tp ttl snap t i j tn :
  SnapshotDb.read_views d now path mr tp ttl = Ok snap →
  tables d !! "toma_samples" = Some t →
  col_index (col_names t) "toma" = Some i →
  col_index (col_names t) "ts" = Some j →
  tn ≠ ""%string →
  ∃ by_ttl,
    SnapshotDb.derived snap = {[ "tomas_by_ttl"%string := by_ttl ]}
    ∧ match head (order_by_desc (λ r, field r j) (samples_of t i tn)) with
      | None => by_ttl !! tn = None
      | Some r =>
          ∃ e, SnapshotDb.liveness_of now ttl (star t r) = Ok e
               ∧ by_ttl !! tn = Some e
      end.
Proof.
  intros Hrv Ht Hi Hj Hne. unfold SnapshotDb.read_views in Hrv.
  apply bind_Ok in Hrv as (pi_latest & _ & Hrv).
  apply bind_Ok in Hrv as (net_latest & _ & Hrv).
  apply bind_Ok in Hrv as (net_series & _ & Hrv).
  apply bind_Ok in Hrv as (tomas & Htomas & Hrv).
  apply bind_Ok in Hrv as (names & Hnames & Hrv).
  apply bind_Ok in Hrv as (latest_map & Hlatest & Hrv).
  apply bind_Ok in Hrv as (series & _ & Hrv).
  apply bind_Ok in Hrv as (by_ttl & Hby & Hrv).
  apply bind_Ok in Hrv as (count & _ & Hrv).
  apply bind_Ok in Hrv as (groups & _ & Hrv).
  injection Hrv as <-. exists by_ttl. split; [done|].
  (* which names are listed *)
  unfold select_distinct in Htomas. rewrite Ht, (column_index _ _ _ Hi) in Htomas.
  injection Htomas as <-.
  pose proof (truthy_names_spec _ _ Hnames) as Hn.
  assert (Hlisted : tn ∈ sorted names ↔ samples_of t i tn ≠ []).
  { rewrite sorted_elem, Hn, distinct_text, list_elem_of_fmap.
    split.
    - intros [_ (r & Hr & Hin)]. intros Hnil.
      assert (r ∈ samples_of t i tn) as Hr'.
      { apply list_elem_of_In, filter_In. split; [by apply list_elem_of_In|].
        rewrite <- Hr. cbn. by rewrite String.eqb_refl. }
      rewrite Hnil in Hr'. by apply elem_of_nil in Hr'.
    - intros Hsome. split; [done|].
      destruct (samples_of t i tn) as [|r rest] eqn:Es; [done|].
      assert (r ∈ samples_of t i tn) as Hr by (rewrite Es; by left).
      apply list_elem_of_In, filter_In in Hr as [Hr Htext].
      exists r. split; [|by apply list_elem_of_In].
      destruct (field r i) as [| | |s']; try done. cbn in Htext.
      by apply String.eqb_eq in Htext as ->. }
  (* the latest row of each *)
  pose proof (latest_loop
    (λ tn, SnapshotDb._one (select_desc d "toma_samples" (WEq "toma" (VText tn)) "ts" 1))
    _ _ _ Hlatest tn) as [Hin Hout].
  pose proof (by_ttl_loop _ _ _ _ (NoDup_fst_map_to_list latest_map) Hby tn)
    as [Hbin Hbout].
  pose proof (order_by_desc_head (λ r, field r j) (samples_of t i tn)) as _.
  destruct (head (order_by_desc (λ r, field r j) (samples_of t i tn)))
    as [r|] eqn:Ehead.
  - assert (Hsome : samples_of t i tn ≠ []).
    { intros Hnil. rewrite Hnil in Ehead. done. }
    destruct (Hin (proj2 Hlisted Hsome)) as (r' & Hq & Hlm).
    rewrite (latest_query d t i j tn Ht Hi Hj), Ehead in Hq. cbn in Hq.
    injection Hq as <-.
    assert (Hne' : star t r ≠ ∅).
    { intros Hempty. pose proof (star_lookup t r "ts") as Hl.
      rewrite Hempty, lookup_empty, Hj in Hl. done. }
    rewrite bool_decide_eq_false_2 in Hlm by done.
    apply elem_of_map_to_list in Hlm. by apply Hbin.
  - rewrite Hbout, lookup_empty; [done|].
    intros (kv & Hk & Hkv)%list_elem_of_fmap. destruct kv as [k r]. cbn in Hk. subst k.
    apply elem_of_map_to_list in Hkv.
    destruct (decide (tn ∈ sorted names)) as [Hl|Hl].
    + destruct (Hin Hl) as (r' & Hq & Hlm).
      rewrite (latest_query d t i j tn Ht Hi Hj), Ehead in Hq. cbn in Hq.
      injection Hq as <-. rewrite bool_decide_eq_true_2, lookup_empty in Hlm by done.
      congruence.
    + rewrite (Hout Hl), lookup_empty in Hkv. done.
Qed.
End Queries.

(** ** Liveness in the snapshot *)

Section Liveness.

Lemma build_snapshot_reads d now path mr tp ttl snap fs' :
  SnapshotDb.build_snapshot (Some d) now path mr tp ttl = (Ok snap, fs') →
  ∃ d', SnapshotDb.read_views d' now path mr tp ttl = Ok snap
        ∧ ∀ n t, tables d !! n = Some t → tables d' !! n = Some t.
Proof.
  unfold SnapshotDb.build_snapshot.
  destruct ((SnapshotDb._connect ≫= λ _, SnapshotDb.ensure_schema) d)
    as [[u|e] d'] eqn:E; [|done].
  intros [= Hrv _]. exists d'. split; [done|].
  unfold mbind, sql_bind, SnapshotDb._connect, pragma_journal_wal in E.
  apply ensure_schema_ok in E as (-> & _ & _).
  intros n t Hn. cbn [tables provisioned_schema]. by apply lookup_union_Some_l.
Qed.

(** C1 (as amended). In a snapshot that was built, an outlet with a
    non-empty identifier and no stored sample has no entry in the
    derived map. An outlet with samples has one; its [ts] is the
    greatest stored timestamp; when that is not 0 its age is
    [now - ts], when it is 0 the age is [10^9]; and it is online (1)
    exactly when the age is at most the TTL, offline (0) otherwise. *)
Theorem build_snapshot_liveness (d : db) (now : Z) (path : string)
    (max_rows toma_points ttl : Z) (snap : SnapshotDb.snapshot) (fs' : option db)
    (t : table) (i j : nat) (tn : string)
    (Hbuild : SnapshotDb.build_snapshot (Some d) now path max_rows toma_points ttl
              = (Ok snap, fs'))
    (Ht : tables d !! "toma_samples" = Some t)
    (Hi : col_index (col_names t) "toma" = Some i)
    (Hj : col_index (col_names t) "ts" = Some j)
    (Hname : tn ≠ ""%string) :
  ∃ by_ttl,
    SnapshotDb.derived snap !! "tomas_by_ttl" = Some by_ttl
    ∧ (samples_of t i tn = [] → by_ttl !! tn = None)
    ∧ (∀ tss last,
         (λ r, field r j) <$> samples_of t i tn = VInt <$> tss →
         last ∈ tss → (∀ z, z ∈ tss → (z ≤ last)%Z) →
         ∃ e, by_ttl !! tn = Some e
              ∧ SnapshotDb.l_ts e = last
              ∧ (last ≠ 0%Z → SnapshotDb.age_sec e = (now - last)%Z)
              ∧ (last = 0%Z → SnapshotDb.age_sec e = (10 ^ 9)%Z)
              ∧ (SnapshotDb.online e = 1%Z ↔ (SnapshotDb.age_sec e ≤ ttl)%Z)
              ∧ (SnapshotDb.online e = 0%Z ↔ (SnapshotDb.age_sec e > ttl)%Z)).
Proof.
  apply build_snapshot_reads in Hbuild as (d' & Hrv & Hkeep).
  destruct (read_views_by_ttl d' now path max_rows toma_points ttl snap t i j tn
              Hrv (Hkeep _ _ Ht) Hi Hj Hname) as (by_ttl & Hd & Hhead).
  exists by_ttl. split; [by rewrite Hd, lookup_singleton_eq|]. split.
  - intros Hnil. by rewrite Hnil in Hhead.
  - intros tss last Hts Hlast Hmax.
    pose proof (order_by_desc_head (λ r, field r j) _ _ Hts) as Hord.
    destruct (order_by_desc _ (samples_of t i tn)) as [|r rest] eqn:Eo.
    { rewrite Hord in Hts. destruct tss; [by apply elem_of_nil in Hlast | done]. }
    cbn [head] in Hhead. destruct Hhead as (e & He & Hby).
    destruct Hord as (z & Hz & Hin & Hzmax).
    assert (z = last) as -> by (specialize (Hmax z Hin); specialize (Hzmax last Hlast); lia).
    assert (Hrget : SnapshotDb.rget (star t r) "ts" = VInt last).
    { unfold SnapshotDb.rget. by rewrite star_lookup, Hj. }
    destruct (liveness_of_int now ttl _ _ Hrget) as (e' & He' & Hl & Ha & Ho).
    rewrite He in He'. injection He' as <-.
    exists e. split; [done|]. split; [done|].
    rewrite Ho, Ha.
    split; [intros Hnz; by rewrite (proj2 (Z.eqb_neq _ _) Hnz)|].
    split; [by intros ->|].
    generalize (if (last =? 0)%Z then 10 ^ 9 else now - last)%Z. intros age.
    destruct (Z.leb_spec age ttl); split; split; intros; try done; lia.
Qed.

(** Scenario C: the last sample of outlet 1 is 15 seconds old and the
    TTL is 10; and outlet 2 has no sample. *)
Lemma build_snapshot_liveness_witness :
  ∃ snap fs' by_ttl e,
    SnapshotDb.build_snapshot (Some Examples.old_store) 1700000015
      "safegrid.db" 60 60 10 = (Ok snap, fs')
    ∧ SnapshotDb.derived snap !! "tomas_by_ttl" = Some by_ttl
    ∧ by_ttl !! "toma1" = Some e
    ∧ SnapshotDb.age_sec e = 15%Z ∧ SnapshotDb.online e = 0%Z
    ∧ by_ttl !! "toma2" = None.
Proof.
  assert (E : ∃ snap fs',
             SnapshotDb.build_snapshot (Some Examples.old_store) 1700000015
               "safegrid.db" 60 60 10 = (Ok snap, fs'))
    by (vm_compute; eauto).
  destruct E as (snap & fs' & E).
  assert (Ht : tables Examples.old_store !! "toma_samples"
               = Some {| cols := SnapshotDb.toma_samples_cols;
                         rows := [Examples.old_sample] |})
    by (vm_compute; reflexivity).
  assert (Hi : col_index (col_names {| cols := SnapshotDb.toma_samples_cols;
                                       rows := [Examples.old_sample] |}) "toma"
               = Some 1%nat) by (vm_compute; reflexivity).
  assert (Hj : col_index (col_names {| cols := SnapshotDb.toma_samples_cols;
                                       rows := [Examples.old_sample] |}) "ts"
               = Some 0%nat) by (vm_compute; reflexivity).
  pose proof (λ tn, build_snapshot_liveness Examples.old_store 1700000015
                "safegrid.db" 60 60 10 snap fs' _ 1 0 tn E Ht Hi Hj) as H.
  destruct (H "toma1"%string ltac:(done)) as (by_ttl & Hd & _ & Hsome).
  destruct (H "toma2"%string ltac:(done)) as (by_ttl' & Hd' & Hnone & _).
  rewrite Hd in Hd'. injection Hd' as <-.
  destruct (Hsome [1700000000%Z] 1700000000%Z)
    as (e & He & Hts & Hage & _ & Hon & Hoff).
  { vm_compute. reflexivity. }
  { by left. }
  { intros z ->%list_elem_of_singleton. lia. }
  exists snap, fs', by_ttl, e.
  split; [exact E|]. split; [exact Hd|]. split; [exact He|].
  assert (Hage' : SnapshotDb.age_sec e = 15%Z) by (rewrite Hage; lia).
  split; [exact Hage'|]. split.
  - apply Hoff. rewrite Hage'. lia.
  - apply Hnone. vm_compute. reflexivity.
Defined.

(** C1 fails as stated: for an outlet whose last stored sample carries
    the timestamp 0, with [now = 100], the reported age is [10^9] and
    not [now - 0 = 100]. *)
Lemma liveness_zero_timestamp :
  ∃ snap fs' by_ttl e,
    SnapshotDb.build_snapshot (Some Examples.epoch_store) 100
      "safegrid.db" 60 60 10 = (Ok snap, fs')
    ∧ SnapshotDb.derived snap !! "tomas_by_ttl" = Some by_ttl
    ∧ by_ttl !! "toma1" = Some e
    ∧ SnapshotDb.l_ts e = 0%Z
    ∧ SnapshotDb.age_sec e = 1000000000%Z
    ∧ SnapshotDb.age_sec e ≠ (100 - SnapshotDb.l_ts e)%Z.
Proof.
  eexists _, _, _, _. split; [vm_compute; reflexivity|].
  split; [vm_compute; reflexivity|]. split; [vm_compute; reflexivity|].
  split; [vm_compute; reflexivity|]. split; [vm_compute; reflexivity|].
  vm_compute. discriminate.
Qed.
End Liveness.

(** ** The publishing sampler over a run *)

Section PublishedRates.
Import Estadisticas.
Local Open Scope Q_scope.

Lemma mbps_of_bytes (n : Z) :
  inject_Z n * 8 / (INTERVAL * 1000000) * bytes_per_mbps == inject_Z n.
Proof. unfold INTERVAL, bytes_per_mbps. field. Qed.

Lemma on_message_bytes l now msg tp (get : latest → Z) :
  (tp = TOPIC_TOMA1_TELEM ∧ get = bytes_telem)
  ∨ (tp = TOPIC_TOMA1_ALERT ∧ get = bytes_alert)
  ∨ (tp = TOPIC_TOMA1_STATUS ∧ get = bytes_status) →
  get (_on_message l now msg)
  = (get l + (if String.eqb (Mqtt.topic msg) tp
              then Z.of_nat (String.length (Mqtt.payload msg)) else 0))%Z.
Proof.
  intros [[-> ->]|[[-> ->]|[-> ->]]]; unfold _on_message;
    destruct (String.eqb_spec (Mqtt.topic msg) TOPIC_TOMA1_TELEM) as [E1|E1];
    destruct (String.eqb_spec (Mqtt.topic msg) TOPIC_TOMA1_ALERT) as [E2|E2];
    destruct (String.eqb_spec (Mqtt.topic msg) TOPIC_TOMA1_STATUS) as [E3|E3];
    cbn; try lia;
    try (rewrite E1 in E2; discriminate E2);
    try (rewrite E1 in E3; discriminate E3);
    try (rewrite E2 in E3; discriminate E3).
Qed.

Lemma run_cons c e es :
  run c (e :: es) = match step c e with Ok c' => run c' es | Raise err => Raise err end.
Proof. reflexivity. Qed.

(** Every byte of outlet telemetry that arrives is reported once: in a
    run whose iterations all complete, the bytes in the window at the
    start plus the payload bytes delivered on the telemetry topic
    equal the bytes behind the telemetry rates of the iterations plus
    the bytes left in the window; the same holds for the alert
    topic. *)
Theorem window_bytes_conserved (c c' : loop_state * latest) (es : list event)
  (Hrun : run c es = Ok c') :
  inject_Z (bytes_telem c.2 + delivered TOPIC_TOMA1_TELEM es)
    == Qsum ((λ o, telem_mbps o * bytes_per_mbps) <$> outputs c es)
       + inject_Z (bytes_telem c'.2)
  ∧ inject_Z (bytes_alert c.2 + delivered TOPIC_TOMA1_ALERT es)
    == Qsum ((λ o, alert_mbps o * bytes_per_mbps) <$> outputs c es)
       + inject_Z (bytes_alert c'.2).
Proof.
  revert c Hrun. induction es as [|e es IH]; intros c Hrun.
  - injection Hrun as <-. cbn. rewrite !Z.add_0_r, !Qplus_0_l. split; reflexivity.
  - rewrite run_cons in Hrun. destruct e as [now msg|s].
    + cbn [step] in Hrun. specialize (IH _ Hrun).
      cbn [outputs delivered]. cbn [fst snd] in IH.
      rewrite (on_message_bytes _ _ _ TOPIC_TOMA1_TELEM bytes_telem) in IH by auto.
      rewrite (on_message_bytes _ _ _ TOPIC_TOMA1_ALERT bytes_alert) in IH by auto.
      rewrite !Z.add_assoc. exact IH.
    + cbn [step] in Hrun. cbn [outputs delivered].
      destruct (tick c.1 c.2 s) as [[[o|err] st'] l'] eqn:Ht; [|discriminate].
      specialize (IH _ Hrun). cbn [fst snd] in IH.
      apply tick_inv in Ht as (_ & _ & Htel & Hal & -> & _).
      destruct (read_and_reset_window c.2) as (Z1 & Z2 & _).
      rewrite Z1, Z2, !Z.add_0_l in IH. destruct IH as [IH1 IH2].
      unfold Qsum in *. rewrite !fmap_cons. cbn [foldr].
      rewrite Htel, Hal, !mbps_of_bytes, !inject_Z_plus.
      rewrite IH1, IH2. split; ring.
Qed.

Lemma window_bytes_conserved_witness :
  ∃ c',
    run (Examples.loop0, latest_toma1)
        [Deliver 0 Examples.telem_empty; Tick Examples.sample_idle;
         Deliver 1 Examples.telem_empty] = Ok c'
    ∧ bytes_telem c'.2 = 2%Z
    ∧ inject_Z (0 + 4)
      == Qsum ((λ o, telem_mbps o * bytes_per_mbps)
                 <$> outputs (Examples.loop0, latest_toma1)
                       [Deliver 0 Examples.telem_empty; Tick Examples.sample_idle;
                        Deliver 1 Examples.telem_empty])
         + inject_Z (bytes_telem c'.2).
Proof.
  eexists. split; [reflexivity|]. split; [reflexivity|].
  exact (proj1 (window_bytes_conserved (Examples.loop0, latest_toma1) _
                  [Deliver 0 Examples.telem_empty; Tick Examples.sample_idle;
                   Deliver 1 Examples.telem_empty] eq_refl)).
Defined.

Lemma on_message_bytes_nonneg l now msg :
  (0 ≤ bytes_telem l)%Z ∧ (0 ≤ bytes_alert l)%Z →
  (0 ≤ bytes_telem (_on_message l now msg))%Z
  ∧ (0 ≤ bytes_alert (_on_message l now msg))%Z.
Proof.
  intros [H1 H2].
  rewrite (on_message_bytes _ _ _ TOPIC_TOMA1_TELEM bytes_telem) by auto.
  rewrite (on_message_bytes _ _ _ TOPIC_TOMA1_ALERT bytes_alert) by auto.
  split; destruct (String.eqb _ _); lia.
Qed.

Lemma run_bytes_nonneg c es c' :
  (0 ≤ bytes_telem c.2)%Z ∧ (0 ≤ bytes_alert c.2)%Z →
  run c es = Ok c' →
  (0 ≤ bytes_telem c'.2)%Z ∧ (0 ≤ bytes_alert c'.2)%Z.
Proof.
  revert c. induction es as [|e es IH]; intros c Hc Hrun.
  - injection Hrun as <-. exact Hc.
  - rewrite run_cons in Hrun. destruct e as [now msg|s]; cbn [step] in Hrun.
    + apply (IH (c.1, _on_message c.2 now msg)); [|exact Hrun].
      apply (on_message_bytes_nonneg _ now msg Hc).
    + destruct (tick c.1 c.2 s) as [[[o|err] st'] l'] eqn:Ht; [|discriminate].
      apply (IH (st', l')); [|exact Hrun].
      apply tick_inv in Ht as (_ & _ & _ & _ & -> & _).
      cbn [snd]. destruct (read_and_reset_window c.2) as (-> & -> & _). split; reflexivity.
Qed.

Lemma bytes_rate_nonneg (n : Z) :
  (0 ≤ n)%Z → 0 <= inject_Z n * 8 / (INTERVAL * 1000000).
Proof.
  intros Hn. unfold Qdiv. apply Qmult_le_0_compat; [|discriminate].
  apply Qmult_le_0_compat; [|discriminate].
  change 0 with (inject_Z 0). rewrite <- Zle_Qle. exact Hn.
Qed.

Lemma shaper_step_nonneg st tc hi med low lasts :
  shaper_step st tc = (hi, med, low, lasts) →
  0 <= default 0 hi ∧ 0 <= default 0 med ∧ ∀ r, low = Some r → 0 <= r.
Proof.
  unfold shaper_step. destruct (bool_decide _).
  - intros [= <- <- <- _]. repeat split.
    + destruct (rate_mbps _ (last_hi st)) eqn:E; [|apply Qle_refl].
      apply (rate_mbps_nonneg _ _ _ E).
    + destruct (rate_mbps _ (last_med st)) eqn:E; [|apply Qle_refl].
      apply (rate_mbps_nonneg _ _ _ E).
    + intros r E. apply (rate_mbps_nonneg _ _ _ E).
  - intros [= <- <- <- _]. repeat split; try apply Qle_refl. discriminate.
Qed.

(** No rate the loop publishes is negative. Starting with
    non-negative byte counters (as the program does), after any run of
    deliveries and iterations the next iteration that completes
    yields a total, a telemetry and an alert rate and three class
    rates that are all at least 0. *)
Theorem published_rates_nonneg (c c' : loop_state * latest) (es : list event)
    (s : sample) (o : tick_out) (st' : loop_state) (l' : latest)
    (Hstart : (0 ≤ bytes_telem c.2)%Z ∧ (0 ≤ bytes_alert c.2)%Z)
    (Hrun : run c es = Ok c')
    (Htick : tick c'.1 c'.2 s = (Ok o, st', l')) :
  0 <= total_mbps o ∧ 0 <= telem_mbps o ∧ 0 <= alert_mbps o
  ∧ 0 <= hi_mbps o ∧ 0 <= med_mbps o ∧ 0 <= low_mbps o.
Proof.
  destruct (run_bytes_nonneg _ _ _ Hstart Hrun) as [Ht Ha].
  pose proof (tick_ok _ _ _ _ _ _ Htick) as Hsel.
  destruct (tick_inv _ _ _ _ _ _ Htick) as (_ & Htot & Htel & Hal & _).
  assert (H0 : 0 <= total_mbps o) by (rewrite Htot; apply py_max_nonneg_r).
  assert (H1 : 0 <= telem_mbps o) by (rewrite Htel; apply bytes_rate_nonneg, Ht).
  assert (H2 : 0 <= alert_mbps o) by (rewrite Hal; apply bytes_rate_nonneg, Ha).
  split; [exact H0|]. split; [exact H1|]. split; [exact H2|].
  destruct (shaper_step c'.1 (s_tc s)) as [[[hi_tc med_tc] low_tc] lasts] eqn:Hsh.
  destruct (shaper_step_nonneg _ _ _ _ _ _ Hsh) as (Hh & Hm & Hl).
  unfold select_source in Hsel.
  destruct (bool_decide (hi_tc ≠ None) || bool_decide (med_tc ≠ None)
            || bool_decide (low_tc ≠ None)).
  - injection Hsel as -> -> -> _. split; [exact Hh|]. split; [exact Hm|].
    destruct low_tc as [r|]; [apply Hl; reflexivity | apply py_max_nonneg_r].
  - injection Hsel as -> -> -> _.
    split; [apply bytes_rate_nonneg, Ha|]. split; [apply bytes_rate_nonneg, Ht|].
    apply py_max_nonneg_r.
Qed.

Lemma published_rates_nonneg_witness :
  ∃ o st' l',
    tick Examples.loop0 Examples.window_b Examples.sample_idle = (Ok o, st', l')
    ∧ 0 <= hi_mbps o ∧ 0 <= low_mbps o.
Proof.
  eexists _, _, _. split; [reflexivity|].
  assert (Hs : (0 ≤ 250000)%Z ∧ (0 ≤ 125000)%Z) by (split; lia).
  destruct (published_rates_nonneg (Examples.loop0, Examples.window_b)
              (Examples.loop0, Examples.window_b) [] Examples.sample_idle _ _ _
              Hs eq_refl eq_refl) as (_ & _ & _ & Hh & _ & Hl).
  split; [exact Hh | exact Hl].
Defined.

(** The source tag is the shaper's exactly when some class has a
    counter in this reading and in the last one kept, and the counter
    did not go down; in particular never while no counter is kept from
    an earlier reading. *)
Theorem qos_source_shaper_iff (st : loop_state) (l : latest) (s : sample)
    (o : tick_out) (st' : loop_state) (l' : latest)
    (Htick : tick st l s = (Ok o, st', l')) :
  (qos_src o = "tc"%string ↔
     ∃ cid last cur prev,
       (cid, last) ∈ [(CLASS_HIGH, last_hi st); (CLASS_MED, last_med st);
                      (CLASS_LOW, last_low st)]
       ∧ s_tc s !! cid = Some cur ∧ last = Some prev ∧ (prev ≤ cur)%Z)
  ∧ (qos_src o = "tc"%string ∨ qos_src o = "mqtt"%string)
  ∧ (last_hi st = None → last_med st = None → last_low st = None →
     qos_src o = "mqtt"%string).
Proof.
  pose proof (tick_ok _ _ _ _ _ _ Htick) as Hsel.
  assert (Hrate : ∀ c p, rate_mbps c p ≠ None ↔
            ∃ cur prev, c = Some cur ∧ p = Some prev ∧ (prev ≤ cur)%Z).
  { intros c p. unfold rate_mbps. destruct c as [cur|], p as [prev|].
    - destruct (Z.ltb_spec (cur - prev) 0).
      + split; [intros H'; by destruct H'|]. intros (a & b & [= <-] & [= <-] & ?). lia.
      + split; [|discriminate]. intros _. exists cur, prev. repeat split. lia.
    - split; [intros H'; by destruct H'|]. intros (a & b & _ & [=] & _).
    - split; [intros H'; by destruct H'|]. intros (a & b & [=] & _).
    - split; [intros H'; by destruct H'|]. intros (a & b & [=] & _). }
  assert (Hiff : qos_src o = "tc"%string ↔
            ∃ cid last cur prev,
              (cid, last) ∈ [(CLASS_HIGH, last_hi st); (CLASS_MED, last_med st);
                             (CLASS_LOW, last_low st)]
              ∧ s_tc s !! cid = Some cur ∧ last = Some prev ∧ (prev ≤ cur)%Z).
  { unfold shaper_step in Hsel. destruct (bool_decide (s_tc s ≠ ∅)) eqn:Hne.
    - unfold select_source in Hsel.
      destruct (bool_decide (rate_mbps (s_tc s !! CLASS_HIGH) (last_hi st) ≠ None))
        eqn:E1;
      [|destruct (bool_decide (rate_mbps (s_tc s !! CLASS_MED) (last_med st) ≠ None))
          eqn:E2;
        [|destruct (bool_decide (rate_mbps (s_tc s !! CLASS_LOW) (last_low st) ≠ None))
            eqn:E3]];
      cbn [orb] in Hsel; injection Hsel as _ _ _ Hs; rewrite Hs.
      + split; [intros _|reflexivity].
        apply bool_decide_eq_true in E1. apply Hrate in E1 as (cur & prev & ? & ? & ?).
        exists CLASS_HIGH, (last_hi st), cur, prev.
        split; [apply list_elem_of_here|]. auto.
      + split; [intros _|reflexivity].
        apply bool_decide_eq_true in E2. apply Hrate in E2 as (cur & prev & ? & ? & ?).
        exists CLASS_MED, (last_med st), cur, prev.
        split; [apply list_elem_of_further, list_elem_of_here|]. auto.
      + split; [intros _|reflexivity].
        apply bool_decide_eq_true in E3. apply Hrate in E3 as (cur & prev & ? & ? & ?).
        exists CLASS_LOW, (last_low st), cur, prev.
        split; [do 2 apply list_elem_of_further; apply list_elem_of_here|]. auto.
      + split; [discriminate|].
        apply bool_decide_eq_false in E1, E2, E3.
        intros (cid & last & cur & prev & Hin & Hc & Hl & Hle).
        assert (Hr : rate_mbps (s_tc s !! cid) last ≠ None).
        { apply Hrate. exists cur, prev. auto. }
        apply list_elem_of_In in Hin. cbn in Hin.
        destruct Hin as [[= <- <-]|[[= <- <-]|[[= <- <-]|[]]]]; tauto.
    - cbn in Hsel. injection Hsel as _ _ _ Hs. rewrite Hs.
      split; [discriminate|].
      apply bool_decide_eq_false in Hne.
      intros (cid & last & cur & prev & _ & Hc & _).
      exfalso. apply Hne. intros E. rewrite E in Hc. by rewrite lookup_empty in Hc. }
  split; [exact Hiff|]. split.
  - revert Hsel. destruct (shaper_step st (s_tc s)) as [[[h m'] lo] la].
    unfold select_source. destruct (_ || _); intros [= _ _ _ ->]; auto.
  - intros H1 H2 H3.
    assert (Hn : qos_src o ≠ "tc"%string).
    { intros Htc. apply Hiff in Htc as (cid & last & cur & prev & Hin & _ & Hl & _).
      apply list_elem_of_In in Hin. cbn in Hin. rewrite H1, H2, H3 in Hin.
      destruct Hin as [[= _ <-]|[[= _ <-]|[[= _ <-]|[]]]]; discriminate. }
    revert Hsel Hn. destruct (shaper_step st (s_tc s)) as [[[h m'] lo] la].
    unfold select_source. destruct (_ || _); intros [= _ _ _ ->]; [congruence|auto].
Qed.

Lemma qos_source_shaper_iff_witness :
  ∃ o st' l',
    tick Examples.loop0 Examples.window_b Examples.sample_idle = (Ok o, st', l')
    ∧ qos_src o = "mqtt"%string.
Proof.
  eexists _, _, _. split; [reflexivity|].
  exact (proj2 (proj2 (qos_source_shaper_iff Examples.loop0 Examples.window_b
                         Examples.sample_idle _ _ _ eq_refl))
           eq_refl eq_refl eq_refl).
Defined.
End PublishedRates.
(** ** When the published CPU percentage is a percentage *)

Section CpuAgreement.
Import Estadisticas.
Local Open Scope Q_scope.

Lemma busy_share (dt di : Z) :
  (0 < dt)%Z →
  100 * (1 - inject_Z di / inject_Z dt)
  == inject_Z (dt - di) / inject_Z dt * 100.
Proof.
  intros Hdt. unfold Z.sub. rewrite inject_Z_plus, inject_Z_opp. field.
  intros E. change 0 with (inject_Z 0) in E. apply (proj1 (inject_Z_injective dt 0)) in E. lia.
Qed.

Lemma share_bounds (dt di : Z) :
  (0 < dt)%Z →
  (0 <= inject_Z (dt - di) / inject_Z dt * 100 ↔ (di ≤ dt)%Z)
  ∧ (inject_Z (dt - di) / inject_Z dt * 100 <= 100 ↔ (0 ≤ di)%Z).
Proof.
  intros Hdt.
  assert (Hpos : 0 < inject_Z dt).
  { change 0 with (inject_Z 0). rewrite <- Zlt_Qlt. exact Hdt. }
  assert (Hx : inject_Z (dt - di) / inject_Z dt * inject_Z dt == inject_Z (dt - di)).
  { field. intros E. rewrite E in Hpos. apply (Qlt_irrefl _ Hpos). }
  set (x := inject_Z (dt - di) / inject_Z dt) in *.
  assert (H0 : 0 <= x ↔ (di ≤ dt)%Z).
  { rewrite <- (Qmult_le_r 0 x _ Hpos), Hx, Qmult_0_l.
    change 0 with (inject_Z 0). rewrite <- Zle_Qle. lia. }
  assert (H1 : x <= 1 ↔ (0 ≤ di)%Z).
  { rewrite <- (Qmult_le_r x 1 _ Hpos), Hx, Qmult_1_l.
    rewrite <- Zle_Qle. lia. }
  assert (Ha : 0 <= x * 100 ↔ 0 <= x).
  { rewrite <- (Qmult_le_r 0 x 100) by reflexivity. rewrite Qmult_0_l. reflexivity. }
  assert (Hb : x * 100 <= 100 ↔ x <= 1).
  { rewrite <- (Qmult_le_r x 1 100) by reflexivity. rewrite Qmult_1_l. reflexivity. }
  rewrite Ha, Hb, H0, H1. tauto.
Qed.

(** The unclamped percentage of [estadisticas.py] is a percentage only
    for some readings. In an iteration that completes after the total
    time advanced (by less than 2^53 ticks, the range in which the
    quotient of the two integers is computed without reaching 0 or 1
    by rounding), the value lies in [0, 100] exactly when the idle
    time advanced by no less than 0 and by no more than the total did;
    it is above 100 when the idle time went back and below 0 when the
    idle time advanced by more than the total. *)
Theorem cpu_pct_in_range_iff (st : loop_state) (l : latest) (s : sample)
    (o : tick_out) (st' : loop_state) (l' : latest)
    (Htick : tick st l s = (Ok o, st', l'))
    (Hadv : ((s_cpu s).1 - t0_total st > 0)%Z)
    (Hsmall : ((s_cpu s).1 - t0_total st < 2 ^ 53)%Z) :
  (0 <= cpu_pct o <= 100
     ↔ (0 ≤ (s_cpu s).2 - t0_idle st ≤ (s_cpu s).1 - t0_total st)%Z)
  ∧ (((s_cpu s).2 - t0_idle st < 0)%Z ↔ 100 < cpu_pct o)
  ∧ (((s_cpu s).1 - t0_total st < (s_cpu s).2 - t0_idle st)%Z ↔ cpu_pct o < 0).
Proof.
  destruct (tick_inv _ _ _ _ _ _ Htick) as (Hcpu & _).
  destruct (Z.leb_spec ((s_cpu s).1 - t0_total st) 0) as [?|Hdt]; [lia|].
  assert (Hval : cpu_pct o == inject_Z ((s_cpu s).1 - t0_total st - ((s_cpu s).2 - t0_idle st))
                              / inject_Z ((s_cpu s).1 - t0_total st) * 100).
  { rewrite Hcpu. apply busy_share, Hdt. }
  destruct (share_bounds _ ((s_cpu s).2 - t0_idle st) Hdt) as [Hlo Hhi].
  rewrite <- Hval in Hlo, Hhi.
  split; [|split].
  - rewrite Hlo, Hhi. lia.
  - split.
    + intros Hneg. apply Qnot_le_lt. intros Hc. apply Hhi in Hc. lia.
    + intros Hgt. destruct (Z.ltb_spec ((s_cpu s).2 - t0_idle st) 0) as [|Hge]; [done|].
      apply Hhi in Hge. exfalso. apply (Qlt_not_le _ _ Hgt Hge).
  - split.
    + intros Hover. apply Qnot_le_lt. intros Hc. apply Hlo in Hc. lia.
    + intros Hneg. destruct (Z.ltb_spec ((s_cpu s).1 - t0_total st)
                               ((s_cpu s).2 - t0_idle st)) as [|Hge]; [done|].
      apply Hlo in Hge. exfalso. apply (Qlt_not_le _ _ Hneg Hge).
Qed.

Lemma cpu_pct_in_range_iff_witness :
  ∃ o st' l',
    tick Examples.loop0 latest_toma1 Examples.sample_idle = (Ok o, st', l')
    ∧ 0 <= cpu_pct o <= 100.
Proof.
  eexists _, _, _. split; [reflexivity|].
  assert (Hadv : (200 - 100 > 0)%Z) by lia.
  assert (Hsmall : (200 - 100 < 2 ^ 53)%Z) by lia.
  assert (Hr : (0 ≤ 100 - 50 ≤ 200 - 100)%Z) by lia.
  exact (proj2 (proj1 (cpu_pct_in_range_iff Examples.loop0 latest_toma1
                         Examples.sample_idle _ _ _ eq_refl Hadv Hsmall)) Hr).
Defined.
End CpuAgreement.
(** ** The writing sampler and its store *)

Section WriterStore.
Import StatsWriterStore.
Local Open Scope Q_scope.

Variable CAP : Q.
Variables CLASS_HIGH CLASS_MED CLASS_LOW : string.

Lemma append_row_lookup tbl r d n :
  tables (append_row tbl r d) !! n
  = if decide (n = tbl)
    then (λ t, {| cols := cols t; rows := rows t ++ [r] |}) <$> tables d !! tbl
    else tables d !! n.
Proof.
  unfold append_row. destruct (tables d !! tbl) as [t|] eqn:E.
  - cbn [set_table tables]. destruct (decide (n = tbl)) as [->|Hne].
    + by rewrite lookup_insert_eq.
    + by rewrite lookup_insert_ne.
  - destruct (decide (n = tbl)) as [->|Hne]; [by rewrite E | reflexivity].
Qed.

Lemma append_row_frame tbl r d :
  indexes (append_row tbl r d) = indexes d
  ∧ journal (append_row tbl r d) = journal d.
Proof. unfold append_row. destruct (tables d !! tbl); split; reflexivity. Qed.

Lemma col_index_elem cs c : c ∈ cs → ∃ i, col_index cs c = Some i.
Proof.
  induction cs as [|c' cs IH]; [by intros ?%elem_of_nil|].
  intros Hin. cbn [col_index]. destruct (String.eqb_spec c' c) as [->|Hne]; [eauto|].
  apply elem_of_cons in Hin as [->|Hin]; [done|].
  destruct (IH Hin) as [i ->]. eauto.
Qed.

Lemma delete_lt_ok tbl c v d u d' :
  delete_lt tbl c v d = (Ok u, d') →
  ∃ t j, tables d !! tbl = Some t ∧ col_index (col_names t) c = Some j
         ∧ d' = set_table tbl
                  {| cols := cols t;
                     rows := List.filter (λ r, negb (lt_holds (field r j) v)) (rows t) |} d.
Proof.
  unfold delete_lt. destruct (tables d !! tbl) as [t|]; [|discriminate].
  destruct (column t c) as [get|e] eqn:Hc; [|discriminate].
  apply column_Ok in Hc as (j & Hj & ->). intros [= <-]. eauto.
Qed.


Lemma writer_execute_insert_ok tbl columns params d u d' :
  execute_insert tbl columns params d = (Ok u, d') →
  ∃ vals t,
    IngestTomas.bind_all params = Ok vals
    ∧ tables d !! tbl = Some t
    ∧ Forall (λ c, c ∈ col_names t) columns
    ∧ d' = append_row tbl (record_of t columns vals) d.
Proof.
  unfold execute_insert. destruct (IngestTomas.bind_all params) as [vals|e]; [|discriminate].
  intros Hins.
  destruct (insert_into_spec tbl columns vals d) as [E|[E|(t & Ht & Hc & E)]];
    rewrite E in Hins; try discriminate.
  injection Hins as <-. eauto 10.
Qed.

Lemma bind_int_Ok z v : IngestTomas.bind_int z = Ok v → v = VInt z ∧ IngestTomas.int64 z = true.
Proof. unfold IngestTomas.bind_int. destruct (IngestTomas.int64 z); [|discriminate]. by intros [= <-]. Qed.

Lemma pi_row_Ok ts c ru rt t up vals :
  IngestTomas.bind_all (pi_row ts c ru rt t up) = Ok vals →
  vals = [VInt ts; VReal c; VReal ru; VReal rt; VReal t; VInt up]
  ∧ IngestTomas.int64 ts = true ∧ IngestTomas.int64 up = true.
Proof.
  unfold pi_row, IngestTomas.bind_int. cbn.
  destruct (IngestTomas.int64 ts); [|discriminate]. cbn.
  destruct (IngestTomas.int64 up); [|discriminate]. cbn. by intros [= <-].
Qed.

Lemma net_row_Ok ts hi med low vals :
  IngestTomas.bind_all (net_row CAP ts hi med low) = Ok vals →
  vals = [VInt ts; VReal hi; VReal med; VReal low; VReal CAP; VText QOS_SRC].
Proof.
  unfold net_row, IngestTomas.bind_int. cbn.
  destruct (IngestTomas.int64 ts); [|discriminate]. cbn. by intros [= <-].
Qed.

Lemma filter_snoc_keep {A} (f : A → bool) l x :
  f x = true → List.filter f (l ++ [x]) = List.filter f l ++ [x].
Proof. intros Hx. rewrite List.filter_app. cbn. by rewrite Hx. Qed.

Lemma lt_holds_int z cutoff :
  negb (lt_holds (VInt z) (VInt cutoff)) = true ↔ (cutoff ≤ z)%Z.
Proof.
  cbn. rewrite negb_true_iff, bool_decide_eq_false.
  destruct (Z.compare_spec z cutoff); split; intros; try lia; try done.
Qed.

(** The sample of a table after an iteration: the records [l] it
    held and the new record [new], without those older than the
    cutoff. *)
Lemma pruned_rows (l : list (list value)) (new : list value) (j : nat) (ts : Z) :
  field new j = VInt ts →
  let kept := List.filter (λ r, negb (lt_holds (field r j) (VInt (ts - 1800))))
                (l ++ [new]) in
  last kept = Some new
  ∧ (∀ r, r ∈ kept → r ∈ l ∨ r = new)
  ∧ (∀ r z, r ∈ l → field r j = VInt z → (r ∈ kept ↔ (ts - 1800 ≤ z)%Z))
  ∧ (∀ r z, r ∈ kept → field r j = VInt z → (ts - 1800 ≤ z)%Z).
Proof.
  intros Hnew kept.
  assert (Hk : negb (lt_holds (field new j) (VInt (ts - 1800))) = true).
  { rewrite Hnew. apply lt_holds_int. lia. }
  assert (Hin : ∀ r, r ∈ kept ↔ (r ∈ l ∨ r = new)
                     ∧ negb (lt_holds (field r j) (VInt (ts - 1800))) = true).
  { intros r. subst kept. rewrite list_elem_of_In, filter_In, <- list_elem_of_In.
    rewrite elem_of_app, list_elem_of_singleton. reflexivity. }
  split; [|split; [|split]].
  - subst kept.
    rewrite (filter_snoc_keep (λ r, negb (lt_holds (field r j) (VInt (ts - 1800)))) l new Hk).
    apply last_snoc.
  - intros r Hr. apply Hin in Hr. tauto.
  - intros r z Hr Hz. rewrite Hin, Hz, lt_holds_int. tauto.
  - intros r z Hr Hz. apply Hin in Hr as [_ Hr]. rewrite Hz in Hr.
    by apply lt_holds_int.
Qed.

Lemma ts_field t columns vals j ts :
  col_index (col_names t) "ts" = Some j →
  field (record_of t ("ts"%string :: columns) (VInt ts :: vals)) j = VInt ts.
Proof.
  intros Hj. rewrite (record_of_field _ _ _ _ _ Hj). cbn [zip zip_with].
  cbn [list_to_map foldr]. by rewrite lookup_insert_eq.
Qed.

(** What an iteration that completes found and left. *)
Lemma iteration_ok st h u st' :
  iteration CAP CLASS_HIGH CLASS_MED CLASS_LOW st h = (Ok u, st') →
  let ts := int_of_float (h_time h) in
  let c := (StatsWriter.cpu_pct (_prev_cpu st) (h_stat h)).1 in
  let r := (StatsWriter.net_mbps CLASS_HIGH CLASS_MED CLASS_LOW (net st)
              (h_net_time h) (h_tc h)).1 in
  ∃ tp tn jp jn,
    tables (con st) !! "pi_samples" = Some tp
    ∧ tables (con st) !! "net_samples" = Some tn
    ∧ Forall (λ c, c ∈ col_names tp) pi_columns
    ∧ Forall (λ c, c ∈ col_names tn) net_columns
    ∧ col_index (col_names tp) "ts" = Some jp
    ∧ col_index (col_names tn) "ts" = Some jn
    ∧ IngestTomas.int64 ts = true ∧ IngestTomas.int64 (h_uptime h) = true
    ∧ tables (con st') !! "pi_samples"
      = Some {| cols := cols tp;
                rows := List.filter
                  (λ r, negb (lt_holds (field r jp) (VInt (ts - 1800))))
                  (rows tp ++ [record_of tp pi_columns
                     [VInt ts; VReal c; VReal (h_mem h).1; VReal (h_mem h).2;
                      VReal (h_temp h); VInt (h_uptime h)]]) |}
    ∧ tables (con st') !! "net_samples"
      = Some {| cols := cols tn;
                rows := List.filter
                  (λ r, negb (lt_holds (field r jn) (VInt (ts - 1800))))
                  (rows tn ++ [record_of tn net_columns
                     [VInt ts; VReal r.1.1; VReal r.1.2; VReal r.2;
                      VReal CAP; VText QOS_SRC]]) |}
    ∧ (∀ n, n ≠ "pi_samples"%string → n ≠ "net_samples"%string →
         tables (con st') !! n = tables (con st) !! n)
    ∧ indexes (con st') = indexes (con st)
    ∧ journal (con st') = journal (con st).
Proof.
  unfold iteration.
  destruct (StatsWriter.cpu_pct (_prev_cpu st) (h_stat h)) as [c prev].
  destruct (h_mem h) as [ru rt].
  destruct (execute_insert "pi_samples" _ _ (con st)) as [[u1|e] d1] eqn:E1;
    [|discriminate].
  destruct (StatsWriter.net_mbps _ _ _ _ _ _) as [[[hi med] low] ns].
  destruct (execute_insert "net_samples" _ _ d1) as [[u2|e] d2] eqn:E2;
    [|discriminate].
  destruct ((delete_lt "pi_samples" "ts" _ ≫= _) d2) as [r3 d4] eqn:E3.
  intros [= -> <-]. cbn [con fst snd].
  apply writer_execute_insert_ok in E1 as (v1 & tp & Hb1 & Htp & Hcp & ->).
  apply pi_row_Ok in Hb1 as (-> & Hts & Hup).
  apply writer_execute_insert_ok in E2 as (v2 & tn' & Hb2 & Htn & Hcn & ->).
  apply net_row_Ok in Hb2 as ->.
  rewrite append_row_lookup in Htn.
  destruct (decide ("net_samples"%string = "pi_samples"%string)) as [?|_]; [done|].
  apply bind_ok in E3 as ([] & d3 & E3 & E4).
  apply delete_lt_ok in E3 as (tp' & jp & Htp' & Hjp & ->).
  apply delete_lt_ok in E4 as (tn'' & jn & Htn'' & Hjn & ->).
  rewrite !append_row_lookup in Htp'.
  destruct (decide ("pi_samples"%string = "net_samples"%string)) as [?|_]; [done|].
  destruct (decide ("pi_samples"%string = "pi_samples"%string)) as [_|?]; [|done].
  rewrite Htp in Htp'. injection Htp' as <-.
  cbn [set_table tables] in Htn''. rewrite lookup_insert_ne in Htn'' by done.
  rewrite append_row_lookup in Htn''.
  destruct (decide ("net_samples"%string = "net_samples"%string)) as [_|?]; [|done].
  rewrite append_row_lookup in Htn''.
  destruct (decide ("net_samples"%string = "pi_samples"%string)) as [?|_]; [done|].
  rewrite Htn in Htn''. injection Htn'' as <-.
  cbn [cols rows col_names] in *.
  exists tp, tn', jp, jn.
  split; [exact Htp|]. split; [exact Htn|]. split; [exact Hcp|]. split; [exact Hcn|].
  split; [exact Hjp|]. split; [exact Hjn|]. split; [exact Hts|]. split; [exact Hup|].
  cbn [set_table tables indexes journal].
  split; [by rewrite lookup_insert_ne, lookup_insert_eq|].
  split; [by rewrite lookup_insert_eq|].
  split.
  - intros n H1 H2. rewrite !lookup_insert_ne by done.
    rewrite !append_row_lookup.
    destruct (decide (n = "net_samples"%string)); [done|].
    destruct (decide (n = "pi_samples"%string)); done.
  - split.
    + rewrite (proj1 (append_row_frame _ _ _)). apply append_row_frame.
    + rewrite (proj2 (append_row_frame _ _ _)). apply append_row_frame.
Qed.

(** Retention. After an iteration that completes at the second [ts],
    each of the two sample tables ends with the record just written,
    holds nothing but records it held before and that one, has lost
    exactly those of its records whose integer timestamp is below
    [ts - 1800], and so holds no integer timestamp below that; its
    columns, every other table, the indexes and the journal mode are
    as before. *)
Theorem iteration_retention (st st' : state) (h : host) (u : ())
    (Hrun : iteration CAP CLASS_HIGH CLASS_MED CLASS_LOW st h = (Ok u, st')) :
  let ts := int_of_float (h_time h) in
  indexes (con st') = indexes (con st)
  ∧ journal (con st') = journal (con st)
  ∧ (∀ n, n ≠ "pi_samples"%string → n ≠ "net_samples"%string →
       tables (con st') !! n = tables (con st) !! n)
  ∧ ∀ n, n = "pi_samples"%string ∨ n = "net_samples"%string →
      ∃ t t' j new,
        tables (con st) !! n = Some t
        ∧ tables (con st') !! n = Some t'
        ∧ col_index (col_names t) "ts" = Some j
        ∧ cols t' = cols t
        ∧ field new j = VInt ts
        ∧ last (rows t') = Some new
        ∧ (∀ r, r ∈ rows t' → r ∈ rows t ∨ r = new)
        ∧ (∀ r z, r ∈ rows t → field r j = VInt z →
             (r ∈ rows t' ↔ (ts - 1800 ≤ z)%Z))
        ∧ (∀ r z, r ∈ rows t' → field r j = VInt z → (ts - 1800 ≤ z)%Z).
Proof.
  intros ts.
  destruct (iteration_ok _ _ _ _ Hrun)
    as (tp & tn & jp & jn & Htp & Htn & _ & _ & Hjp & Hjn & _ & _
        & Hp' & Hn' & Hother & Hidx & Hj).
  split; [exact Hidx|]. split; [exact Hj|]. split; [exact Hother|].
  intros n [->| ->].
  - exists tp. eexists. exists jp.
    match type of Hp' with context [rows tp ++ [?new]] => exists new end.
    split; [exact Htp|]. split; [exact Hp'|].
    split; [exact Hjp|]. split; [reflexivity|].
    split; [apply (ts_field _ _ _ _ _ Hjp)|].
    apply pruned_rows, (ts_field _ _ _ _ _ Hjp).
  - exists tn. eexists. exists jn.
    match type of Hn' with context [rows tn ++ [?new]] => exists new end.
    split; [exact Htn|]. split; [exact Hn'|].
    split; [exact Hjn|]. split; [reflexivity|].
    split; [apply (ts_field _ _ _ _ _ Hjn)|].
    apply pruned_rows, (ts_field _ _ _ _ _ Hjn).
Qed.

(** What is stored. The record an iteration adds to [pi_samples]
    carries a CPU percentage between 0 and 100, and the record it adds
    to [net_samples] carries three class rates that are not negative,
    the configured capacity, and the source tag [mqtt] whatever the
    rates were computed from. *)
Theorem iteration_records (st st' : state) (h : host) (u : ())
    (Hrun : iteration CAP CLASS_HIGH CLASS_MED CLASS_LOW st h = (Ok u, st')) :
  ∃ tp tn tp' tn' c hi med low,
    tables (con st) !! "pi_samples" = Some tp
    ∧ tables (con st) !! "net_samples" = Some tn
    ∧ tables (con st') !! "pi_samples" = Some tp'
    ∧ tables (con st') !! "net_samples" = Some tn'
    ∧ last (rows tp')
      = Some (record_of tp pi_columns
                [VInt (int_of_float (h_time h)); VReal c; VReal (h_mem h).1;
                 VReal (h_mem h).2; VReal (h_temp h); VInt (h_uptime h)])
    ∧ last (rows tn')
      = Some (record_of tn net_columns
                [VInt (int_of_float (h_time h)); VReal hi; VReal med; VReal low;
                 VReal CAP; VText "mqtt"])
    ∧ 0 <= c <= 100 ∧ 0 <= hi ∧ 0 <= med ∧ 0 <= low
    ∧ (h_tc h = None → hi = 0 ∧ med = 0 ∧ low = 0).
Proof.
  destruct (iteration_ok _ _ _ _ Hrun)
    as (tp & tn & jp & jn & Htp & Htn & _ & _ & Hjp & Hjn & _ & _
        & Hp' & Hn' & _).
  exists tp, tn. do 6 eexists.
  split; [exact Htp|]. split; [exact Htn|]. split; [exact Hp'|]. split; [exact Hn'|].
  cbn [rows].
  split; [apply pruned_rows, (ts_field _ _ _ _ _ Hjp)|].
  split; [apply pruned_rows, (ts_field _ _ _ _ _ Hjn)|].
  split; [apply stats_writer_cpu_pct_bounded|].
  pose proof (net_mbps_nonneg CLASS_HIGH CLASS_MED CLASS_LOW (net st)
                (h_net_time h) (h_tc h)) as (H1 & H2 & H3).
  split; [exact H1|]. split; [exact H2|]. split; [exact H3|].
  intros ->. cbn. auto.
Qed.

End WriterStore.

(** ** The writing sampler from the raw readings *)

Section WriterReadings.
Import StatsWriterStore.
Local Open Scope Q_scope.

Variable CAP : Q.
Variables CLASS_HIGH CLASS_MED CLASS_LOW : string.












Lemma temp_c_ok sysfs vcgencmd :
  temp_readable sysfs vcgencmd → ∃ t, StatsWriter.temp_c sysfs vcgencmd = Ok t.
Proof.
  unfold temp_readable, StatsWriter.temp_c. destruct sysfs as [text|]; cbn.
  - intros [q ->]. eauto.
  - intros Hg. destruct (re_search StatsWriter.match_temp vcgencmd) as [g|]; [|eauto].
    destruct (Hg g eq_refl) as [q ->]. eauto.
Qed.

(** The loop of [_parse_tc_bytes] when a line reports bytes and neither
    it nor a line before it names a class. *)
Lemma parse_loop_raises (rest : list string) (i : nat) (line ds : string)
    (m : gmap string Z) :
  rest !! i = Some line → StatsWriter.sent_bytes line = Some ds →
  (∀ k l, (k ≤ i)%nat → rest !! k = Some l → StatsWriter.class_line l = false) →
  ∃ e,
    for_loop (λ (st : gmap string Z * option string) line,
        let '(m, cid) := st in
        bind (if StatsWriter.class_line line then
                match split_whitespace line !! 2%nat with
                | Some w => Ok (Some (strip w))
                | None => Raise "IndexError"
                end
              else Ok cid)
          (λ cid,
             match StatsWriter.sent_bytes line with
             | Some ds =>
                 match int_of_str ds with
                 | None => Raise "ValueError"
                 | Some z =>
                     match cid with
                     | None => Raise "UnboundLocalError"
                     | Some c => Ok (<[c := z]> m, cid)
                     end
                 end
             | None => Ok (m, cid)
             end))
      (m, None) rest = Raise e
    ∧ (e = "UnboundLocalError"%string ∨ e = "ValueError"%string).
Proof.
  revert i m. induction rest as [|l0 rest IH]; intros i m Hi Hs Hno; [done|].
  cbn [for_loop]. rewrite (Hno 0%nat l0) by (lia || done). cbn [bind].
  destruct (StatsWriter.sent_bytes l0) as [d0|] eqn:E0.
  - destruct (int_of_str d0); eauto.
  - destruct i as [|i]; [cbn in Hi; congruence|].
    apply (IH i m Hi Hs). intros k l Hk Hl. apply (Hno (S k) l); [lia|exact Hl].
Qed.



(** A shaper output that reports bytes before it names a class ends
    the writing sampler. With the store and the temperature in order
    as before, let some line of a shaper output that is not blank
    report bytes while neither it nor a line before it names a class.
    Then the iteration raises ([cid] has no value, unless a number of
    more than 4300 digits is refused first), after it stored the host
    sample: the network sample is not stored and the counters kept for
    the next iteration are not updated. *)
Theorem unnamed_class_stops_writer (st : state) (r : readings) (tp : table)
    (i : nat) (line ds : string)
    (Htp : tables (con st) !! "pi_samples" = Some tp)
    (Hcp : Forall (λ c, c ∈ col_names tp) pi_columns)
    (Hts : IngestTomas.int64 (int_of_float (r_time r)) = true)
    (Hup : IngestTomas.int64 (r_uptime r) = true)
    (Htemp : temp_readable (r_temp_sys r) (r_temp_cmd r))
    (Hascii : isascii (r_tc_out r) = true)
    (Hblank : strip (r_tc_out r) ≠ EmptyString)
    (Hline : splitlines (r_tc_out r) !! i = Some line)
    (Hsent : StatsWriter.sent_bytes line = Some ds)
    (Hnoclass : ∀ k l, (k ≤ i)%nat → splitlines (r_tc_out r) !! k = Some l →
                  StatsWriter.class_line l = false) :
  ∃ e st' new,
    main_iteration CAP CLASS_HIGH CLASS_MED CLASS_LOW st r = (Raise e, st')
    ∧ (e = "UnboundLocalError"%string ∨ e = "ValueError"%string)
    ∧ StatsWriter._parse_tc_bytes (r_tc_out r) = Raise e
    ∧ tables (con st') !! "pi_samples"
      = Some {| cols := cols tp; rows := rows tp ++ [new] |}
    ∧ (∀ n, n ≠ "pi_samples"%string → tables (con st') !! n = tables (con st) !! n)
    ∧ net st' = net st.
Proof.
  destruct (temp_c_ok _ _ Htemp) as [t Ht].
  destruct (parse_loop_raises _ i line ds ∅ Hline Hsent Hnoclass) as (e & Hloop & He).
  assert (Hparse : StatsWriter._parse_tc_bytes (r_tc_out r) = Raise e).
  { unfold StatsWriter._parse_tc_bytes. by rewrite Hloop. }
  unfold main_iteration. rewrite Ht.
  destruct (StatsWriter.cpu_pct (_prev_cpu st) (r_stat r)) as [c prev].
  destruct (r_mem r) as [ru rt].
  unfold execute_insert at 1. unfold pi_row, IngestTomas.bind_int.
  rewrite Hts, Hup. cbn [IngestTomas.bind_all bind].
  rewrite (insert_into_run _ _ _ _ _ Htp Hcp).
  unfold StatsWriter.net_mbps_sh.
  destruct (String.eqb_spec (strip (r_tc_out r)) "") as [E|_]; [done|].
  rewrite Hparse. cbn [bind].
  eexists e, _, _. split; [reflexivity|]. split; [exact He|].
  split; [reflexivity|]. cbn [con net].
  split; [|split; [|reflexivity]].
  - rewrite append_row_lookup. destruct (decide _); [|done]. by rewrite Htp.
  - intros n Hn. rewrite append_row_lookup. by destruct (decide _).
Qed.
End WriterReadings.


Lemma unnamed_class_stops_writer_witness :
  ∃ st',
    StatsWriterStore.main_iteration 20 "1:10" "1:20" "1:30"
      Examples.sampler0 Examples.readings_unnamed
    = (Raise "UnboundLocalError", st').
Proof.
  assert (Hp : tables (StatsWriterStore.con Examples.sampler0) !! "pi_samples"
               = Some (fresh StatsWriterStore.pi_samples_cols))
    by (vm_compute; reflexivity).
  assert (Hcp : Forall (λ c, c ∈ col_names (fresh StatsWriterStore.pi_samples_cols))
                  StatsWriterStore.pi_columns)
    by (forall_intro; apply (bool_decide_unpack _); vm_compute; reflexivity).
  assert (Htemp : temp_readable (Some ("45000" +:+ String "010" "")) "")
    by (vm_compute; eauto).
  assert (Hblank : strip Examples.shaper_output_unnamed ≠ EmptyString)
    by (vm_compute; discriminate).
  assert (Hlines : splitlines Examples.shaper_output_unnamed
                   = [" Sent 1000 bytes 10 pkt (dropped 0, overlimits 0)"]%string)
    by (vm_compute; reflexivity).
  assert (Hs : StatsWriter.sent_bytes
                 " Sent 1000 bytes 10 pkt (dropped 0, overlimits 0)" = Some "1000"%string)
    by (vm_compute; reflexivity).
  assert (Hc : StatsWriter.class_line
                 " Sent 1000 bytes 10 pkt (dropped 0, overlimits 0)" = false)
    by (vm_compute; reflexivity).
  assert (Hline : splitlines Examples.shaper_output_unnamed !! 0%nat
                  = Some " Sent 1000 bytes 10 pkt (dropped 0, overlimits 0)"%string)
    by (rewrite Hlines; reflexivity).
  assert (Hno : ∀ k l, (k ≤ 0)%nat →
                  splitlines Examples.shaper_output_unnamed !! k = Some l →
                  StatsWriter.class_line l = false).
  { intros k l Hk. rewrite Hlines. destruct k; [|lia]. intros [= <-]. exact Hc. }
  destruct (unnamed_class_stops_writer 20 "1:10" "1:20" "1:30"
              Examples.sampler0 Examples.readings_unnamed _ 0%nat _ _ Hp Hcp
              eq_refl eq_refl Htemp eq_refl Hblank Hline Hs Hno)
    as (e & st' & new & E & _ & Hparse & _).
  assert (He : StatsWriter._parse_tc_bytes Examples.shaper_output_unnamed
               = Raise "UnboundLocalError")
    by (vm_compute; reflexivity).
  cbn [StatsWriterStore.r_tc_out Examples.readings_unnamed] in Hparse.
  rewrite He in Hparse. injection Hparse as <-.
  exists st'. exact E.
Defined.

Lemma iteration_retention_witness :
  ∃ st',
    StatsWriterStore.iteration 20 "1:10" "1:20" "1:30"
      Examples.sampler0 Examples.reading0 = (Ok (), st')
    ∧ indexes (StatsWriterStore.con st') = indexes (StatsWriterStore.con Examples.sampler0).
Proof.
  assert (E : ∃ s, StatsWriterStore.iteration 20 "1:10" "1:20" "1:30"
                     Examples.sampler0 Examples.reading0 = (Ok (), s))
    by (vm_compute; eauto).
  destruct E as [s E]. exists s. split; [exact E|].
  exact (proj1 (iteration_retention 20 "1:10" "1:20" "1:30" _ _ _ _ E)).
Defined.

Lemma iteration_records_witness :
  ∃ st' tn',
    StatsWriterStore.iteration 20 "1:10" "1:20" "1:30"
      Examples.sampler0 Examples.reading0 = (Ok (), st')
    ∧ tables (StatsWriterStore.con st') !! "net_samples" = Some tn'
    ∧ ∃ hi med low,
        last (rows tn')
        = Some (record_of (fresh StatsWriterStore.net_samples_cols)
                  StatsWriterStore.net_columns
                  [VInt 1700000000; VReal hi; VReal med; VReal low; VReal 20;
                   VText "mqtt"]).
Proof.
  assert (E : ∃ s, StatsWriterStore.iteration 20 "1:10" "1:20" "1:30"
                     Examples.sampler0 Examples.reading0 = (Ok (), s))
    by (vm_compute; eauto).
  destruct E as [s E]. exists s.
  destruct (iteration_records 20 "1:10" "1:20" "1:30" _ _ _ _ E)
    as (tp & tn & tp' & tn' & c & hi & med & low & _ & Htn & _ & Htn' & _ & Hl & _).
  exists tn'. split; [exact E|]. split; [exact Htn'|].
  exists hi, med, low.
  assert (Hn : tables (StatsWriterStore.con Examples.sampler0) !! "net_samples"
               = Some (fresh StatsWriterStore.net_samples_cols))
    by (vm_compute; reflexivity).
  rewrite Hn in Htn. injection Htn as <-. exact Hl.
Defined.
(** ** The schema setup of the writing sampler *)

Section WriterSchema.

Lemma additive_writer_ensure_schema : additive StatsWriterStore.ensure_schema.
Proof.
  unfold StatsWriterStore.ensure_schema.
  repeat first
    [ apply additive_pragma_journal_wal
    | apply additive_create_table; apply (bool_decide_unpack _); by vm_compute
    | apply additive_create_index
    | apply additive_bind; [|intros ?] ].
Qed.

Lemma writer_ensure_schema_ok d u d' :
  StatsWriterStore.ensure_schema d = (Ok u, d') →
  journal d' = Wal
  ∧ Forall (λ n, is_Some (tables d' !! n)) ["pi_samples"; "net_samples"]
  ∧ Forall (λ i, is_Some (indexes d' !! i)) ["idx_pi_ts"; "idx_net_ts"].
Proof.
  unfold StatsWriterStore.ensure_schema. intros H. invert_run H.
  unfold pragma_journal_wal in *.
  match goal with H : (Ok (), _) = (Ok _, _) |- _ => injection H as _ <- end.
  unfold add_table, add_index. cbn [tables indexes journal].
  split; [reflexivity|]. split; forall_intro; simpl_lookups;
    apply lookup_union_singleton_eq.
Qed.

Lemma writer_ensure_schema_noop d :
  wf_db d →
  Forall (λ n, is_Some (tables d !! n)) ["pi_samples"; "net_samples"] →
  Forall (λ i, is_Some (indexes d !! i)) ["idx_pi_ts"; "idx_net_ts"] →
  StatsWriterStore.ensure_schema d
  = (Ok (), {| tables := tables d; indexes := indexes d; journal := Wal |}).
Proof.
  intros Hwf Ht Hi. unfold StatsWriterStore.ensure_schema.
  repeat match goal with H : Forall _ (_ :: _) |- _ => apply Forall_cons in H as [? H] end.
  set (dw := {| tables := tables d; indexes := indexes d; journal := Wal |}).
  assert (Hfree : ∀ i, is_Some (indexes dw !! i) → tables dw !! i = None).
  { intros i [x Hx]. destruct (tables dw !! i) eqn:E; [|done].
    cbn in Hx, E. rewrite Hwf in Hx by eauto. discriminate. }
  erewrite bind_run by reflexivity.
  fold dw.
  repeat first
    [ erewrite bind_run by (apply create_table_noop; assumption)
    | erewrite bind_run by (apply create_index_noop; auto) ].
  apply create_index_noop; auto.
Qed.

(** The schema setup of [stats_writer.py] only adds to the file it
    finds; when it completes the file is in WAL mode with both sample
    tables and their indexes, and a second run leaves it as it is. On
    a file that [snapshot_db.py] has set up it changes nothing but the
    journal mode. *)
Theorem writer_ensure_schema_idempotent (d : db) (Hwf : wf_db d) :
  (∀ r d1, StatsWriterStore.ensure_schema d = (r, d1) →
     extends d d1 ∧ (nodup_cols d → nodup_cols d1) ∧ wf_db d1)
  ∧ (∀ u d1, StatsWriterStore.ensure_schema d = (Ok u, d1) →
       journal d1 = Wal
       ∧ Forall (λ n, is_Some (tables d1 !! n)) ["pi_samples"; "net_samples"]
       ∧ Forall (λ i, is_Some (indexes d1 !! i)) ["idx_pi_ts"; "idx_net_ts"]
       ∧ StatsWriterStore.ensure_schema d1 = (Ok (), d1))
  ∧ (∀ u d1, SnapshotDb.ensure_schema d = (Ok u, d1) →
       StatsWriterStore.ensure_schema d1
       = (Ok (), {| tables := tables d1; indexes := indexes d1; journal := Wal |})).
Proof.
  split; [|split].
  - intros r d1 E.
    destruct (additive_run _ _ _ _ additive_writer_ensure_schema E) as (H1 & H2 & H3).
    auto.
  - intros u d1 E.
    destruct (additive_run _ _ _ _ additive_writer_ensure_schema E) as (_ & _ & Hwf1).
    destruct (writer_ensure_schema_ok _ _ _ E) as (Hj & Ht & Hi).
    split; [exact Hj|]. split; [exact Ht|]. split; [exact Hi|].
    rewrite (writer_ensure_schema_noop d1 (Hwf1 Hwf) Ht Hi).
    rewrite <- Hj. by rewrite db_eta.
  - intros u d1 E.
    destruct (additive_run _ _ _ _ additive_snapshot_ensure_schema E) as (_ & _ & Hwf1).
    apply ensure_schema_ok in E as (-> & _ & _).
    destruct (provisioned_schema_provisioned d) as [Ht Hi].
    unfold table_names, index_names in *.
    apply writer_ensure_schema_noop; [exact (Hwf1 Hwf)| |].
    + apply Forall_cons in Ht as [_ Ht]. apply Forall_cons in Ht as [_ Ht]. exact Ht.
    + do 3 apply Forall_cons in Hi as [_ Hi]. exact Hi.
Qed.

Lemma writer_ensure_schema_idempotent_witness :
  wf_db empty_db
  ∧ ∃ d1, StatsWriterStore.ensure_schema empty_db = (Ok (), d1)
          ∧ StatsWriterStore.ensure_schema d1 = (Ok (), d1).
Proof.
  assert (Hwf : wf_db empty_db) by (intros n _; apply lookup_empty).
  split; [exact Hwf|].
  assert (E : ∃ d1, StatsWriterStore.ensure_schema empty_db = (Ok (), d1))
    by (vm_compute; eauto).
  destruct E as [d1 E]. exists d1. split; [exact E|].
  apply (proj1 (proj2 (writer_ensure_schema_idempotent empty_db Hwf)) _ _ E).
Defined.
End WriterSchema.

(** ** The class rates of the writing sampler *)

Section ClassRates.
Local Open Scope Q_scope.

Lemma rate_floor (n : Z) (dt : Q) :
  (0 ≤ n)%Z → 2 # 10 <= dt →
  inject_Z n * 8 / dt / 1000000 <= inject_Z n * 40 / 1000000.
Proof.
  intros Hn Hdt.
  assert (Hpos : 0 < dt) by (eapply Qlt_le_trans; [|exact Hdt]; reflexivity).
  assert (Hn' : 0 <= inject_Z n).
  { change 0 with (inject_Z 0). rewrite <- Zle_Qle. exact Hn. }
  apply Qmult_le_compat_r; [|discriminate].
  apply Qle_shift_div_r; [exact Hpos|].
  apply Qle_trans with (inject_Z n * 40 * (2 # 10)).
  - apply Qle_lteq. right. ring.
  - rewrite !(Qmult_comm (inject_Z n * 40)).
    apply Qmult_le_compat_r; [exact Hdt|].
    apply Qmult_le_0_compat; [exact Hn'|discriminate].
Qed.

Variables CH CM CL : string.

(** Between two shaper readings the rate reported for a class is at
    least 0 and at most 40 bits per million for every byte its counter
    advanced (the interval is taken as no shorter than 0.2 s), so a
    counter that did not advance gives 0; the counters of the three
    classes are remembered, those of other classes stay as they
    were. *)
Theorem net_mbps_bounded (st : StatsWriter.net_state) (now last : Q)
    (b : gmap string Z)
    (Hlast : StatsWriter._last_t st = Some last)
    (Hdistinct : CH ≠ CM ∧ CH ≠ CL ∧ CM ≠ CL) :
  let res := StatsWriter.net_mbps CH CM CL st now (Some b) in
  let advance cid :=
    Z.max 0 (default 0%Z (b !! cid)
             - default (default 0%Z (b !! cid)) (StatsWriter._rx st !! cid)) in
  (0 <= res.1.1.1 <= inject_Z (advance CH) * 40 / 1000000)
  ∧ (0 <= res.1.1.2 <= inject_Z (advance CM) * 40 / 1000000)
  ∧ (0 <= res.1.2 <= inject_Z (advance CL) * 40 / 1000000)
  ∧ StatsWriter._last_t res.2 = Some now
  ∧ (∀ cid, cid ∈ [CH; CM; CL] →
       StatsWriter._rx res.2 !! cid = Some (default 0%Z (b !! cid)))
  ∧ (∀ cid, cid ∉ [CH; CM; CL] →
       StatsWriter._rx res.2 !! cid = StatsWriter._rx st !! cid).
Proof.
  destruct Hdistinct as (Hhm & Hhl & Hml).
  intros res advance. subst res advance. cbn beta. unfold StatsWriter.net_mbps. rewrite Hlast.
  unfold StatsWriter.calc. cbn [fst snd StatsWriter._rx StatsWriter._last_t].
  rewrite !lookup_insert_ne by done.
  assert (Hdt : 2 # 10 <= py_max (2 # 10) (now - last)) by apply py_max_lower.
  assert (Hdt0 : 0 <= py_max (2 # 10) (now - last)).
  { eapply Qle_trans; [|exact Hdt]. discriminate. }
  split; [|split; [|split; [|split; [|split]]]].
  - split; [apply mbps_nonneg; [lia|exact Hdt0] | apply rate_floor; [lia|exact Hdt]].
  - split; [apply mbps_nonneg; [lia|exact Hdt0] | apply rate_floor; [lia|exact Hdt]].
  - split; [apply mbps_nonneg; [lia|exact Hdt0] | apply rate_floor; [lia|exact Hdt]].
  - reflexivity.
  - intros cid Hin. apply list_elem_of_In in Hin. cbn in Hin.
    destruct Hin as [<-|[<-|[<-|[]]]].
    + rewrite !lookup_insert_ne by congruence. by rewrite lookup_insert_eq.
    + rewrite lookup_insert_ne by congruence. by rewrite lookup_insert_eq.
    + by rewrite lookup_insert_eq.
  - intros cid Hin.
    rewrite !lookup_insert_ne; [reflexivity|..]; intros <-; apply Hin;
      rewrite list_elem_of_In; cbn; auto.
Qed.
End ClassRates.

Lemma net_mbps_bounded_witness :
  let res := StatsWriter.net_mbps "1:10" "1:20" "1:30"
               {| StatsWriter._rx := {[ "1:10" := 1000%Z ]};
                  StatsWriter._last_t := Some 10%Q |}
               11%Q (Some {[ "1:10" := 126000%Z ]}) in
  (0 <= res.1.1.1 <= inject_Z 125000 * 40 / 1000000)%Q.
Proof.
  assert (Hd : ("1:10" : string) ≠ "1:20" ∧ ("1:10" : string) ≠ "1:30"
               ∧ ("1:20" : string) ≠ "1:30") by (repeat split; discriminate).
  exact (proj1 (net_mbps_bounded "1:10" "1:20" "1:30"
                  {| StatsWriter._rx := {[ "1:10" := 1000%Z ]};
                     StatsWriter._last_t := Some 10%Q |}
                  11%Q 10%Q {[ "1:10" := 126000%Z ]} eq_refl Hd)).
Defined.

(** ** What the ingestor does to the store *)

Section IngestEffect.
Import IngestTomas.
Variable repr : pyval → string.

Lemma appended_refl grow d : appended grow d d.
Proof. repeat split; eauto. Qed.

Lemma appended_trans grow d1 d2 d3 :
  appended grow d1 d2 → appended grow d2 d3 → appended grow d1 d3.
Proof.
  intros (I1 & J1 & O1 & N1 & T1) (I2 & J2 & O2 & N2 & T2).
  split; [congruence|]. split; [congruence|]. split; [|split].
  - intros n Hn. rewrite O2, O1; done.
  - intros n Hn. apply N2, N1, Hn.
  - intros n t Ht. destruct (T1 n t Ht) as (t2 & Ht2 & Hc2 & Hr2).
    destruct (T2 n t2 Ht2) as (t3 & Ht3 & Hc3 & Hr3).
    exists t3. split; [done|]. split; [congruence|]. by etrans.
Qed.

Lemma appended_append_row grow tbl r d :
  tbl ∈ grow → appended grow d (append_row tbl r d).
Proof.
  intros Hin. unfold append_row.
  destruct (tables d !! tbl) as [t|] eqn:Ht; [|apply appended_refl].
  unfold appended. cbn [set_table tables indexes journal].
  split; [done|]. split; [done|]. split; [|split].
  - intros n Hn. rewrite lookup_insert_ne; [done|]. by intros <-.
  - intros n Hn. rewrite lookup_insert_ne; [done|]. intros <-. congruence.
  - intros n t0 Ht0. destruct (decide (n = tbl)) as [->|Hne].
    + rewrite lookup_insert_eq. rewrite Ht in Ht0. injection Ht0 as <-.
      eexists. split; [done|]. split; [done|]. by apply prefix_app_r.
    + rewrite lookup_insert_ne by done. exists t0. by repeat split.
Qed.

Lemma stores_appended kind w w' msg :
  kind ∈ outlet_tables → stores repr kind w w' msg →
  appended outlet_tables (con w) (con w').
Proof.
  intros Hk [->|(tid & doc & t & r & _ & _ & _ & _ & -> & _)].
  - apply appended_refl.
  - by apply appended_append_row.
Qed.

Lemma deliver_appended w e :
  appended outlet_tables (con w) (con (deliver repr w e)).
Proof.
  destruct e as [now msg|now msg]; cbn [deliver].
  - eapply stores_appended; [|apply on_telem_stores].
    unfold outlet_tables. apply list_elem_of_here.
  - eapply stores_appended; [|apply on_alert_stores].
    unfold outlet_tables. apply list_elem_of_further, list_elem_of_here.
Qed.

Lemma deliver_rows w e n t t' :
  tables (con w) !! n = Some t →
  tables (con (deliver repr w e)) !! n = Some t' →
  (length (rows t') ≤ length (rows t) + 1)%nat.
Proof.
  intros Ht Ht'.
  assert (Hs : ∃ kind, stores repr kind w (deliver repr w e) (match e with OnTelem _ m | OnAlert _ m => m end)).
  { destruct e; eexists; [apply on_telem_stores | apply on_alert_stores]. }
  destruct Hs as (kind & [E|(tid & doc & t0 & r & _ & _ & _ & Hk & E & _)]).
  - rewrite E in Ht'. rewrite Ht in Ht'. injection Ht' as <-. lia.
  - rewrite E in Ht'. unfold append_row in Ht'. rewrite Hk in Ht'.
    cbn [set_table tables] in Ht'.
    destruct (decide (n = kind)) as [->|Hne].
    + rewrite lookup_insert_eq in Ht'. injection Ht' as <-.
      rewrite Ht in Hk. injection Hk as <-. cbn. rewrite length_app. cbn. lia.
    + rewrite lookup_insert_ne in Ht' by done. rewrite Ht in Ht'.
      injection Ht' as <-. lia.
Qed.

Lemma ingest_snoc w es e :
  ingest repr w (es ++ [e]) = deliver repr (ingest repr w es) e.
Proof. unfold ingest. by rewrite foldl_app. Qed.

Lemma ingest_appended w es :
  appended outlet_tables (con w) (con (ingest repr w es)).
Proof.
  induction es as [|e es IH] using rev_ind; [apply appended_refl|].
  rewrite ingest_snoc. eapply appended_trans; [exact IH | apply deliver_appended].
Qed.

(** The ingestor only ever appends. Whatever messages arrive, the
    store afterwards has the same indexes and journal mode and the same
    tables with the same columns; the two outlet tables hold their
    former records followed by at most one new record per message,
    and every other table is untouched. *)
Theorem ingest_only_appends (w : Writer) (es : list delivery) :
  appended outlet_tables (con w) (con (ingest repr w es))
  ∧ ∀ n t t',
      tables (con w) !! n = Some t →
      tables (con (ingest repr w es)) !! n = Some t' →
      (length (rows t') ≤ length (rows t) + length es)%nat.
Proof.
  split; [apply ingest_appended|].
  induction es as [|e es IH] using rev_ind.
  - intros n t t' Ht Ht'. cbn in Ht'. rewrite Ht in Ht'. injection Ht' as <-. lia.
  - rewrite ingest_snoc. intros n t t' Ht Ht'.
    destruct (ingest_appended w es) as (_ & _ & _ & _ & Hkeep).
    destruct (Hkeep n t Ht) as (t1 & Ht1 & _ & _).
    pose proof (IH n t t1 Ht Ht1) as Hl1.
    pose proof (deliver_rows _ _ _ _ _ Ht1 Ht') as Hl2.
    rewrite length_app. cbn. lia.
Qed.
End IngestEffect.
(** ** Identifiers *)

Section Identifiers.
Import IngestTomas.
Variable repr : pyval → string.

Lemma lower_ascii_idem c : lower_ascii (lower_ascii c) = lower_ascii c.
Proof. destruct c as [[] [] [] [] [] [] [] []]; reflexivity. Qed.

Lemma is_space_lower c : is_space (lower_ascii c) = is_space c.
Proof. destruct c as [[] [] [] [] [] [] [] []]; reflexivity. Qed.

Lemma lower_idem s : lower (lower s) = lower s.
Proof. induction s as [|c s IH]; [done|]. cbn. by rewrite lower_ascii_idem, IH. Qed.

Lemma lower_empty s : lower s = EmptyString ↔ s = EmptyString.
Proof. destruct s; split; intros; done. Qed.

Lemma lstrip_lower s : lstrip (lower s) = lower (lstrip s).
Proof.
  induction s as [|c s IH]; [done|]. cbn. rewrite is_space_lower.
  destruct (is_space c); done.
Qed.

Lemma rstrip_lower s : rstrip (lower s) = lower (rstrip s).
Proof.
  induction s as [|c s IH]; [done|]. cbn. rewrite IH, is_space_lower.
  destruct (rstrip s) as [|c' r']; cbn; [by destruct (is_space c)|done].
Qed.

Lemma rstrip_idem s : rstrip (rstrip s) = rstrip s.
Proof.
  induction s as [|c s IH]; [done|]. cbn.
  destruct (rstrip s) as [|c' r'] eqn:E.
  - destruct (is_space c) eqn:Ec; [done|]. cbn. by rewrite Ec.
  - cbn [rstrip]. cbn [rstrip] in IH. rewrite IH. done.
Qed.

Lemma lstrip_no_lead s : no_lead (lstrip s).
Proof.
  induction s as [|c s IH]; [done|]. cbn. destruct (is_space c) eqn:E; [done|].
  exact E.
Qed.

Lemma lstrip_id s : no_lead s → lstrip s = s.
Proof. destruct s as [|c s]; [done|]. cbn. by intros ->. Qed.

Lemma rstrip_no_lead s : no_lead s → no_lead (rstrip s).
Proof.
  destruct s as [|c s]; [done|]. cbn. intros Hc.
  destruct (rstrip s); [by rewrite Hc|done].
Qed.

Lemma strip_idem s : strip (strip s) = strip s.
Proof.
  unfold strip.
  rewrite (lstrip_id (rstrip (lstrip s))) by apply rstrip_no_lead, lstrip_no_lead.
  apply rstrip_idem.
Qed.

Lemma normalised_lower_strip s : normalised (lower (strip s)).
Proof.
  split; [apply lower_idem|].
  unfold strip. rewrite lstrip_lower, rstrip_lower.
  fold (strip (rstrip (lstrip s))). fold (strip s). by rewrite strip_idem.
Qed.

(** Every identifier a callback stores is in normal form. A callback
    either leaves the writer as it was or appends one record to its
    table; the identifier of that record, when it is not NULL, has no
    upper-case ASCII letter and no white space at either end, and is
    not reserved. *)
Theorem stored_identifier_normalised (w : Writer) (now : Q) (msg : Mqtt.message) :
  (∀ doc tid, normalised (toma_norm_of repr doc tid))
  ∧ (on_telem repr w now msg = w
     ∨ ∃ t r, tables (con w) !! "toma_samples" = Some t
              ∧ con (on_telem repr w now msg) = append_row "toma_samples" r (con w)
              ∧ (stored_id t r = VNull
                 ∨ ∃ s, stored_id t r = VText s ∧ normalised s
                        ∧ s ∉ RESERVED_IDS))
  ∧ (on_alert repr w now msg = w
     ∨ ∃ t r, tables (con w) !! "alert_samples" = Some t
              ∧ con (on_alert repr w now msg) = append_row "alert_samples" r (con w)
              ∧ (stored_id t r = VNull
                 ∨ ∃ s, stored_id t r = VText s ∧ normalised s
                        ∧ s ∉ RESERVED_IDS)).
Proof.
  assert (Hn : ∀ doc tid, normalised (toma_norm_of repr doc tid)).
  { intros doc tid. unfold toma_norm_of. apply normalised_lower_strip. }
  split; [exact Hn|]. split.
  - destruct (on_telem_stores repr w now msg)
      as [E|(tid & doc & t & r & _ & _ & Hres & Ht & E & Hid)]; [by left|].
    right. exists t, r. split; [exact Ht|]. split; [exact E|].
    destruct Hid as [Hid|Hid]; [right|by left].
    exists (toma_norm_of repr doc tid). auto.
  - destruct (on_alert_stores repr w now msg)
      as [E|(tid & doc & t & r & _ & _ & Hres & Ht & E & Hid)]; [by left|].
    right. exists t, r. split; [exact Ht|]. split; [exact E|].
    destruct Hid as [Hid|Hid]; [right|by left].
    exists (toma_norm_of repr doc tid). auto.
Qed.

Lemma split_nonempty sep s : split sep s ≠ [].
Proof.
  destruct s as [|c s]; [done|]. cbn. destruct (Ascii.eqb c sep); [done|].
  by destruct (split sep s).
Qed.

Lemma free_of_cons c x s : free_of c (String x s) ↔ x ≠ c ∧ free_of c s.
Proof.
  unfold free_of. cbn. split.
  - intros H. split; [apply H, list_elem_of_here|].
    intros y Hy. by apply H, list_elem_of_further.
  - intros [Hx Hs] y [->|Hy]%elem_of_cons; auto.
Qed.

Lemma free_of_empty c : free_of c EmptyString.
Proof. intros x Hx. by apply elem_of_nil in Hx. Qed.

(** The first part of a split is free of the separator, and the text
    after it splits into the remaining parts. *)
Lemma split_inv sep s a l :
  split sep s = a :: l →
  free_of sep a
  ∧ ((l = [] ∧ s = a)
     ∨ ∃ s', s = (a ++ String sep s')%string ∧ split sep s' = l).
Proof.
  revert a l. induction s as [|c s IH]; intros a l.
  - cbn. intros [= <- <-]. split; [apply free_of_empty|]. by left.
  - cbn. destruct (Ascii.eqb_spec c sep) as [->|Hne].
    + intros [= <- <-]. split; [apply free_of_empty|]. right. by exists s.
    + destruct (split sep s) as [|h t] eqn:E; [by apply split_nonempty in E|].
      intros [= <- <-]. destruct (IH h t eq_refl) as [Hfree Hrest].
      split; [by apply free_of_cons|].
      destruct Hrest as [[-> ->]|(s' & -> & Hs')]; [by left|].
      right. by exists s'.
Qed.

(** [topic_to_id] yields an identifier exactly for the topics made of
    the segment [safegrid], the identifier, and at least one more
    segment; the identifier is then the second segment, free of the
    separator. *)
Theorem topic_to_id_segments (topic tid : string) :
  topic_to_id topic = Some tid
  ↔ free_of "/" tid
    ∧ ∃ rest, topic = ("safegrid/" ++ tid ++ String "/" rest)%string.
Proof.
  unfold topic_to_id. split.
  - destruct (split "/" topic) as [|p0 [|p1 [|p2 l]]] eqn:E; try done.
    cbn [length Nat.leb andb lookup list_lookup].
    case_bool_decide as H0; [|done]. injection H0 as ->. cbn. intros [= ->].
    apply split_inv in E as [_ [[? _]|(s1 & -> & E1)]]; [done|].
    apply split_inv in E1 as [Hfree [[? _]|(s2 & -> & E2)]]; [done|].
    split; [exact Hfree|]. by exists s2.
  - intros [Hfree [rest ->]].
    change ("safegrid/" ++ tid ++ String "/" rest)%string
      with ("safegrid" ++ String "/" (tid ++ String "/" rest))%string.
    rewrite split_prefix.
    2:{ intros x Hx. apply list_elem_of_In in Hx. cbn in Hx.
        repeat (destruct Hx as [<-|Hx]; [discriminate|]). destruct Hx. }
    rewrite (split_prefix tid rest Hfree).
    destruct (split "/" rest) as [|h t] eqn:E; [by apply split_nonempty in E|].
    cbn [length Nat.leb andb lookup list_lookup].
    by rewrite bool_decide_eq_true_2.
Qed.
End Identifiers.
(** ** From the schema setup to the first record *)

Section WriterReady.
Import IngestTomas.
Variable repr : pyval → string.

Lemma on_telem_inserts w now msg tid doc t vals :
  topic_to_id (Mqtt.topic msg) = Some tid → tid ≠ ""%string →
  lower tid ∉ RESERVED_IDS →
  Mqtt.json msg = Some (PDict doc) →
  toma_norm_of repr doc tid ∉ RESERVED_IDS →
  tables (con w) !! "toma_samples" = Some t →
  Forall (λ c, c ∈ col_names t) telem_columns →
  bind_all (telem_row now (toma_norm_of repr doc tid) doc) = Ok vals →
  con (on_telem repr w now msg)
  = append_row "toma_samples" (record_of t telem_columns vals) (con w).
Proof.
  intros Hid Hne Hr1 Hj Hr2 Ht Hc Hb.
  unfold on_telem. rewrite Hid, Hj. cbn [default from_option id].
  rewrite (proj2 (String.eqb_neq _ _) Hne).
  rewrite !bool_decide_eq_false_2 by done.
  unfold insert_telem, execute_insert. rewrite Hb.
  rewrite (insert_into_run _ _ _ _ t Ht Hc). cbn [snd].
  unfold _maybe_print. by destruct (Qle_bool _ _).
Qed.





End WriterReady.

(** ** What a snapshot holds *)

Section SnapshotViews.

(** The values behind a snapshot that was built. *)
Lemma read_views_inv d now path mr tp ttl snap :
  SnapshotDb.read_views d now path mr tp ttl = Ok snap →
  ∃ pi_latest net_latest net_series tomas names latest_map series by_ttl count groups,
    SnapshotDb._rows_star (select_desc d "pi_samples" WAll "ts" 1) = Ok pi_latest
    ∧ SnapshotDb._rows_star (select_desc d "net_samples" WAll "ts" 1) = Ok net_latest
    ∧ SnapshotDb._rows_star (select_desc d "net_samples" WAll "ts" mr) = Ok net_series
    ∧ select_distinct d "toma_samples" "toma" = Ok tomas
    ∧ SnapshotDb.truthy_names tomas = Ok names
    ∧ for_loop (λ (m : gmap string row) tn,
          bind (SnapshotDb._one
                  (select_desc d "toma_samples" (WEq "toma" (VText tn)) "ts" 1))
            (λ r, Ok (if bool_decide (r = ∅) then m else <[tn := r]> m)))
        ∅ (sorted names) = Ok latest_map
    ∧ for_loop (λ (m : gmap string (list row)) tn,
          bind (select_desc d "toma_samples" (WEq "toma" (VText tn)) "ts" tp)
            (λ p, bind (project p.1 ["ts"; "toma"; "amperaje"; "potencia_w";
                                     "estado"; "rssi"])
                    (λ sel, Ok (<[tn := reverse (sel <$> p.2)]> m))))
        ∅ (sorted names) = Ok series
    ∧ for_loop (λ (m : gmap string SnapshotDb.liveness) (kv : string * row),
          bind (SnapshotDb.liveness_of now ttl kv.2) (λ e, Ok (<[kv.1 := e]> m)))
        ∅ (map_to_list latest_map) = Ok by_ttl
    ∧ select_count d "alert_samples" (WGe "ts" (VInt (now - 120))) = Ok count
    ∧ select_group_count d "alert_samples" (WGe "ts" (VInt (now - 120))) "ts"
      = Ok groups
    ∧ SnapshotDb.tables snap !! "pi_samples" = Some (SnapshotDb.PiSamples pi_latest)
    ∧ SnapshotDb.tables snap !! "net_samples"
      = Some (SnapshotDb.NetSamples net_latest (reverse net_series))
    ∧ SnapshotDb.tables snap !! "toma_samples"
      = Some (SnapshotDb.TomaSamples latest_map series)
    ∧ SnapshotDb.tables snap !! "alert_samples"
      = Some (SnapshotDb.AlertSamples count
                ((λ g : value * Z, {[ "ts" := g.1; "n" := VInt g.2 ]}) <$> groups))
    ∧ SnapshotDb.derived snap = {[ "tomas_by_ttl"%string := by_ttl ]}
    ∧ SnapshotDb.alerts snap
      = (count, (λ g : value * Z, {[ "ts" := g.1; "n" := VInt g.2 ]}) <$> groups).
Proof.
  intros Hrv. unfold SnapshotDb.read_views in Hrv.
  apply bind_Ok in Hrv as (pi_latest & H1 & Hrv).
  apply bind_Ok in Hrv as (net_latest & H2 & Hrv).
  apply bind_Ok in Hrv as (net_series & H3 & Hrv).
  apply bind_Ok in Hrv as (tomas & H4 & Hrv).
  apply bind_Ok in Hrv as (names & H5 & Hrv).
  apply bind_Ok in Hrv as (latest_map & H6 & Hrv).
  apply bind_Ok in Hrv as (series & H7 & Hrv).
  apply bind_Ok in Hrv as (by_ttl & H8 & Hrv).
  apply bind_Ok in Hrv as (count & H9 & Hrv).
  apply bind_Ok in Hrv as (groups & H10 & Hrv).
  injection Hrv as <-.
  apply bind_param_Ok in H3 as [_ H3].
  apply bind_param_Ok in H9 as [_ H9].
  apply bind_param_Ok in H10 as [_ H10].
  apply (for_loop_weaken _
           (λ (m : gmap string (list row)) tn,
              bind (select_desc d "toma_samples" (WEq "toma" (VText tn)) "ts" tp)
                (λ p, bind (project p.1 ["ts"; "toma"; "amperaje"; "potencia_w";
                                         "estado"; "rssi"])
                        (λ sel, Ok (<[tn := reverse (sel <$> p.2)]> m))))) in H7.
  2:{ intros m x m' Hb. apply bind_Ok in Hb as (p & Hp & Hb).
      apply bind_param_Ok in Hp as [_ Hp]. rewrite Hp. exact Hb. }
  exists pi_latest, net_latest, net_series, tomas, names, latest_map, series,
    by_ttl, count, groups.
  cbn [SnapshotDb.tables SnapshotDb.derived SnapshotDb.alerts].
  repeat (split; [assumption|]).
  split; [by rewrite !lookup_insert_ne, lookup_insert_eq by done|].
  split; [by rewrite !lookup_insert_ne, lookup_insert_eq by done|].
  split; [by rewrite !lookup_insert_ne, lookup_insert_eq by done|].
  split; [by rewrite lookup_insert_eq|]. done.
Qed.

Lemma for_loop_keys {V} (body : gmap string V → string → outcome (gmap string V))
    (l : list string) (m0 m : gmap string V) :
  (∀ m1 x m2, body m1 x = Ok m2 → ∃ v, m2 = <[x := v]> m1) →
  for_loop body m0 l = Ok m →
  ∀ x, (x ∈ l ∨ is_Some (m0 !! x)) → is_Some (m !! x).
Proof.
  intros Hbody. revert m0. induction l as [|y l IH]; intros m0 Hloop x Hx.
  - injection Hloop as <-. destruct Hx as [Hx|Hx]; [by apply elem_of_nil in Hx|done].
  - cbn in Hloop. destruct (body m0 y) as [m1|e] eqn:E; [|discriminate].
    destruct (Hbody _ _ _ E) as [v ->].
    apply (IH _ Hloop). destruct Hx as [Hx|Hx].
    + apply elem_of_cons in Hx as [->|Hx]; [|by left].
      right. rewrite lookup_insert_eq. eauto.
    + right. destruct (decide (x = y)) as [->|Hne].
      * rewrite lookup_insert_eq. eauto.
      * by rewrite lookup_insert_ne.
Qed.

(** The liveness map follows the latest samples. In a snapshot that
    was built, the derived map has an entry exactly for the outlets
    that have a latest sample, each such outlet has a series and a
    name that is not empty, and an entry repeats the current, power,
    state and signal strength of the outlet's latest sample, with an
    online flag that is 0 or 1. *)
Theorem derived_follows_latest (d : db) (now : Z) (path : string)
    (max_rows toma_points ttl : Z) (snap : SnapshotDb.snapshot) (fs' : option db)
    (Hbuild : SnapshotDb.build_snapshot (Some d) now path max_rows toma_points ttl
              = (Ok snap, fs')) :
  ∃ latest_map series by_ttl,
    SnapshotDb.tables snap !! "toma_samples"
    = Some (SnapshotDb.TomaSamples latest_map series)
    ∧ SnapshotDb.derived snap !! "tomas_by_ttl" = Some by_ttl
    ∧ (∀ k, is_Some (by_ttl !! k) ↔ is_Some (latest_map !! k))
    ∧ (∀ k, is_Some (latest_map !! k) → is_Some (series !! k) ∧ k ≠ ""%string)
    ∧ (∀ k r, latest_map !! k = Some r →
         ∃ e, by_ttl !! k = Some e
              ∧ SnapshotDb.liveness_of now ttl r = Ok e
              ∧ SnapshotDb.amperaje e = SnapshotDb.rget r "amperaje"
              ∧ SnapshotDb.potencia_w e = SnapshotDb.rget r "potencia_w"
              ∧ SnapshotDb.estado e = SnapshotDb.rget r "estado"
              ∧ SnapshotDb.rssi e = SnapshotDb.rget r "rssi"
              ∧ (SnapshotDb.online e = 0%Z ∨ SnapshotDb.online e = 1%Z)).
Proof.
  destruct (build_snapshot_reads _ _ _ _ _ _ _ _ Hbuild) as (d' & Hrv & _).
  destruct (read_views_inv _ _ _ _ _ _ _ Hrv)
    as (pl & nl & ns & tomas & names & lm & sp & bt & cnt & gr
        & _ & _ & _ & _ & Hnames & Hlm & Hsp & Hbt & _ & _ & _ & _ & Ht & _ & Hd & _).
  exists lm, sp, bt. split; [exact Ht|].
  split; [by rewrite Hd, lookup_singleton_eq|].
  pose proof (by_ttl_loop _ _ _ _ (NoDup_fst_map_to_list lm) Hbt) as Hby.
  assert (Hentry : ∀ k r, lm !! k = Some r →
            ∃ e, SnapshotDb.liveness_of now ttl r = Ok e ∧ bt !! k = Some e).
  { intros k r Hk. apply (proj1 (Hby k) r). by apply elem_of_map_to_list. }
  split; [|split].
  - intros k. split.
    + intros Hsome. destruct (lm !! k) as [r|] eqn:Hk; [eauto|].
      rewrite (proj2 (Hby k)) in Hsome; [by rewrite lookup_empty in Hsome|].
      intros ([k' r] & Hk' & Hin)%list_elem_of_fmap. cbn in Hk'. subst k'.
      apply elem_of_map_to_list in Hin. congruence.
    + intros [r Hk]. destruct (Hentry k r Hk) as (e & _ & He). eauto.
  - intros k [r Hk].
    assert (Hin : k ∈ sorted names).
    { destruct (decide (k ∈ sorted names)) as [Hin|Hout]; [exact Hin|].
      pose proof (latest_loop _ _ _ _ Hlm k) as [_ Hnot].
      rewrite (Hnot Hout), lookup_empty in Hk. discriminate. }
    split.
    + eapply (for_loop_keys _ _ _ _ _ Hsp). by left.
    + rewrite sorted_elem in Hin.
      by apply (proj1 (truthy_names_spec _ _ Hnames k)) in Hin as [Hne _].
  - intros k r Hk. destruct (Hentry k r Hk) as (e & He & Hb).
    exists e. split; [exact Hb|]. split; [exact He|].
    unfold SnapshotDb.liveness_of in He.
    apply bind_Ok in He as (ts & _ & He). injection He as <-. cbn.
    repeat split. destruct (_ <=? ttl)%Z; auto.
Unshelve.
  intros m1 x m2 Hb.
  apply bind_Ok in Hb as (p & _ & Hb). apply bind_Ok in Hb as (sel & _ & Hb).
  injection Hb as <-. eauto.
Qed.
End SnapshotViews.
(** ** Alerts and series of a snapshot *)

Section SnapshotSeries.

Lemma insert_asc_length {A} (k : A → value) x l :
  length (insert_asc k x l) = S (length l).
Proof.
  induction l as [|y l IH]; [done|]. cbn.
  destruct (value_compare (k x) (k y)); cbn; by rewrite ?IH.
Qed.

Lemma order_by_asc_length {A} (k : A → value) l :
  length (order_by_asc k l) = length l.
Proof.
  induction l as [|x l IH]; [done|]. cbn.
  fold (order_by_asc k l). by rewrite insert_asc_length, IH.
Qed.

Lemma insert_desc_length {A} (k : A → value) x l :
  length (insert_desc k x l) = S (length l).
Proof.
  induction l as [|y l IH]; [done|]. cbn.
  destruct (value_compare (k x) (k y)); cbn; by rewrite ?IH.
Qed.

Lemma order_by_desc_length {A} (k : A → value) l :
  length (order_by_desc k l) = length l.
Proof.
  induction l as [|x l IH]; [done|]. cbn.
  fold (order_by_desc k l). by rewrite insert_desc_length, IH.
Qed.

Lemma group_counts_total l :
  sum (group_counts l).*2 = Z.of_nat (length l)
  ∧ Forall (λ g, (1 ≤ g.2)%Z) (group_counts l).
Proof.
  induction l as [|v l [IHs IHf]]; [by split|].
  cbn [group_counts]. destruct (group_counts l) as [|[u n] g].
  - destruct l; [|cbn in IHs; lia]. split; [done|]. by repeat constructor.
  - cbn [fmap list_fmap sum foldr snd] in IHs.
    apply Forall_cons in IHf as [Hn Hg]. cbn [snd] in Hn.
    destruct (bool_decide _); cbn [fmap list_fmap sum foldr snd length].
    + split; [lia|]. apply List.Forall_cons; [cbn; lia|exact Hg].
    + split; [cbn in IHs |- *; lia|].
      apply List.Forall_cons; [cbn; lia|]. by apply List.Forall_cons.
Qed.

Lemma read_views_alert_views d now path mr tp ttl snap :
  SnapshotDb.read_views d now path mr tp ttl = Ok snap →
  SnapshotDb.alert_views d d now = Ok (SnapshotDb.alerts snap).
Proof.
  intros Hrv. unfold SnapshotDb.read_views in Hrv.
  do 8 (apply bind_Ok in Hrv as (? & _ & Hrv)).
  apply bind_Ok in Hrv as (count & H9 & Hrv).
  apply bind_Ok in Hrv as (groups & H10 & Hrv).
  injection Hrv as <-. unfold SnapshotDb.alert_views.
  cbn zeta. rewrite H9. cbn [bind]. rewrite H10. reflexivity.
Qed.

Lemma group_sum_app (keep : list value → bool) (k : list value → value) l1 l2 :
  sum (group_counts (order_by_asc id (k <$> List.filter keep (l1 ++ l2)))).*2
  = (Z.of_nat (length (List.filter keep l1))
     + Z.of_nat (length (List.filter keep l2)))%Z.
Proof.
  rewrite (proj1 (group_counts_total _)), order_by_asc_length, length_fmap.
  rewrite List.filter_app, length_app. lia.
Qed.

(** The alert count and the alert series come from two statements,
    and the ingestor may store alerts between them. Let the count be
    taken on a store and the series on a store whose alert table holds
    the same records followed by those stored in between. Then every
    per-second count of the series is at least 1, the count is the
    number of records of the first store whose timestamp is not below
    [now - 120], and the per-second counts add up to the count plus the
    number of such records among those stored in between: the count
    never exceeds the total of the series, and equals it when nothing
    was stored in between, as in a snapshot built from a store that
    nobody writes to. *)
Theorem alerts_count_is_series_total (d1 d2 : db) (now c : Z) (series : list row)
    (t : table) (extra : list (list value)) (j : nat)
    (Ht1 : tables d1 !! "alert_samples" = Some t)
    (Ht2 : tables d2 !! "alert_samples"
           = Some {| cols := cols t; rows := rows t ++ extra |})
    (Hj : col_index (col_names t) "ts" = Some j)
    (Hread : SnapshotDb.alert_views d1 d2 now = Ok (c, series)) :
  let recent := λ r : list value,
    match field r j with
    | VNull => false
    | x => negb (bool_decide (value_compare x (VInt (now - 120)) = Lt))
    end in
  (∃ groups,
     series = (λ g : value * Z, {[ "ts" := g.1; "n" := VInt g.2 ]}) <$> groups
     ∧ Forall (λ g, (1 ≤ g.2)%Z) groups
     ∧ c = Z.of_nat (length (List.filter recent (rows t)))
     ∧ sum groups.*2 = (c + Z.of_nat (length (List.filter recent extra)))%Z
     ∧ (c ≤ sum groups.*2)%Z
     ∧ (extra = [] → c = sum groups.*2))
  ∧ (∀ d path max_rows toma_points ttl snap fs',
       SnapshotDb.build_snapshot (Some d) now path max_rows toma_points ttl
       = (Ok snap, fs') →
       ∃ d', (∀ n t', tables d !! n = Some t' → tables d' !! n = Some t')
             ∧ SnapshotDb.alert_views d' d' now = Ok (SnapshotDb.alerts snap)
             ∧ SnapshotDb.tables snap !! "alert_samples"
               = Some (SnapshotDb.AlertSamples (SnapshotDb.alerts snap).1
                         (SnapshotDb.alerts snap).2)).
Proof.
  intros recent. split.
  - unfold SnapshotDb.alert_views in Hread. cbn zeta in Hread.
    apply bind_Ok in Hread as (count & H9 & Hread).
    apply bind_Ok in Hread as (groups & H10 & Hread).
    injection Hread as <- <-.
    apply bind_param_Ok in H9 as [_ H9]. apply bind_param_Ok in H10 as [_ H10].
    unfold select_count in H9. rewrite Ht1 in H9.
    unfold select_group_count in H10. rewrite Ht2 in H10.
    unfold where_holds in *. rewrite (column_index _ _ _ Hj) in H9.
    assert (Hc2 : column {| cols := cols t; rows := rows t ++ extra |} "ts"
                  = Ok (λ r, field r j)) by (apply column_index; exact Hj).
    rewrite Hc2 in H10. cbn [rows] in H10.
    injection H9 as <-. injection H10 as <-.
    eexists. split; [reflexivity|].
    split; [apply group_counts_total|]. split; [reflexivity|].
    rewrite group_sum_app.
    split; [reflexivity|]. split; [lia|].
    intros ->. cbn [List.filter length]. lia.
  - intros d path mr tp ttl snap fs' Hbuild.
    destruct (build_snapshot_reads _ _ _ _ _ _ _ _ Hbuild) as (d' & Hrv & Hkeep).
    exists d'. split; [exact Hkeep|].
    split; [apply (read_views_alert_views _ _ _ _ _ _ _ Hrv)|].
    destruct (read_views_inv _ _ _ _ _ _ _ Hrv)
      as (pl & nl & ns & tomas & names & lm & sp & bt & cnt & gr
          & _ & _ & _ & _ & _ & _ & _ & _ & _ & _ & _ & _ & _ & Ha & _ & Hal).
    rewrite Hal. exact Ha.
Qed.

Lemma alerts_count_is_series_total_witness :
  let d2 := append_row "alert_samples"
              [VInt 1700000050; VText "toma1"; VInt 2; VText "overload";
               VReal 2300; VInt (-61); VNull] Examples.alert_store in
  ∃ c series groups,
    SnapshotDb.alert_views Examples.alert_store d2 1700000100 = Ok (c, series)
    ∧ series = (λ g : value * Z, {[ "ts" := g.1; "n" := VInt g.2 ]}) <$> groups
    ∧ c = 3%Z ∧ sum groups.*2 = 4%Z.
Proof.
  intros d2.
  assert (E : ∃ c series,
             SnapshotDb.alert_views Examples.alert_store d2 1700000100
             = Ok (c, series) ∧ c = 3%Z)
    by (vm_compute; eauto).
  destruct E as (c & series & E & Hc). exists c, series.
  assert (Ht1 : tables Examples.alert_store !! "alert_samples"
                = Some {| cols := SnapshotDb.alert_samples_cols;
                          rows := [[VInt 1700000000; VText "toma1"; VInt 1;
                                    VText "overload"; VReal 2000; VInt (-60); VNull];
                                   [VInt 1700000005; VText "toma2"; VInt 1;
                                    VText "overload"; VReal 2100; VInt (-58); VNull];
                                   [VInt 1700000000; VText "toma2"; VInt 2;
                                    VText "overload"; VReal 2200; VInt (-58); VNull]] |})
    by (vm_compute; reflexivity).
  assert (Ht2 : tables d2 !! "alert_samples"
                = Some {| cols := SnapshotDb.alert_samples_cols;
                          rows := [[VInt 1700000000; VText "toma1"; VInt 1;
                                    VText "overload"; VReal 2000; VInt (-60); VNull];
                                   [VInt 1700000005; VText "toma2"; VInt 1;
                                    VText "overload"; VReal 2100; VInt (-58); VNull];
                                   [VInt 1700000000; VText "toma2"; VInt 2;
                                    VText "overload"; VReal 2200; VInt (-58); VNull]]
                                  ++ [[VInt 1700000050; VText "toma1"; VInt 2;
                                       VText "overload"; VReal 2300; VInt (-61);
                                       VNull]] |})
    by (vm_compute; reflexivity).
  destruct (alerts_count_is_series_total Examples.alert_store d2 1700000100 c series
              _ _ 0%nat Ht1 Ht2 eq_refl E) as [(groups & Hs & _ & _ & Hsum & _) _].
  exists groups. split; [exact E|]. split; [exact Hs|]. split; [exact Hc|].
  rewrite Hsum, Hc. vm_compute. reflexivity.
Defined.
End SnapshotSeries.
(** ** The network series *)

Section NetSeries.

Lemma select_all_desc d tbl n res :
  SnapshotDb._rows_star (select_desc d tbl WAll "ts" n) = Ok res →
  ∃ t j, tables d !! tbl = Some t
         ∧ col_index (col_names t) "ts" = Some j
         ∧ res = star t <$> limit n (order_by_desc (λ r, field r j) (rows t)).
Proof.
  unfold SnapshotDb._rows_star, select_desc.
  destruct (tables d !! tbl) as [t|]; [|discriminate].
  cbn [where_holds]. destruct (column t "ts") as [get|e] eqn:Hc; [|discriminate].
  apply column_Ok in Hc as (j & Hj & ->). cbn [bind fst snd].
  intros [= <-]. exists t, j. split; [done|]. split; [done|].
  f_equal. f_equal. f_equal. induction (rows t) as [|r l IH]; [done|].
  cbn. by rewrite IH.
Qed.

Lemma insert_desc_keys {A} (k : A → value) x l z zs :
  k x = VInt z → k <$> l = VInt <$> zs → StronglySorted Z.ge zs →
  ∃ zs', k <$> insert_desc k x l = VInt <$> zs'
         ∧ StronglySorted Z.ge zs' ∧ zs' ≡ₚ z :: zs.
Proof.
  intros Hx. revert zs. induction l as [|y l IH]; intros zs Hl Hs.
  - destruct zs; [|discriminate]. exists [z]. cbn. rewrite Hx.
    split; [done|]. split; [|done]. repeat constructor.
  - destruct zs as [|zy zs]; [discriminate|]. cbn in Hl.
    injection Hl as Hy Hl. cbn [insert_desc]. rewrite Hx, Hy. cbn [value_compare].
    apply StronglySorted_cons in Hs as [Hall Hs].
    destruct (Z.compare_spec z zy) as [->|Hlt|Hgt].
    + exists (zy :: zy :: zs). cbn. rewrite Hx, Hy, Hl. split; [done|].
      split; [|done]. apply StronglySorted_cons. split.
      * apply List.Forall_cons; [lia|exact Hall].
      * by apply StronglySorted_cons.
    + destruct (IH zs Hl Hs) as (zs' & Hk & Hs' & Hp).
      exists (zy :: zs'). cbn. rewrite Hy, Hk. split; [done|]. split.
      * apply StronglySorted_cons. split; [|exact Hs'].
        rewrite Hp. apply List.Forall_cons; [lia|exact Hall].
      * rewrite Hp. apply perm_swap.
    + exists (z :: zy :: zs). cbn. rewrite Hx, Hy, Hl. split; [done|].
      split; [|done]. apply StronglySorted_cons. split.
      * apply List.Forall_cons; [lia|].
        eapply Forall_impl; [exact Hall|]. intros w Hw. cbn in Hw. lia.
      * by apply StronglySorted_cons.
Qed.

Lemma order_by_desc_keys {A} (k : A → value) l zs :
  k <$> l = VInt <$> zs →
  ∃ zs', k <$> order_by_desc k l = VInt <$> zs'
         ∧ StronglySorted Z.ge zs' ∧ zs' ≡ₚ zs.
Proof.
  revert zs. induction l as [|x l IH]; intros zs Hl.
  - destruct zs; [|discriminate]. exists []. repeat split; constructor.
  - destruct zs as [|z zs]; [discriminate|]. cbn in Hl. injection Hl as Hx Hl.
    destruct (IH zs Hl) as (zs1 & Hk1 & Hs1 & Hp1).
    cbn [order_by_desc foldr]. fold (order_by_desc k l).
    destruct (insert_desc_keys k x _ z zs1 Hx Hk1 Hs1) as (zs' & Hk & Hs & Hp).
    exists zs'. split; [exact Hk|]. split; [exact Hs|]. by rewrite Hp, Hp1.
Qed.

Lemma StronglySorted_take {A} (R : relation A) n l :
  StronglySorted R l → StronglySorted R (take n l).
Proof.
  intros Hs. rewrite <- (take_drop n l) in Hs.
  by apply StronglySorted_app_1_l in Hs.
Qed.

Lemma StronglySorted_ge_reverse l :
  StronglySorted Z.ge l → StronglySorted Z.le (reverse l).
Proof.
  induction l as [|x l IH]; [constructor|].
  intros [Hall Hs]%StronglySorted_cons. rewrite reverse_cons.
  apply StronglySorted_app_2; [|by apply IH|repeat constructor].
  intros y x' Hy Hx'. apply list_elem_of_singleton in Hx' as ->.
  rewrite elem_of_reverse in Hy. rewrite Forall_forall in Hall.
  specialize (Hall y Hy). lia.
Qed.

Lemma star_ts t r j :
  col_index (col_names t) "ts" = Some j →
  SnapshotDb.rget (star t r) "ts" = field r j.
Proof. intros Hj. unfold SnapshotDb.rget. by rewrite star_lookup, Hj. Qed.

Lemma read_views_net_views d now path mr tp ttl snap :
  SnapshotDb.read_views d now path mr tp ttl = Ok snap →
  ∃ latest series,
    SnapshotDb.net_views d d mr = Ok (latest, series)
    ∧ SnapshotDb.tables snap !! "net_samples"
      = Some (SnapshotDb.NetSamples latest series).
Proof.
  intros Hrv. unfold SnapshotDb.read_views in Hrv.
  apply bind_Ok in Hrv as (pi_latest & _ & Hrv).
  apply bind_Ok in Hrv as (net_latest & H2 & Hrv).
  apply bind_Ok in Hrv as (net_series & H3 & Hrv).
  do 7 (apply bind_Ok in Hrv as (? & _ & Hrv)).
  injection Hrv as <-. exists net_latest, (reverse net_series).
  unfold SnapshotDb.net_views. rewrite H2. cbn [bind]. rewrite H3.
  split; [reflexivity|]. cbn [SnapshotDb.tables].
  by rewrite !lookup_insert_ne, lookup_insert_eq by done.
Qed.

(** The series of network samples. The latest row and the series come
    from two statements, and the writing sampler may insert and prune
    between them. Whatever stores the two statements find, there is at
    most one latest row; with a limit that is not negative the series
    has at most that many rows, with a negative limit it has all the
    rows its statement found; and when every timestamp that statement
    found is an integer the timestamps of the series are in ascending
    order. When the table was not written to between the two
    statements, as in a snapshot built from a store that nobody writes
    to, and the limit is not 0, the series ends with the latest row. *)
Theorem net_series_chronological (d1 d2 : db) (max_rows : Z)
    (latest series : list row)
    (Hread : SnapshotDb.net_views d1 d2 max_rows = Ok (latest, series)) :
  (length latest ≤ 1)%nat
  ∧ ((0 ≤ max_rows)%Z → (length series ≤ Z.to_nat max_rows)%nat)
  ∧ (∀ t, tables d2 !! "net_samples" = Some t →
       length series
       = (if (max_rows <? 0)%Z then length (rows t)
          else Nat.min (Z.to_nat max_rows) (length (rows t)))
       ∧ ∀ j zs,
           col_index (col_names t) "ts" = Some j →
           (λ r, field r j) <$> rows t = VInt <$> zs →
           ∃ zs', (λ r, SnapshotDb.rget r "ts") <$> series = VInt <$> zs'
                  ∧ StronglySorted Z.le zs'
                  ∧ (∀ z, z ∈ zs' → z ∈ zs))
  ∧ (tables d1 !! "net_samples" = tables d2 !! "net_samples" →
     max_rows ≠ 0%Z → last series = head latest)
  ∧ (∀ d now path toma_points ttl snap fs',
       SnapshotDb.build_snapshot (Some d) now path max_rows toma_points ttl
       = (Ok snap, fs') →
       ∃ d' latest' series',
         (∀ n t', tables d !! n = Some t' → tables d' !! n = Some t')
         ∧ SnapshotDb.net_views d' d' max_rows = Ok (latest', series')
         ∧ SnapshotDb.tables snap !! "net_samples"
           = Some (SnapshotDb.NetSamples latest' series')).
Proof.
  unfold SnapshotDb.net_views in Hread.
  apply bind_Ok in Hread as (nl & Hnl & Hread).
  apply bind_Ok in Hread as (ns & Hns & Hread).
  injection Hread as <- <-.
  apply bind_param_Ok in Hns as [_ Hns].
  apply select_all_desc in Hnl as (t1 & j1 & Ht1 & Hj1 & ->).
  apply select_all_desc in Hns as (t2 & j2 & Ht2 & Hj2 & ->).
  set (L := order_by_desc (λ r, field r j2) (rows t2)).
  unfold limit. change (1 <? 0)%Z with false. cbn [Z.to_nat Pos.to_nat Pos.iter_op Nat.add].
  split; [|split; [|split; [|split]]].
  - rewrite length_fmap, length_take. lia.
  - intros Hmr. rewrite length_reverse, length_fmap.
    destruct (Z.ltb_spec max_rows 0); [lia|]. rewrite length_take. lia.
  - intros t Ht. rewrite Ht in Ht2. injection Ht2 as <-.
    split.
    + rewrite length_reverse, length_fmap.
      destruct (Z.ltb_spec max_rows 0).
      * subst L. by rewrite order_by_desc_length.
      * subst L. by rewrite length_take, order_by_desc_length.
    + intros j zs Hj Hzs. rewrite Hj in Hj2. injection Hj2 as <-.
      destruct (order_by_desc_keys (λ r, field r j) (rows t) zs Hzs)
        as (zs1 & Hk & Hs & Hp). fold L in Hk.
      set (n := if (max_rows <? 0)%Z then length L else Z.to_nat max_rows).
      assert (Hlim : (if (max_rows <? 0)%Z then L else take (Z.to_nat max_rows) L)
                     = take n L).
      { subst n. destruct (max_rows <? 0)%Z; [by rewrite firstn_all|done]. }
      rewrite Hlim. exists (reverse (take n zs1)).
      split; [|split].
      * rewrite !fmap_reverse. f_equal. rewrite <- list_fmap_compose.
        rewrite (fmap_take VInt), <- Hk, <- fmap_take.
        apply list_fmap_ext. intros i r _. cbn. by apply star_ts.
      * apply StronglySorted_ge_reverse, StronglySorted_take, Hs.
      * intros z Hz. rewrite elem_of_reverse in Hz.
        apply elem_of_take in Hz as (i & Hz & _).
        rewrite <- Hp. by eapply list_elem_of_lookup_2.
  - intros Hsame Hmr. rewrite Ht1, Ht2 in Hsame. injection Hsame as ->.
    rewrite Hj1 in Hj2. injection Hj2 as ->. fold L.
    rewrite last_reverse.
    destruct (Z.ltb_spec max_rows 0); [by destruct L|].
    destruct (Z.to_nat max_rows) as [|n] eqn:En; [lia|]. by destruct L.
  - intros d now path tp ttl snap fs' Hbuild.
    destruct (build_snapshot_reads _ _ _ _ _ _ _ _ Hbuild) as (d' & Hrv & Hkeep).
    destruct (read_views_net_views _ _ _ _ _ _ _ Hrv) as (la & se & Hv & Hn).
    exists d', la, se. split; [exact Hkeep|]. split; [exact Hv | exact Hn].
Qed.

Lemma net_series_chronological_witness :
  ∃ latest series,
    SnapshotDb.net_views Examples.net_store Examples.net_store 2
    = Ok (latest, series)
    ∧ (length series ≤ 2)%nat ∧ last series = head latest.
Proof.
  assert (E : ∃ latest series,
             SnapshotDb.net_views Examples.net_store Examples.net_store 2
             = Ok (latest, series))
    by (do 2 eexists; vm_compute; reflexivity).
  destruct E as (latest & series & E). exists latest, series.
  destruct (net_series_chronological _ _ _ _ _ E)
    as (_ & Hlen & _ & Hlast & _).
  split; [exact E|]. split; [apply Hlen; lia | apply Hlast; [reflexivity|lia]].
Defined.
End NetSeries.
(** ** From a stored message to the snapshot *)

Section RoundTrip.
Import IngestTomas.
Variable repr : pyval → string.

Lemma telem_row_head now toma doc vals :
  bind_all (telem_row now toma doc) = Ok vals →
  ∃ rest, vals = VInt (int_of_float now) :: VText toma :: rest.
Proof.
  intros Hb. unfold telem_row in Hb.
  apply bind_all_cons in Hb as (v0 & vs & H0 & Hb & ->).
  apply bind_all_cons in Hb as (v1 & vs' & H1 & _ & ->).
  apply bind_int_Ok in H0 as [-> _]. injection H1 as <-. eauto.
Qed.

Lemma samples_of_snoc t i tn r :
  field r i = VText tn →
  samples_of {| cols := cols t; rows := rows t ++ [r] |} i tn
  = samples_of t i tn ++ [r].
Proof.
  intros Hr. unfold samples_of. cbn [rows]. rewrite List.filter_app.
  assert (Hk : is_text tn (field r i) = true).
  { rewrite Hr. cbn [is_text]. apply String.eqb_refl. }
  cbn [List.filter]. by rewrite Hk.
Qed.

(** A stored sample is the outlet's latest in the next snapshot. When
    [on_telem] stores a telemetry message at the second [ts], no
    stored sample of that outlet is later than [ts], and the
    normalised identifier is not empty, a snapshot built afterwards
    lists the outlet with the timestamp [ts]; when [ts] is not 0 its
    age is the snapshot time minus [ts], and it is online exactly when
    that age is within the time to live. *)
Theorem ingested_sample_is_live (w : Writer) (now : Q) (msg : Mqtt.message)
    (tid : string) (doc : gmap string pyval) (t : table) (vals : list value)
    (i j : nat) (tss : list Z)
    (snap_now : Z) (path : string) (max_rows toma_points ttl : Z)
    (snap : SnapshotDb.snapshot) (fs' : option db)
    (Hid : topic_to_id (Mqtt.topic msg) = Some tid)
    (Hne : tid ≠ ""%string)
    (Hres : lower tid ∉ RESERVED_IDS)
    (Hjson : Mqtt.json msg = Some (PDict doc))
    (Hnorm : toma_norm_of repr doc tid ∉ RESERVED_IDS)
    (Hname : toma_norm_of repr doc tid ≠ ""%string)
    (Ht : tables (con w) !! "toma_samples" = Some t)
    (Hcols : Forall (λ c, c ∈ col_names t) telem_columns)
    (Hi : col_index (col_names t) "toma" = Some i)
    (Hj : col_index (col_names t) "ts" = Some j)
    (Hbind : bind_all (telem_row now (toma_norm_of repr doc tid) doc) = Ok vals)
    (Hold : (λ r, field r j) <$> samples_of t i (toma_norm_of repr doc tid)
            = VInt <$> tss)
    (Hlatest : ∀ z, z ∈ tss → (z ≤ int_of_float now)%Z)
    (Hbuild : SnapshotDb.build_snapshot (Some (con (on_telem repr w now msg)))
                snap_now path max_rows toma_points ttl = (Ok snap, fs')) :
  ∃ by_ttl e,
    SnapshotDb.derived snap !! "tomas_by_ttl" = Some by_ttl
    ∧ by_ttl !! toma_norm_of repr doc tid = Some e
    ∧ SnapshotDb.l_ts e = int_of_float now
    ∧ (int_of_float now ≠ 0%Z →
       SnapshotDb.age_sec e = (snap_now - int_of_float now)%Z
       ∧ (SnapshotDb.online e = 1%Z ↔ (snap_now - int_of_float now ≤ ttl)%Z)).
Proof.
  set (tn := toma_norm_of repr doc tid) in *.
  set (ts := int_of_float now) in *.
  destruct (telem_row_head _ _ _ _ Hbind) as [rest ->].
  set (rec := record_of t telem_columns (VInt ts :: VText tn :: rest)).
  assert (Hrec_i : field rec i = VText tn).
  { subst rec. rewrite (record_of_field _ _ _ _ _ Hi). unfold telem_columns.
    cbn [zip zip_with list_to_map foldr].
    rewrite lookup_insert_ne by done. by rewrite lookup_insert_eq. }
  assert (Hrec_j : field rec j = VInt ts).
  { subst rec. rewrite (record_of_field _ _ _ _ _ Hj). unfold telem_columns.
    cbn [zip zip_with list_to_map foldr]. by rewrite lookup_insert_eq. }
  rewrite (on_telem_inserts repr w now msg tid doc t _ Hid Hne Hres Hjson Hnorm
             Ht Hcols Hbind) in Hbuild.
  fold rec in Hbuild.
  destruct (build_snapshot_reads _ _ _ _ _ _ _ _ Hbuild) as (d' & Hrv & Hkeep).
  set (t' := {| cols := cols t; rows := rows t ++ [rec] |}).
  assert (Ht' : tables d' !! "toma_samples" = Some t').
  { apply Hkeep. unfold append_row. rewrite Ht. cbn [set_table tables].
    by rewrite lookup_insert_eq. }
  destruct (read_views_by_ttl _ _ _ _ _ _ _ t' i j tn Hrv Ht' Hi Hj Hname)
    as (by_ttl & Hd & Hhead).
  exists by_ttl.
  subst t'. rewrite (samples_of_snoc t i tn rec Hrec_i) in Hhead.
  pose proof (order_by_desc_head (λ r, field r j)
                (samples_of t i tn ++ [rec]) (tss ++ [ts])) as Hmax.
  rewrite !fmap_app in Hmax. cbn [fmap list_fmap] in Hmax.
  rewrite Hold, Hrec_j in Hmax. specialize (Hmax eq_refl).
  destruct (order_by_desc (λ r, field r j) (samples_of t i tn ++ [rec]))
    as [|r l]; [by destruct (samples_of t i tn)|].
  cbn [head] in Hhead. destruct Hhead as (e & He & Hb).
  destruct Hmax as (z & Hz & Hin & Hge).
  assert (z = ts) as ->.
  { assert (ts ≤ z)%Z by (apply Hge, elem_of_app; right; apply list_elem_of_here).
    apply elem_of_app in Hin as [Hin|Hin%list_elem_of_singleton]; [|done].
    specialize (Hlatest _ Hin). lia. }
  destruct (liveness_of_int snap_now ttl (star {| cols := cols t; rows := rows t ++ [rec] |} r) ts)
    as (e' & He' & Hts & Hage & Hon).
  { unfold SnapshotDb.rget. rewrite star_lookup.
    change (col_names {| cols := cols t; rows := rows t ++ [rec] |})
      with (col_names t).
    rewrite Hj. exact Hz. }
  rewrite He in He'. injection He' as <-.
  exists e. split; [by rewrite Hd, lookup_singleton_eq|]. split; [exact Hb|].
  split; [exact Hts|]. intros Hnz.
  destruct (Z.eqb_spec ts 0) as [?|_]; [done|].
  split; [exact Hage|]. rewrite Hon, Hage.
  destruct (Z.leb_spec (snap_now - ts) ttl); split; intros; try lia; done.
Qed.
End RoundTrip.
Lemma derived_follows_latest_witness :
  ∃ snap fs' latest_map series by_ttl,
    SnapshotDb.build_snapshot (Some Examples.old_store) 1700000015
      "safegrid.db" 60 60 10 = (Ok snap, fs')
    ∧ SnapshotDb.tables snap !! "toma_samples"
      = Some (SnapshotDb.TomaSamples latest_map series)
    ∧ SnapshotDb.derived snap !! "tomas_by_ttl" = Some by_ttl
    ∧ (∀ k, is_Some (by_ttl !! k) ↔ is_Some (latest_map !! k)).
Proof.
  assert (E : ∃ snap fs',
             SnapshotDb.build_snapshot (Some Examples.old_store) 1700000015
               "safegrid.db" 60 60 10 = (Ok snap, fs'))
    by (vm_compute; eauto).
  destruct E as (snap & fs' & E). exists snap, fs'.
  destruct (derived_follows_latest _ _ _ _ _ _ _ _ E)
    as (lm & sp & bt & Ht & Hd & Hk & _).
  exists lm, sp, bt. split; [exact E|]. split; [exact Ht|]. split; [exact Hd | exact Hk].
Defined.

Lemma ingested_sample_is_live_witness :
  ∃ snap fs' by_ttl e,
    SnapshotDb.build_snapshot
      (Some (IngestTomas.con
               (IngestTomas.on_telem Examples.repr_opaque Examples.writer0
                  1700000000 Examples.telem_abc)))
      1700000005 "safegrid.db" 60 60 10 = (Ok snap, fs')
    ∧ SnapshotDb.derived snap !! "tomas_by_ttl" = Some by_ttl
    ∧ by_ttl !! "toma1" = Some e
    ∧ SnapshotDb.l_ts e = 1700000000%Z
    ∧ SnapshotDb.online e = 1%Z.
Proof.
  set (doc := ({[ "amperaje" := PStr "abc"; "seq" := PInt 4 ]} : gmap string pyval)).
  assert (Hnorm_eq : IngestTomas.toma_norm_of Examples.repr_opaque doc "toma1"
                     = "toma1"%string) by (vm_compute; reflexivity).
  assert (Hres : ∀ s : string, bool_decide (s ∈ IngestTomas.RESERVED_IDS) = false →
                   s ∉ IngestTomas.RESERVED_IDS).
  { intros s Hs. by apply bool_decide_eq_false in Hs. }
  assert (Hid : IngestTomas.topic_to_id (Mqtt.topic Examples.telem_abc)
                = Some "toma1"%string) by (vm_compute; reflexivity).
  assert (Hne : ("toma1" : string) ≠ ""%string) by discriminate.
  assert (Hl : lower "toma1" ∉ IngestTomas.RESERVED_IDS)
    by (apply Hres; vm_compute; reflexivity).
  assert (Hn : IngestTomas.toma_norm_of Examples.repr_opaque doc "toma1"
               ∉ IngestTomas.RESERVED_IDS)
    by (apply Hres; vm_compute; reflexivity).
  assert (Hname : IngestTomas.toma_norm_of Examples.repr_opaque doc "toma1" ≠ ""%string)
    by (rewrite Hnorm_eq; discriminate).
  assert (Ht : tables (IngestTomas.con Examples.writer0) !! "toma_samples"
               = Some (fresh IngestTomas.toma_samples_cols))
    by (vm_compute; reflexivity).
  assert (Hcols : Forall (λ c, c ∈ col_names (fresh IngestTomas.toma_samples_cols))
                    IngestTomas.telem_columns)
    by (forall_intro; apply (bool_decide_unpack _); vm_compute; reflexivity).
  assert (Hb : IngestTomas.bind_all
                 (IngestTomas.telem_row 1700000000
                    (IngestTomas.toma_norm_of Examples.repr_opaque doc "toma1") doc)
               = Ok [VInt 1700000000; VText "toma1"; VInt 4; VNull; VNull; VNull;
                     VNull; VNull; VNull; VNull])
    by (vm_compute; reflexivity).
  assert (Hlatest : ∀ z : Z, z ∈ ([] : list Z) → (z ≤ int_of_float 1700000000)%Z).
  { intros z Hz. by apply elem_of_nil in Hz. }
  assert (E : ∃ snap fs',
             SnapshotDb.build_snapshot
               (Some (IngestTomas.con
                        (IngestTomas.on_telem Examples.repr_opaque Examples.writer0
                           1700000000 Examples.telem_abc)))
               1700000005 "safegrid.db" 60 60 10 = (Ok snap, fs'))
    by (vm_compute; eauto).
  destruct E as (snap & fs' & E). exists snap, fs'.
  destruct (ingested_sample_is_live Examples.repr_opaque Examples.writer0 1700000000
              Examples.telem_abc "toma1" doc (fresh IngestTomas.toma_samples_cols)
              _ 1%nat 0%nat [] 1700000005 "safegrid.db" 60 60 10 snap fs'
              Hid Hne Hl eq_refl Hn Hname Ht Hcols eq_refl eq_refl Hb eq_refl
              Hlatest E)
    as (by_ttl & e & Hd & He & Hts & Hlive).
  exists by_ttl, e. split; [exact E|]. split; [exact Hd|].
  rewrite Hnorm_eq in He. split; [exact He|]. split; [exact Hts|].
  assert (Hnz : int_of_float 1700000000 ≠ 0%Z) by (vm_compute; discriminate).
  apply (proj2 (Hlive Hnz)). vm_compute. discriminate.
Defined.

(** ** The dashboard's reading of a snapshot *)

Section Dashboard.
Variable TTL_SEC : Z.
Variable _EXPECTED_TOMAS : list string.

Lemma read_views_meta d now path mr tp ttl snap :
  SnapshotDb.read_views d now path mr tp ttl = Ok snap →
  SnapshotDb.now_ts snap = now ∧ SnapshotDb.ttl_sec snap = ttl.
Proof.
  intros Hrv. unfold SnapshotDb.read_views in Hrv.
  repeat (apply bind_Ok in Hrv as (? & _ & Hrv)).
  injection Hrv as <-. by split.
Qed.

Lemma liveness_of_Ok now ttl r e :
  SnapshotDb.liveness_of now ttl r = Ok e →
  SnapshotDb.age_sec e
  = (if (SnapshotDb.l_ts e =? 0)%Z then 10 ^ 9 else now - SnapshotDb.l_ts e)%Z
  ∧ SnapshotDb.online e = (if (SnapshotDb.age_sec e <=? ttl)%Z then 1 else 0)%Z.
Proof.
  unfold SnapshotDb.liveness_of. intros He.
  apply bind_Ok in He as (ts & _ & He). injection He as <-. by split.
Qed.

(** Every entry of the liveness map of a snapshot that was built
    carries the age and the flag computed from its timestamp. *)
Lemma built_liveness fs now path mr tp ttl snap fs' :
  SnapshotDb.build_snapshot fs now path mr tp ttl = (Ok snap, fs') →
  SnapshotDb.now_ts snap = now ∧ SnapshotDb.ttl_sec snap = ttl
  ∧ ∀ k e,
      default ∅ (SnapshotDb.derived snap !! "tomas_by_ttl") !! k = Some e →
      SnapshotDb.age_sec e
      = (if (SnapshotDb.l_ts e =? 0)%Z then 10 ^ 9 else now - SnapshotDb.l_ts e)%Z
      ∧ SnapshotDb.online e = (if (SnapshotDb.age_sec e <=? ttl)%Z then 1 else 0)%Z.
Proof.
  destruct fs as [d|].
  - intros Hbuild.
    destruct (build_snapshot_reads _ _ _ _ _ _ _ _ Hbuild) as (d' & Hrv & _).
    destruct (read_views_meta _ _ _ _ _ _ _ Hrv) as [Hn Ht].
    split; [exact Hn|]. split; [exact Ht|].
    destruct (read_views_inv _ _ _ _ _ _ _ Hrv)
      as (pl & nl & ns & tomas & names & lm & sp & bt & cnt & gr
          & _ & _ & _ & _ & _ & _ & _ & Hbt & _ & _ & _ & _ & _ & _ & Hd & _).
    rewrite Hd, lookup_singleton_eq.
    change (default ∅ (Some bt)) with bt. intros k e Hk.
    pose proof (by_ttl_loop _ _ _ _ (NoDup_fst_map_to_list lm) Hbt k) as [Hin Hout].
    destruct (decide (k ∈ (map_to_list lm).*1)) as [Hk'|Hk'].
    + apply list_elem_of_fmap in Hk' as ([k0 r] & -> & Hr). cbn in *.
      destruct (Hin r Hr) as (e' & He' & Hb). rewrite Hk in Hb. injection Hb as <-.
      by apply liveness_of_Ok in He'.
    + rewrite (Hout Hk'), lookup_empty in Hk. discriminate.
  - cbn. intros [= <- <-]. cbn. split; [done|]. split; [done|].
    intros k e Hk. rewrite lookup_empty in Hk. cbn in Hk.
    by rewrite lookup_empty in Hk.
Qed.

Lemma insert_sorted_perm x l : insert_sorted x l ≡ₚ x :: l.
Proof.
  induction l as [|y l IH]; [done|]. cbn.
  destruct (String.compare x y); try done. rewrite IH. apply perm_swap.
Qed.

Lemma sorted_perm l : sorted l ≡ₚ l.
Proof.
  induction l as [|x l IH]; [done|]. cbn. fold (sorted l).
  by rewrite insert_sorted_perm, IH.
Qed.

(** The dashboard's outlet list agrees with the snapshot. For a
    snapshot built with the dashboard's time to live at a time other
    than 0: the list names each outlet once, namely the expected
    outlets and the lower-cased keys of the liveness map that start
    with [toma]; an outlet without an entry under its name is listed
    offline with timestamp 0 and the age 10^9; an outlet with an entry
    repeats its timestamp, age and measurements, and is online exactly
    when the timestamp is not 0 and the snapshot's flag is 1. *)
Theorem tomas_detail_agrees (fs : option db) (now : Z) (path : string)
    (max_rows toma_points : Z) (snap : SnapshotDb.snapshot) (fs' : option db)
    (clock : Q)
    (Hbuild : SnapshotDb.build_snapshot fs now path max_rows toma_points TTL_SEC
              = (Ok snap, fs'))
    (Hnow : now ≠ 0%Z) :
  let mp := default ∅ (SnapshotDb.derived snap !! "tomas_by_ttl") in
  let out := DashboardServer._tomas_detail_from_ttl TTL_SEC _EXPECTED_TOMAS
               snap clock in
  NoDup (DashboardServer.toma <$> out)
  ∧ (∀ k, k ∈ DashboardServer.toma <$> out
          ↔ k ∈ _EXPECTED_TOMAS
            ∨ ∃ k0, is_Some (mp !! k0)
                    ∧ DashboardServer.startswith (lower k0) "toma" = true
                    ∧ k = lower k0)
  ∧ (∀ x, x ∈ out →
       match mp !! DashboardServer.toma x with
       | None =>
           DashboardServer.online x = false
           ∧ DashboardServer.ts x = 0%Z
           ∧ DashboardServer.age_sec x = (10 ^ 9)%Z
           ∧ DashboardServer.amperaje x = VNull
           ∧ DashboardServer.potencia_w x = VNull
           ∧ DashboardServer.estado x = VNull
           ∧ DashboardServer.rssi x = VNull
       | Some e =>
           DashboardServer.ts x = SnapshotDb.l_ts e
           ∧ DashboardServer.age_sec x = SnapshotDb.age_sec e
           ∧ DashboardServer.amperaje x = SnapshotDb.amperaje e
           ∧ DashboardServer.potencia_w x = SnapshotDb.potencia_w e
           ∧ DashboardServer.estado x = SnapshotDb.estado e
           ∧ DashboardServer.rssi x = SnapshotDb.rssi e
           ∧ (DashboardServer.online x = true
              ↔ SnapshotDb.l_ts e ≠ 0%Z ∧ SnapshotDb.online e = 1%Z)
       end).
Proof.
  intros mp out.
  destruct (built_liveness _ _ _ _ _ _ _ _ Hbuild) as (Hn & Ht & Hlive).
  fold mp in Hlive.
  subst out. unfold DashboardServer._tomas_detail_from_ttl. fold mp.
  rewrite Hn, Ht.
  set (keys := (list_to_set _EXPECTED_TOMAS
                ∪ list_to_set (lower <$> List.filter
                     (λ k, DashboardServer.startswith (lower k) "toma")
                     (map_to_list mp).*1) : gset string)).
  match goal with |- NoDup (_ <$> ?o) ∧ _ => set (out := o) end.
  assert (Hnames : DashboardServer.toma <$> out = sorted (elements keys)).
  { subst out. rewrite <- list_fmap_compose.
    rewrite <- (list_fmap_id (sorted (elements keys))) at 2.
    by apply list_fmap_ext. }
  split; [|split].
  - rewrite Hnames, sorted_perm. apply NoDup_elements.
  - intros k. rewrite Hnames, sorted_elem, elem_of_elements. subst keys.
    rewrite elem_of_union, !elem_of_list_to_set, list_elem_of_fmap.
    apply or_iff_compat_l. split.
    + intros (k0 & -> & Hk0). apply list_elem_of_In, filter_In in Hk0 as [Hk0 Hp].
      apply list_elem_of_In, list_elem_of_fmap in Hk0 as ([k1 e] & -> & He).
      apply elem_of_map_to_list in He. exists k1. cbn. eauto.
    + intros (k0 & [e He] & Hp & ->). exists k0. split; [done|].
      apply list_elem_of_In, filter_In. split; [|exact Hp].
      apply list_elem_of_In, list_elem_of_fmap. exists (k0, e).
      split; [done|]. by apply elem_of_map_to_list.
  - intros x Hx. subst out. apply list_elem_of_fmap in Hx as (k & -> & _).
    cbn [DashboardServer.toma DashboardServer.online DashboardServer.ts
         DashboardServer.age_sec DashboardServer.amperaje
         DashboardServer.potencia_w DashboardServer.estado DashboardServer.rssi].
    destruct (mp !! k) as [e|] eqn:Hk; [|by repeat split].
    destruct (Hlive k e Hk) as [Hage Hon].
    destruct (Z.eqb_spec now 0) as [?|_]; [done|].
    assert (Hsame : (if (SnapshotDb.age_sec e =? 0)%Z
                     then (if (SnapshotDb.l_ts e =? 0)%Z then 10 ^ 9
                           else now - SnapshotDb.l_ts e)%Z
                     else SnapshotDb.age_sec e) = SnapshotDb.age_sec e).
    { destruct (Z.eqb_spec (SnapshotDb.age_sec e) 0) as [H0|_]; [|done].
      by rewrite <- Hage. }
    rewrite Hsame. do 6 (split; [reflexivity|]). split.
    + intros [H1 H2]%andb_true_iff. apply negb_true_iff, Z.eqb_neq in H1.
      split; [exact H1|]. rewrite Hon.
      destruct (TTL_SEC =? 0)%Z; by rewrite H2.
    + intros [H1 H2]. apply andb_true_iff. split.
      * by apply negb_true_iff, Z.eqb_neq.
      * rewrite Hon in H2.
        destruct (SnapshotDb.age_sec e <=? TTL_SEC)%Z eqn:E; [|done].
        by destruct (TTL_SEC =? 0)%Z.
Qed.
End Dashboard.

Lemma tomas_detail_agrees_witness :
  ∃ snap fs',
    SnapshotDb.build_snapshot (Some Examples.old_store) 1700000015
      "safegrid.db" 120 120 10 = (Ok snap, fs')
    ∧ NoDup (DashboardServer.toma
               <$> DashboardServer._tomas_detail_from_ttl 10
                     ["toma1"; "toma2"; "toma3"] snap 0).
Proof.
  assert (E : ∃ snap fs',
             SnapshotDb.build_snapshot (Some Examples.old_store) 1700000015
               "safegrid.db" 120 120 10 = (Ok snap, fs'))
    by (vm_compute; eauto).
  destruct E as (snap & fs' & E). exists snap, fs'. split; [exact E|].
  assert (Hnow : (1700000015 ≠ 0)%Z) by lia.
  exact (proj1 (tomas_detail_agrees 10 ["toma1"; "toma2"; "toma3"] _ _ _ _ _ _ _ 0
                  E Hnow)).
Defined.
(** ** The dashboard's network panel *)

Section NetPanel.
Local Open Scope Q_scope.
Variable CAP_FALLBACK_MBPS : Q.




End NetPanel.

(** ** When the publishing loop stops *)

Section LoopFailure.
Import Estadisticas.

(** The loop has no handler around its body, and the summary calls
    [.get] on the latest telemetry and alert objects. So an iteration
    completes only if each of the two is absent, a dictionary, or
    falsy; one telemetry message whose payload is JSON for a truthy
    value that is not an object (a number other than 0, a non-empty
    string or list, [true]) makes the next iteration fail, whatever
    the host reads; while a payload that is not JSON at all is kept
    wrapped in a dictionary, which the summary can read. *)
Theorem malformed_telemetry_stops_loop (st : loop_state) (l : latest) (s : sample) :
  ((∃ o st' l', tick st l s = (Ok o, st', l'))
     → summarisable (telemetry l) = true ∧ summarisable (alert l) = true)
  ∧ (∀ now msg v,
       Mqtt.topic msg = TOPIC_TOMA1_TELEM → Mqtt.json msg = Some v →
       is_dict v = false → truthy v = true →
       ∃ e, run (st, l) [Deliver now msg; Tick s] = Raise e)
  ∧ (∀ now msg,
       Mqtt.json msg = None →
       summarisable (telemetry l) = true → summarisable (alert l) = true →
       summarisable (telemetry (_on_message l now msg)) = true
       ∧ summarisable (alert (_on_message l now msg)) = true).
Proof.
  split; [|split].
  - intros (o & st' & l' & E). apply (proj1 (tick_outcome st l s)).
    exists o. by rewrite E.
  - intros now msg v Htopic Hjson Hd Ht.
    cbn [run step fst snd].
    set (l1 := _on_message l now msg).
    assert (Htel : telemetry l1 = Some v).
    { subst l1. unfold _on_message. rewrite Hjson, Htopic, String.eqb_refl. done. }
    destruct (tick st l1 s) as [[[o|e] st'] l'] eqn:E; [|by exists e].
    exfalso.
    assert (Hs : summarisable (telemetry l1) = true).
    { apply (proj1 (tick_outcome st l1 s)). exists o. by rewrite E. }
    rewrite Htel in Hs. cbn in Hs. by rewrite Hd, Ht in Hs.
  - intros now msg Hjson Ht Ha.
    unfold _on_message. rewrite Hjson.
    destruct (String.eqb _ TOPIC_TOMA1_TELEM); [by split|].
    destruct (String.eqb _ TOPIC_TOMA1_ALERT); [by split|].
    destruct (String.eqb _ TOPIC_TOMA1_STATUS); by split.
Qed.

Lemma malformed_telemetry_stops_loop_witness :
  ∃ e, run (Examples.loop0, latest_toma1)
         [Deliver 0 Examples.telem_number; Tick Examples.sample_idle]
       = Raise e.
Proof.
  exact (proj1 (proj2 (malformed_telemetry_stops_loop Examples.loop0 latest_toma1
                         Examples.sample_idle))
           0%Q Examples.telem_number (PInt 5) eq_refl eq_refl eq_refl eq_refl).
Defined.

(** The status accumulator only grows. Over any run whose iterations
    complete it ends at its starting value plus every payload byte
    delivered on the status topic: no iteration ever takes anything
    from it. *)
Theorem status_bytes_accumulate (c c' : loop_state * latest) (es : list event)
    (Hrun : run c es = Ok c') :
  bytes_status c'.2 = (bytes_status c.2 + delivered TOPIC_TOMA1_STATUS es)%Z.
Proof.
  revert c Hrun. induction es as [|e es IH]; intros c Hrun.
  - injection Hrun as <-. cbn. lia.
  - rewrite run_cons in Hrun. destruct e as [now msg|s]; cbn [step] in Hrun.
    + rewrite (IH _ Hrun). cbn [fst snd delivered].
      rewrite (on_message_bytes _ _ _ TOPIC_TOMA1_STATUS bytes_status) by auto.
      lia.
    + destruct (tick c.1 c.2 s) as [[[o|err] st'] l'] eqn:Ht; [|discriminate].
      rewrite (IH _ Hrun). cbn [fst snd delivered].
      apply tick_inv in Ht as (_ & _ & _ & _ & -> & _).
      by destruct (read_and_reset_window c.2) as (_ & _ & ->).
Qed.

Lemma status_bytes_accumulate_witness :
  ∃ c',
    run (Examples.loop0, latest_toma1)
        [Deliver 0 Examples.status_online; Tick Examples.sample_idle;
         Deliver 1 Examples.status_online; Tick Examples.sample_idle] = Ok c'
    ∧ bytes_status c'.2 = 12%Z.
Proof.
  eexists. split; [reflexivity|].
  exact (status_bytes_accumulate (Examples.loop0, latest_toma1) _
           [Deliver 0 Examples.status_online; Tick Examples.sample_idle;
            Deliver 1 Examples.status_online; Tick Examples.sample_idle] eq_refl).
Defined.
End LoopFailure.
(** ** From the writing sampler to the dashboard *)

Section WriterToDashboard.
Import StatsWriterStore.
Local Open Scope Q_scope.

Variable CAP : Q.
Variables CLASS_HIGH CLASS_MED CLASS_LOW : string.
Variable CAP_FALLBACK_MBPS : Q.

Lemma insert_desc_elem {A} (k : A → value) x l r :
  r ∈ insert_desc k x l ↔ r = x ∨ r ∈ l.
Proof.
  induction l as [|y l IH]; cbn.
  - rewrite list_elem_of_singleton, elem_of_nil. tauto.
  - destruct (value_compare (k x) (k y)); rewrite ?elem_of_cons, ?IH; tauto.
Qed.

Lemma order_by_desc_elem {A} (k : A → value) l r :
  r ∈ order_by_desc k l ↔ r ∈ l.
Proof.
  induction l as [|x l IH]; [done|]. cbn. fold (order_by_desc k l).
  by rewrite insert_desc_elem, IH, elem_of_cons.
Qed.

Lemma filter_int_keys {A} (k : A → value) (f : A → bool) l zs :
  k <$> l = VInt <$> zs →
  ∃ zs', k <$> List.filter f l = VInt <$> zs' ∧ ∀ z, z ∈ zs' → z ∈ zs.
Proof.
  revert zs. induction l as [|x l IH]; intros zs Hl.
  - exists []. split; [done|]. by intros z ?%elem_of_nil.
  - destruct zs as [|z zs]; [discriminate|]. cbn in Hl. injection Hl as Hx Hl.
    destruct (IH zs Hl) as (zs' & Hk & Hsub). cbn [List.filter].
    destruct (f x).
    + exists (z :: zs'). cbn. rewrite Hx, Hk. split; [done|].
      intros w [->|Hw]%elem_of_cons; [apply list_elem_of_here|].
      by apply list_elem_of_further, Hsub.
    + exists zs'. split; [done|]. intros w Hw. by apply list_elem_of_further, Hsub.
Qed.

(** The newest record heads the descending order when every other
    record has a smaller integer key. *)
Lemma newest_first {A} (k : A → value) (l : list A) (new : A) (zs : list Z) ts :
  k <$> l = VInt <$> zs → (∀ z, z ∈ zs → (z < ts)%Z) → k new = VInt ts →
  head (order_by_desc k (l ++ [new])) = Some new.
Proof.
  intros Hl Hlt Hnew.
  pose proof (order_by_desc_head k (l ++ [new]) (zs ++ [ts])) as Hmax.
  rewrite !fmap_app in Hmax. cbn [fmap list_fmap] in Hmax.
  rewrite Hl, Hnew in Hmax. specialize (Hmax eq_refl).
  destruct (order_by_desc k (l ++ [new])) as [|r rest] eqn:E; [by destruct l|].
  destruct Hmax as (z & Hz & _ & Hge).
  assert (z = ts ∨ (ts < z)%Z) as Hzts.
  { assert (ts ≤ z)%Z by (apply Hge, elem_of_app; right; apply list_elem_of_here). lia. }
  assert (Hr : r ∈ l ++ [new]).
  { apply (order_by_desc_elem k). rewrite E. apply list_elem_of_here. }
  apply elem_of_app in Hr as [Hr|Hr%list_elem_of_singleton]; [|by subst].
  exfalso.
  assert (Hk : k r ∈ k <$> l) by (apply list_elem_of_fmap; eauto).
  rewrite Hl, Hz in Hk. apply list_elem_of_fmap in Hk as (z' & [= <-] & Hz').
  specialize (Hlt _ Hz'). lia.
Qed.

Lemma net_record_fields tn vals c i v :
  col_index (col_names tn) c = Some i →
  (list_to_map (zip net_columns vals) : gmap string value) !! c = Some v →
  SnapshotDb.rget (star {| cols := cols tn; rows := [] |} (record_of tn net_columns vals)) c = v.
Proof.
  intros Hi Hv. unfold SnapshotDb.rget. rewrite star_lookup.
  change (col_names {| cols := cols tn; rows := [] |}) with (col_names tn).
  rewrite Hi. cbn [fmap option_fmap option_map default].
  rewrite (record_of_field _ _ _ _ _ Hi), Hv. done.
Qed.

(** What the writer measured is what the dashboard shows. After an
    iteration of the writing sampler that completes at the second
    [ts], on a table whose other timestamps are integers below [ts],
    a snapshot built from the store has that record as its latest
    network sample, and the dashboard's network fields are the three
    class rates of the iteration, the writer's capacity when it is
    above 0.1 (the fallback capacity otherwise), and the source tag
    [mqtt]. *)
Theorem written_rates_reach_dashboard (st st' : state) (h : host) (u : ())
    (tn : table) (j : nat) (zs : list Z)
    (now : Z) (path : string) (max_rows toma_points ttl : Z)
    (snap : SnapshotDb.snapshot) (fs' : option db)
    (Hrun : iteration CAP CLASS_HIGH CLASS_MED CLASS_LOW st h = (Ok u, st'))
    (Htn : tables (con st) !! "net_samples" = Some tn)
    (Hj : col_index (col_names tn) "ts" = Some j)
    (Hints : (λ r, field r j) <$> rows tn = VInt <$> zs)
    (Hnew : ∀ z, z ∈ zs → (z < int_of_float (h_time h))%Z)
    (Hbuild : SnapshotDb.build_snapshot (Some (con st')) now path max_rows
                toma_points ttl = (Ok snap, fs')) :
  let r := (StatsWriter.net_mbps CLASS_HIGH CLASS_MED CLASS_LOW (net st)
              (h_net_time h) (h_tc h)).1 in
  let f := DashboardServer._calc_net_fields CAP_FALLBACK_MBPS snap in
  SnapshotDb.rget (DashboardServer._last_from_table snap "net_samples") "ts"
  = VInt (int_of_float (h_time h))
  ∧ DashboardServer.hi_mbps f = r.1.1
  ∧ DashboardServer.med_mbps f = r.1.2
  ∧ DashboardServer.low_mbps f = r.2
  ∧ DashboardServer.cap_mbps f
    = (if Qle_bool CAP (1 # 10) then CAP_FALLBACK_MBPS else CAP)
  ∧ DashboardServer.qos_src f = VText "mqtt".
Proof.
  intros r f.
  destruct (iteration_ok _ _ _ _ _ _ _ _ Hrun)
    as (tp & tn0 & jp & jn & _ & Htn0 & _ & Hcn & _ & Hjn & _ & _
        & _ & Hn' & _).
  rewrite Htn in Htn0. injection Htn0 as <-.
  rewrite Hj in Hjn. injection Hjn as <-.
  fold r in Hn'.
  set (ts := int_of_float (h_time h)) in *.
  set (new := record_of tn net_columns
                [VInt ts; VReal r.1.1; VReal r.1.2; VReal r.2; VReal CAP;
                 VText QOS_SRC]) in *.
  set (keep := λ r0 : list value, negb (lt_holds (field r0 j) (VInt (ts - 1800)))) in *.
  assert (Hnew_ts : field new j = VInt ts) by apply (ts_field _ _ _ _ _ Hj).
  assert (Hkeep_new : keep new = true).
  { subst keep. cbn beta. rewrite Hnew_ts. apply lt_holds_int. lia. }
  rewrite (filter_snoc_keep keep (rows tn) new Hkeep_new) in Hn'.
  destruct (filter_int_keys (λ r0, field r0 j) keep (rows tn) zs Hints)
    as (zs' & Hk' & Hsub).
  pose proof (newest_first (λ r0, field r0 j) (List.filter keep (rows tn)) new zs' ts
                Hk' (λ z Hz, Hnew z (Hsub z Hz)) Hnew_ts) as Hhead.
  destruct (build_snapshot_reads _ _ _ _ _ _ _ _ Hbuild) as (d' & Hrv & Hpres).
  apply Hpres in Hn'.
  destruct (read_views_inv _ _ _ _ _ _ _ Hrv)
    as (pl & nl & ns & tomas & names & lm & sp & bt & cnt & gr
        & _ & Hnl & _ & _ & _ & _ & _ & _ & _ & _ & _ & Hview & _).
  apply select_all_desc in Hnl as (t1 & j1 & Ht1 & Hj1 & ->).
  rewrite Hn' in Ht1. injection Ht1 as <-.
  change (col_names _) with (col_names tn) in Hj1.
  rewrite Hj in Hj1. injection Hj1 as <-.
  cbn [rows] in Hview.
  assert (Hlast : DashboardServer._last_from_table snap "net_samples"
                  = star {| cols := cols tn; rows := [] |} new).
  { unfold DashboardServer._last_from_table. rewrite Hview.
    cbn [DashboardServer.latest_rows]. unfold limit.
    change (1 <? 0)%Z with false. cbn [Z.to_nat Pos.to_nat Pos.iter_op Nat.add].
    destruct (order_by_desc _ (List.filter keep (rows tn) ++ [new])) as [|r0 rest];
      [discriminate|].
    injection Hhead as ->. reflexivity. }
  assert (Hcol : ∀ c, c ∈ net_columns → ∃ i, col_index (col_names tn) c = Some i).
  { intros c Hc. apply col_index_elem. rewrite Forall_forall in Hcn. by apply Hcn. }
  assert (Hget : ∀ c v, c ∈ net_columns →
            (list_to_map (zip net_columns
               [VInt ts; VReal r.1.1; VReal r.1.2; VReal r.2; VReal CAP;
                VText QOS_SRC]) : gmap string value) !! c = Some v →
            SnapshotDb.rget (DashboardServer._last_from_table snap "net_samples") c = v).
  { intros c v Hc Hv. destruct (Hcol c Hc) as [i Hi]. rewrite Hlast.
    by apply (net_record_fields tn _ c i v). }
  assert (G1 : SnapshotDb.rget (DashboardServer._last_from_table snap "net_samples")
                 "ts" = VInt ts).
  { apply Hget; [apply (bool_decide_unpack _); by vm_compute|].
    unfold net_columns. cbn [zip zip_with list_to_map foldr].
    by rewrite lookup_insert_eq. }
  assert (G2 : SnapshotDb.rget (DashboardServer._last_from_table snap "net_samples")
                 "hi_mbps" = VReal r.1.1).
  { apply Hget; [apply (bool_decide_unpack _); by vm_compute|].
    unfold net_columns. cbn [zip zip_with list_to_map foldr].
    rewrite !lookup_insert_ne by done. by rewrite lookup_insert_eq. }
  assert (G3 : SnapshotDb.rget (DashboardServer._last_from_table snap "net_samples")
                 "med_mbps" = VReal r.1.2).
  { apply Hget; [apply (bool_decide_unpack _); by vm_compute|].
    unfold net_columns. cbn [zip zip_with list_to_map foldr].
    rewrite !lookup_insert_ne by done. by rewrite lookup_insert_eq. }
  assert (G4 : SnapshotDb.rget (DashboardServer._last_from_table snap "net_samples")
                 "low_mbps" = VReal r.2).
  { apply Hget; [apply (bool_decide_unpack _); by vm_compute|].
    unfold net_columns. cbn [zip zip_with list_to_map foldr].
    rewrite !lookup_insert_ne by done. by rewrite lookup_insert_eq. }
  assert (G5 : SnapshotDb.rget (DashboardServer._last_from_table snap "net_samples")
                 "cap_mbps" = VReal CAP).
  { apply Hget; [apply (bool_decide_unpack _); by vm_compute|].
    unfold net_columns. cbn [zip zip_with list_to_map foldr].
    rewrite !lookup_insert_ne by done. by rewrite lookup_insert_eq. }
  assert (G6 : SnapshotDb.rget (DashboardServer._last_from_table snap "net_samples")
                 "qos_src" = VText "mqtt").
  { apply Hget; [apply (bool_decide_unpack _); by vm_compute|].
    unfold net_columns. cbn [zip zip_with list_to_map foldr].
    rewrite !lookup_insert_ne by done. by rewrite lookup_insert_eq. }
  split; [exact G1|].
  subst f. unfold DashboardServer._calc_net_fields.
  rewrite G2, G3, G4, G5, G6. cbn. done.
Qed.
End WriterToDashboard.

Lemma written_rates_reach_dashboard_witness :
  let st' := (StatsWriterStore.iteration 20 "1:10" "1:20" "1:30"
                Examples.sampler0 Examples.reading0).2 in
  ∃ snap fs',
    SnapshotDb.build_snapshot (Some (StatsWriterStore.con st')) 1700000001
      "safegrid.db" 120 120 10 = (Ok snap, fs')
    ∧ DashboardServer.cap_mbps (DashboardServer._calc_net_fields 20 snap) = 20%Q
    ∧ DashboardServer.qos_src (DashboardServer._calc_net_fields 20 snap) = VText "mqtt".
Proof.
  intros st'.
  assert (E1 : StatsWriterStore.iteration 20 "1:10" "1:20" "1:30"
                 Examples.sampler0 Examples.reading0 = (Ok (), st'))
    by (vm_compute; reflexivity).
  assert (E2 : ∃ snap fs',
             SnapshotDb.build_snapshot (Some (StatsWriterStore.con st')) 1700000001
               "safegrid.db" 120 120 10 = (Ok snap, fs'))
    by (vm_compute; eauto).
  destruct E2 as (snap & fs' & E2). exists snap, fs'. split; [exact E2|].
  assert (Hn : tables (StatsWriterStore.con Examples.sampler0) !! "net_samples"
               = Some (fresh StatsWriterStore.net_samples_cols))
    by (vm_compute; reflexivity).
  assert (Hnew : ∀ z : Z, z ∈ ([] : list Z) →
                   (z < int_of_float (StatsWriterStore.h_time Examples.reading0))%Z).
  { intros z Hz. by apply elem_of_nil in Hz. }
  destruct (written_rates_reach_dashboard 20 "1:10" "1:20" "1:30" 20
              Examples.sampler0 st' Examples.reading0 ()
              (fresh StatsWriterStore.net_samples_cols) 0%nat []
              1700000001 "safegrid.db" 120 120 10 snap fs'
              E1 Hn eq_refl eq_refl Hnew E2)
    as (_ & _ & _ & _ & Hcap & Hsrc).
  split; [exact Hcap | exact Hsrc].
Defined.
(** ** Rounding of the published values *)

Section Rounding.
Import Estadisticas.
Local Open Scope Q_scope.

Lemma round_half_even_near x :
  - (1 # 2) <= inject_Z (round_half_even x) - x <= 1 # 2.
Proof.
  unfold round_half_even.
  pose proof (Qfloor_le x) as Hlo. pose proof (Qlt_floor x) as Hhi.
  rewrite inject_Z_plus in Hhi. change (inject_Z 1) with 1 in Hhi.
  destruct (Qcompare_spec (x - inject_Z (Qfloor x)) (1 # 2)) as [He|Hl|Hg].
  - destruct (Z.even (Qfloor x)).
    + lra.
    + rewrite inject_Z_plus. change (inject_Z 1) with 1. lra.
  - lra.
  - rewrite inject_Z_plus. change (inject_Z 1) with 1. lra.
Qed.

Lemma round_half_even_nonneg x : 0 <= x → (0 ≤ round_half_even x)%Z.
Proof.
  intros Hx. unfold round_half_even.
  assert (H0 : (0 ≤ Qfloor x)%Z).
  { change 0%Z with (Qfloor 0). by apply Qfloor_resp_le. }
  destruct (_ ?= _); [destruct (Z.even _)|..]; lia.
Qed.

Lemma pow10_pos n : 0 < inject_Z (10 ^ Z.of_nat n).
Proof.
  change 0 with (inject_Z 0). rewrite <- Zlt_Qlt. apply Z.pow_pos_nonneg; lia.
Qed.

Lemma round_near q n :
  - (1 # 2) / inject_Z (10 ^ Z.of_nat n) <= round q n - q
  ∧ round q n - q <= (1 # 2) / inject_Z (10 ^ Z.of_nat n).
Proof.
  unfold round. pose proof (pow10_pos n) as Hp.
  set (s := inject_Z (10 ^ Z.of_nat n)) in *.
  destruct (round_half_even_near (q * s)) as [Hlo Hhi].
  set (r := inject_Z (round_half_even (q * s))) in *.
  assert (Hne : ¬ s == 0) by lra.
  assert (E : r / s - q == (r - q * s) / s) by (field; exact Hne).
  rewrite E. split.
  - apply Qle_shift_div_l; [exact Hp|].
    setoid_replace (- (1 # 2) / s * s) with (- (1 # 2)) using relation Qeq
      by (field; exact Hne).
    exact Hlo.
  - apply Qle_shift_div_r; [exact Hp|].
    setoid_replace ((1 # 2) / s * s) with (1 # 2) using relation Qeq
      by (field; exact Hne).
    exact Hhi.
Qed.

Lemma round_nonneg q n : 0 <= q → 0 <= round q n.
Proof.
  intros Hq. unfold round. pose proof (pow10_pos n) as Hp.
  apply Qle_shift_div_l; [exact Hp|]. rewrite Qmult_0_l.
  change 0 with (inject_Z 0). rewrite <- Zle_Qle.
  apply round_half_even_nonneg. apply Qmult_le_0_compat; [exact Hq|lra].
Qed.

(** What is published is what was computed, rounded. Each class rate
    in the network payload is within 0.00005 of the computed rate and
    the CPU percentage in the host payload within 0.05 of the computed
    one; a rate that is not negative is published as a number that is
    not negative; the capacity is the constant 20 and the source tag
    is passed on. *)
Theorem published_values_rounded (o : tick_out) :
  let '(cap, hi, med, low, src) := payload_net o in
  cap = 20 ∧ src = qos_src o
  ∧ Qabs (hi - hi_mbps o) <= 1 # 20000
  ∧ Qabs (med - med_mbps o) <= 1 # 20000
  ∧ Qabs (low - low_mbps o) <= 1 # 20000
  ∧ Qabs (payload_pi_cpu o - cpu_pct o) <= 1 # 20
  ∧ (0 <= hi_mbps o → 0 <= hi)
  ∧ (0 <= med_mbps o → 0 <= med)
  ∧ (0 <= low_mbps o → 0 <= low).
Proof.
  unfold payload_net, payload_pi_cpu.
  assert (H4 : ∀ q, Qabs (round q 4 - q) <= 1 # 20000).
  { intros q. destruct (round_near q 4) as [Hlo Hhi]. apply Qabs_Qle_condition.
    assert (E1 : (1 # 2) / inject_Z (10 ^ Z.of_nat 4) == 1 # 20000) by reflexivity.
    assert (E2 : - (1 # 2) / inject_Z (10 ^ Z.of_nat 4) == - (1 # 20000))
      by reflexivity.
    rewrite E1 in Hhi. rewrite E2 in Hlo. split; assumption. }
  assert (H1 : ∀ q, Qabs (round q 1 - q) <= 1 # 20).
  { intros q. destruct (round_near q 1) as [Hlo Hhi]. apply Qabs_Qle_condition.
    assert (E1 : (1 # 2) / inject_Z (10 ^ Z.of_nat 1) == 1 # 20) by reflexivity.
    assert (E2 : - (1 # 2) / inject_Z (10 ^ Z.of_nat 1) == - (1 # 20))
      by reflexivity.
    rewrite E1 in Hhi. rewrite E2 in Hlo. split; assumption. }
  split; [reflexivity|]. split; [reflexivity|].
  split; [apply H4|]. split; [apply H4|]. split; [apply H4|]. split; [apply H1|].
  split; [|split]; apply round_nonneg.
Qed.
End Rounding.
(** ** The two safe conversions *)

Section SafeConversions.
Import IngestTomas.
Local Open Scope Q_scope.

Lemma signed_int_cases c r :
  signed_int (String c r)
  = if Ascii.eqb c "+" then fst <$> digits 0 0 false r
    else if Ascii.eqb c "-" then (λ p, - p.1)%Z <$> digits 0 0 false r
    else fst <$> digits 0 0 false (String c r).
Proof. destruct c as [[] [] [] [] [] [] [] []]; reflexivity. Qed.

Lemma float_of_str_cases s c r :
  trim s = String c r →
  float_of_str s
  = if Ascii.eqb c "+" then unsigned_float r
    else if Ascii.eqb c "-" then Qopp <$> unsigned_float r
    else unsigned_float (String c r).
Proof.
  unfold float_of_str. intros ->.
  destruct c as [[] [] [] [] [] [] [] []]; reflexivity.
Qed.

Lemma float_of_int_exact z :
  (Z.abs z ≤ 2 ^ 53)%Z → float_of_int z = Some (inject_Z z).
Proof.
  intros Hz. unfold float_of_int.
  assert (Hbig : (2 ^ 53 < FLOAT_OVERFLOW)%Z) by (vm_compute; reflexivity).
  destruct (Z.ltb_spec (Z.abs z) FLOAT_OVERFLOW) as [|Hge]; [reflexivity|].
  exfalso. revert Hz Hbig Hge. generalize FLOAT_OVERFLOW (2 ^ 53)%Z. lia.
Qed.

Lemma digit_not_mark c :
  is_Some (digit_of c) ∨ c = "_"%char →
  (Ascii.eqb c "e" || Ascii.eqb c "E") = false ∧ Ascii.eqb c "." = false.
Proof.
  intros [[d Hd]| ->]; [|by split].
  destruct c as [[] [] [] [] [] [] [] []]; try discriminate Hd; by split.
Qed.

Lemma digits_chars acc cnt ad s res :
  digits acc cnt ad s = Some res →
  s ≠ EmptyString ∨ ad = true.
Proof.
  destruct s; [|by left]. cbn. destruct ad; [by right|discriminate].
Qed.

Lemma digits_break acc cnt ad s res (p : ascii → bool) :
  (∀ c, is_Some (digit_of c) ∨ c = "_"%char → p c = false) →
  digits acc cnt ad s = Some res →
  break_at p s = (s, None).
Proof.
  intros Hp. revert acc cnt ad. induction s as [|c s IH]; intros acc cnt ad Hd; [done|].
  cbn in Hd. cbn [break_at].
  destruct (digit_of c) as [d|] eqn:Ed.
  - rewrite (Hp c) by eauto. by rewrite (IH _ _ _ Hd).
  - destruct (Ascii.eqb_spec c "_") as [->|Hne]; [|discriminate].
    destruct ad; [|discriminate]. cbn in Hd.
    rewrite (Hp "_"%char) by auto. by rewrite (IH _ _ _ Hd).
Qed.

Lemma unsigned_float_digits s z n :
  digits 0 0 false s = Some (z, n) →
  ∃ q, unsigned_float s = Some q ∧ q == inject_Z z.
Proof.
  intros Hd. unfold unsigned_float.
  rewrite (digits_break _ _ _ _ _ _ (λ c H, proj1 (digit_not_mark c H)) Hd).
  rewrite (digits_break _ _ _ _ _ _ (λ c H, proj2 (digit_not_mark c H)) Hd).
  destruct s as [|c s]; [discriminate|].
  rewrite Hd. cbn. eexists. split; [reflexivity|]. cbn. ring.
Qed.

(** The two conversions agree. Whatever [safe_int] converts to an
    integer of magnitude at most 2^53 (the integers a float holds
    exactly), other than a float (which it truncates), [safe_float]
    converts to the same number; so a field written as such an integer
    literal is stored with the same value whichever column it goes
    to. *)
Theorem safe_conversions_agree (v : pyval) (z : Z)
    (Hv : ∀ q, v ≠ PFloat q)
    (Hint : safe_int v = Some z)
    (Hexact : (Z.abs z ≤ 2 ^ 53)%Z) :
  ∃ q, safe_float v = Some q ∧ q == inject_Z z.
Proof.
  destruct v as [|b|z'|q|s|l|d]; try discriminate.
  - injection Hint as <-. destruct b; eexists; split; reflexivity.
  - injection Hint as <-. cbn [safe_float]. rewrite (float_of_int_exact _ Hexact).
    eexists; split; reflexivity.
  - by destruct (Hv q).
  - cbn [safe_int safe_float] in Hint |- *. unfold int_of_str in Hint.
    destruct (_ <? _)%nat; [discriminate|].
    destruct (trim s) as [|c r] eqn:Es; [discriminate|].
    rewrite signed_int_cases in Hint. rewrite (float_of_str_cases s c r Es).
    destruct (Ascii.eqb c "+"); [|destruct (Ascii.eqb c "-")].
    + destruct (digits 0 0 false r) as [[z0 n]|] eqn:Ed; [|discriminate].
      injection Hint as <-. apply (unsigned_float_digits _ _ _ Ed).
    + destruct (digits 0 0 false r) as [[z0 n]|] eqn:Ed; [|discriminate].
      injection Hint as <-.
      destruct (unsigned_float_digits _ _ _ Ed) as (q & -> & Hq).
      exists (- q). split; [reflexivity|]. rewrite Hq, inject_Z_opp. reflexivity.
    + destruct (digits 0 0 false (String c r)) as [[z0 n]|] eqn:Ed; [|discriminate].
      injection Hint as <-. apply (unsigned_float_digits _ _ _ Ed).
Qed.

Lemma safe_conversions_agree_witness :
  safe_int (PStr " -12_3 ") = Some (-123)%Z
  ∧ ∃ q, safe_float (PStr " -12_3 ") = Some q ∧ q == inject_Z (-123).
Proof.
  assert (Hv : ∀ q, PStr " -12_3 " ≠ PFloat q) by discriminate.
  assert (Hi : safe_int (PStr " -12_3 ") = Some (-123)%Z) by (vm_compute; reflexivity).
  assert (Hz : (Z.abs (-123) ≤ 2 ^ 53)%Z) by (vm_compute; discriminate).
  split; [exact Hi|]. exact (safe_conversions_agree _ _ Hv Hi Hz).
Defined.
End SafeConversions.

(** ** When a snapshot can be built *)

Section SnapshotTotal.

Lemma for_loop_total {A S} (body : S → A → outcome S) (P : A → Prop) l :
  (∀ s x, P x → ∃ s', body s x = Ok s') →
  (∀ x, x ∈ l → P x) →
  ∀ s0, ∃ s', for_loop body s0 l = Ok s'.
Proof.
  intros Hbody. induction l as [|x l IH]; intros Hl s0; [by eexists|].
  cbn. destruct (Hbody s0 x) as [s1 ->]; [apply Hl, list_elem_of_here|].
  apply IH. intros y Hy. by apply Hl, list_elem_of_further.
Qed.

Lemma select_all_ok d tbl t n :
  tables d !! tbl = Some t → "ts"%string ∈ col_names t →
  ∃ res, SnapshotDb._rows_star (select_desc d tbl WAll "ts" n) = Ok res.
Proof.
  intros Ht Hc. destruct (col_index_elem _ _ Hc) as [j Hj].
  unfold SnapshotDb._rows_star, select_desc.
  rewrite Ht. cbn [where_holds]. rewrite (column_index _ _ _ Hj). cbn. eauto.
Qed.

Lemma project_ok t cs :
  Forall (λ c, c ∈ col_names t) cs → ∃ sel, project t cs = Ok sel.
Proof.
  induction 1 as [|c cs Hc _ IH]; [by eexists|].
  destruct IH as [sel Hsel]. destruct (col_index_elem _ _ Hc) as [i Hi].
  cbn [project]. rewrite (column_index _ _ _ Hi), Hsel. eauto.
Qed.

Lemma distinct_subset l v : v ∈ distinct l → v ∈ l.
Proof.
  revert v. induction l as [|x l IH]; intros v; [done|]. cbn.
  intros [->|Hv]%elem_of_cons; [apply list_elem_of_here|].
  apply list_elem_of_In, filter_In in Hv as [Hv _].
  by apply list_elem_of_further, IH, list_elem_of_In.
Qed.

Lemma truthy_names_ok l :
  (∀ v, v ∈ l → v = VNull ∨ ∃ s, v = VText s) →
  ∃ names, SnapshotDb.truthy_names l = Ok names.
Proof.
  induction l as [|v l IH]; intros Hl; [by eexists|].
  destruct IH as [names Hn].
  { intros w Hw. by apply Hl, list_elem_of_further. }
  destruct (Hl v (list_elem_of_here _ _)) as [->|[s ->]]; cbn; rewrite Hn; cbn; eauto.
Qed.

Lemma where_ge_ok t c v :
  c ∈ col_names t → ∃ keep, where_holds t (WGe c v) = Ok keep.
Proof.
  intros Hc. destruct (col_index_elem _ _ Hc) as [i Hi].
  cbn [where_holds]. rewrite (column_index _ _ _ Hi). eauto.
Qed.

Lemma head_elem {A} (l : list A) x : head l = Some x → x ∈ l.
Proof. destruct l; [done|]. intros [= ->]. apply list_elem_of_here. Qed.

Lemma bind_param_int64 z :
  IngestTomas.int64 z = true → bind_param z = Ok z.
Proof. unfold bind_param, IngestTomas.int64. by intros ->. Qed.

(** The reads of a snapshot complete on a readable store that has the
    four tables, when the integer parameters can be bound. *)
Lemma read_views_succeeds d now path mr tp ttl :
  readable d →
  Forall (λ n, is_Some (tables d !! n)) table_names →
  IngestTomas.int64 mr = true → IngestTomas.int64 tp = true →
  IngestTomas.int64 (now - 120) = true →
  ∃ snap, SnapshotDb.read_views d now path mr tp ttl = Ok snap.
Proof.
  intros [Hcols Htyped] Hall Hmr%bind_param_int64 Htp%bind_param_int64
    Hnow%bind_param_int64.
  unfold table_names in Hall.
  apply Forall_cons in Hall as [[tt Htt] Hall].
  apply Forall_cons in Hall as [[ta Hta] Hall].
  apply Forall_cons in Hall as [[tpi Hpi] Hall].
  apply Forall_cons in Hall as [[tn Hnet] _].
  assert (Hin : ∀ n, bool_decide (n ∈ table_names) = true → n ∈ table_names).
  { intros n Hn. by apply bool_decide_eq_true in Hn. }
  pose proof (Hcols _ _ (Hin "toma_samples"%string eq_refl) Htt) as Hct.
  pose proof (Hcols _ _ (Hin "alert_samples"%string eq_refl) Hta) as Hca.
  pose proof (Hcols _ _ (Hin "pi_samples"%string eq_refl) Hpi) as Hcp.
  pose proof (Hcols _ _ (Hin "net_samples"%string eq_refl) Hnet) as Hcn.
  change (read_columns "toma_samples")
    with ["ts"; "toma"; "amperaje"; "potencia_w"; "estado"; "rssi"]%string in Hct.
  change (read_columns "alert_samples") with ["ts"%string] in Hca.
  change (read_columns "pi_samples") with ["ts"%string] in Hcp.
  change (read_columns "net_samples") with ["ts"%string] in Hcn.
  apply Forall_cons in Hca as [Hca _]. apply Forall_cons in Hcp as [Hcp _].
  apply Forall_cons in Hcn as [Hcn _].
  pose proof Hct as Hct'.
  apply Forall_cons in Hct' as [Hts Hct']. apply Forall_cons in Hct' as [Htoma _].
  destruct (col_index_elem _ _ Htoma) as [i Hi].
  destruct (col_index_elem _ _ Hts) as [j Hj].
  specialize (Htyped tt i j).
  unfold SnapshotDb.read_views.
  destruct (select_all_ok d "pi_samples" tpi 1 Hpi Hcp) as [pl ->].
  destruct (select_all_ok d "net_samples" tn 1 Hnet Hcn) as [nl ->].
  rewrite Hmr. cbn [bind].
  destruct (select_all_ok d "net_samples" tn mr Hnet Hcn) as [ns ->].
  cbn [bind].
  unfold select_distinct. rewrite Htt, (column_index _ _ _ Hi). cbn [bind].
  destruct (truthy_names_ok (distinct ((λ r, field r i) <$> rows tt))) as [names ->].
  { intros v Hv%distinct_subset. apply list_elem_of_fmap in Hv as (r & -> & Hr).
    by destruct (Htyped r Htt Hi Hj Hr) as [H _]. }
  cbn [bind].
  (* the latest sample of each outlet *)
  match goal with |- context [bind (for_loop ?b ?s ?l) _] =>
    destruct (for_loop_total b (λ _, True) l) with (s0 := s) as [lm Hlm];
      [|done|]
  end.
  { intros m tn' _. rewrite (latest_query d tt i j tn' Htt Hi Hj). cbn. eauto. }
  rewrite Hlm. cbn [bind].
  (* the series of each outlet *)
  match goal with |- context [bind (for_loop ?b ?s ?l) _] =>
    destruct (for_loop_total b (λ _, True) l) with (s0 := s) as [sp Hsp];
      [|done|]
  end.
  { intros m tn' _. rewrite Htp. cbn [bind]. unfold select_desc. rewrite Htt.
    destruct (where_toma tt i tn' Hi) as (keep & -> & _).
    rewrite (column_index _ _ _ Hj). cbn [bind fst snd].
    destruct (project_ok tt _ Hct) as [sel ->]. cbn. eauto. }
  rewrite Hsp. cbn [bind].
  (* the liveness of each *)
  match goal with |- context [bind (for_loop ?b ?s ?l) _] =>
    destruct (for_loop_total b
                (λ kv : string * row, ∃ e, SnapshotDb.liveness_of now ttl kv.2 = Ok e) l)
      with (s0 := s) as [bt Hbt]
  end.
  { intros m kv [e He]. rewrite He. cbn. eauto. }
  { intros [k r] Hkr. cbn [snd]. apply elem_of_map_to_list in Hkr.
    pose proof (latest_loop _ _ _ _ Hlm k) as [Hin' Hout].
    destruct (decide (k ∈ sorted names)) as [Hk|Hk];
      [|by rewrite (Hout Hk), lookup_empty in Hkr].
    destruct (Hin' Hk) as (r' & Hq & Hl). rewrite Hkr in Hl.
    rewrite (latest_query d tt i j k Htt Hi Hj) in Hq. injection Hq as <-.
    destruct (head (order_by_desc (λ r0, field r0 j) (samples_of tt i k)))
      as [row0|] eqn:Eh; cbn [fmap option_fmap option_map default] in Hl.
    2:{ rewrite bool_decide_eq_true_2 in Hl by done. by rewrite lookup_empty in Hl. }
    assert (Hne' : star tt row0 ≠ ∅).
    { intros Hempty. pose proof (star_lookup tt row0 "ts") as Hs.
      rewrite Hempty, lookup_empty, Hj in Hs. done. }
    rewrite bool_decide_eq_false_2 in Hl by done. injection Hl as ->.
    assert (Hrow : row0 ∈ rows tt).
    { apply head_elem in Eh. apply order_by_desc_elem in Eh.
      apply list_elem_of_In, filter_In in Eh as [Eh _]. by apply list_elem_of_In. }
    unfold SnapshotDb.liveness_of. rewrite (star_ts tt row0 j Hj).
    destruct (Htyped row0 Htt Hi Hj Hrow) as [_ [->|[z ->]]]; cbn; eauto. }
  rewrite Hbt. cbn [bind]. rewrite Hnow. cbn [bind].
  unfold select_count, select_group_count. rewrite Hta.
  destruct (where_ge_ok ta "ts" (VInt (now - 120)) Hca) as [keep ->].
  destruct (col_index_elem _ _ Hca) as [ja Hja].
  rewrite (column_index _ _ _ Hja). cbn [bind]. eauto.
Qed.
End SnapshotTotal.
(** ** Stores that can always be read *)

Section Readable.

Lemma schema_table_cases n t :
  schema_tables !! n = Some t →
  n ∈ table_names ∧ rows t = [] ∧ Forall (λ c, c ∈ col_names t) (read_columns n).
Proof.
  unfold schema_tables. intros H.
  apply lookup_union_Some_raw in H as [H|[_ H]].
  { apply lookup_singleton_Some in H as [<- <-].
    split; [apply (bool_decide_unpack _); by vm_compute|]. split; [done|].
    forall_intro; apply (bool_decide_unpack _); by vm_compute. }
  apply lookup_union_Some_raw in H as [H|[_ H]].
  { apply lookup_singleton_Some in H as [<- <-].
    split; [apply (bool_decide_unpack _); by vm_compute|]. split; [done|].
    forall_intro; apply (bool_decide_unpack _); by vm_compute. }
  apply lookup_union_Some_raw in H as [H|[_ H]].
  { apply lookup_singleton_Some in H as [<- <-].
    split; [apply (bool_decide_unpack _); by vm_compute|]. split; [done|].
    forall_intro; apply (bool_decide_unpack _); by vm_compute. }
  apply lookup_singleton_Some in H as [<- <-].
  split; [apply (bool_decide_unpack _); by vm_compute|]. split; [done|].
  forall_intro; apply (bool_decide_unpack _); by vm_compute.
Qed.

Lemma readable_provisioned d j :
  readable d →
  readable (provisioned_schema
              {| tables := tables d; indexes := indexes d; journal := j |}).
Proof.
  intros [Hcols Htyped]. split.
  - intros n t Hn Ht. cbn [provisioned_schema tables] in Ht.
    apply lookup_union_Some_raw in Ht as [Ht|[_ Ht]]; [by eapply Hcols|].
    by apply schema_table_cases in Ht as (_ & _ & H).
  - intros t i k r Ht Hi Hk Hr. cbn [provisioned_schema tables] in Ht.
    apply lookup_union_Some_raw in Ht as [Ht|[_ Ht]]; [by eapply Htyped|].
    apply schema_table_cases in Ht as (_ & Hrows & _). rewrite Hrows in Hr.
    by apply elem_of_nil in Hr.
Qed.

(** The snapshot read on a store at hand, in closed form. *)
Lemma build_snapshot_total d now path mr tp ttl :
  snapshot_compatible d → readable d →
  IngestTomas.int64 mr = true → IngestTomas.int64 tp = true →
  IngestTomas.int64 (now - 120) = true →
  ∃ snap,
    SnapshotDb.build_snapshot (Some d) now path mr tp ttl
    = (Ok snap,
       Some (provisioned_schema
               {| tables := tables d; indexes := indexes d; journal := Wal |})).
Proof.
  intros Hc Hr Hmr Htp Hnow. unfold SnapshotDb.build_snapshot.
  set (dw := {| tables := tables d; indexes := indexes d; journal := Wal |}).
  assert (E : (SnapshotDb._connect ≫= λ _, SnapshotDb.ensure_schema) d
              = (Ok (), provisioned_schema dw)).
  { erewrite bind_run by reflexivity. fold dw.
    apply snapshot_ensure_schema_succeeds. exact Hc. }
  rewrite E.
  destruct (read_views_succeeds (provisioned_schema dw) now path mr tp ttl)
    as [snap ->]; [apply readable_provisioned, Hr| |done..|eauto].
  apply provisioned_schema_provisioned.
Qed.

(** The snapshot read does not fail on a well-typed store that nobody
    writes to meanwhile. On a file that the schema setup accepts and
    whose tables have the columns that are read, with outlet
    identifiers that are texts or NULL and outlet timestamps that are
    integers or NULL, and with limits and a clock that fit 64 bits,
    [build_snapshot] returns a snapshot carrying the given time and
    time to live, and leaves the file with the full schema in WAL
    mode, still readable. *)
Theorem build_snapshot_succeeds (d : db) (now : Z) (path : string)
    (max_rows toma_points ttl : Z)
    (Hcompat : snapshot_compatible d) (Hread : readable d)
    (Hmax : IngestTomas.int64 max_rows = true)
    (Hpoints : IngestTomas.int64 toma_points = true)
    (Hnow : IngestTomas.int64 (now - 120) = true) :
  ∃ snap d',
    SnapshotDb.build_snapshot (Some d) now path max_rows toma_points ttl
    = (Ok snap, Some d')
    ∧ SnapshotDb.now_ts snap = now
    ∧ SnapshotDb.ttl_sec snap = ttl
    ∧ journal d' = Wal
    ∧ snapshot_provisioned d'
    ∧ readable d'.
Proof.
  destruct (build_snapshot_total d now path max_rows toma_points ttl Hcompat Hread
              Hmax Hpoints Hnow) as [snap E].
  eexists snap, _. split; [exact E|].
  destruct (build_snapshot_reads _ _ _ _ _ _ _ _ E) as (d1 & Hrv & _).
  destruct (read_views_meta _ _ _ _ _ _ _ Hrv) as [Hn Ht].
  split; [exact Hn|]. split; [exact Ht|]. split; [reflexivity|].
  split; [apply provisioned_schema_provisioned | apply readable_provisioned, Hread].
Qed.

(** The limit is bound like any parameter: one beyond 64 bits makes the
    read fail even on a store that is in order. *)
Lemma read_views_limit_overflow d now path mr tp ttl :
  IngestTomas.int64 mr = false →
  ∀ snap, SnapshotDb.read_views d now path mr tp ttl ≠ Ok snap.
Proof.
  intros Hmr snap Hrv. unfold SnapshotDb.read_views in Hrv.
  apply bind_Ok in Hrv as (pi_latest & _ & Hrv).
  apply bind_Ok in Hrv as (net_latest & _ & Hrv).
  apply bind_Ok in Hrv as (net_series & H3 & _).
  apply bind_param_Ok in H3 as [H3 _]. revert H3.
  unfold bind_param. unfold IngestTomas.int64 in Hmr. by rewrite Hmr.
Qed.
End Readable.

Lemma old_store_readable :
  snapshot_compatible Examples.old_store ∧ readable Examples.old_store.
Proof.
  assert (Hlook : ∀ n t, tables Examples.old_store !! n = Some t →
            n = "toma_samples"%string
            ∧ t = {| cols := SnapshotDb.toma_samples_cols;
                     rows := [Examples.old_sample] |}).
  { intros n t H. cbn in H. by apply lookup_singleton_Some in H as [<- <-]. }
  assert (Hcols : Forall (λ c, c ∈ col_names {| cols := SnapshotDb.toma_samples_cols;
                                                rows := [Examples.old_sample] |})
                    ["ts"; "toma"; "amperaje"; "potencia_w"; "estado"; "rssi"]%string)
    by (forall_intro; apply (bool_decide_unpack _); by vm_compute).
  split.
  - unfold snapshot_compatible, indexed, table_names.
    split; [forall_intro; intros _; apply lookup_empty|].
    repeat split; try (by apply lookup_singleton_None); intros _ tb Htb;
      apply Hlook in Htb as [? ->]; try discriminate;
      repeat (apply Forall_cons in Hcols as [? Hcols]); forall_intro; assumption.
  - split.
    + intros n t _ Ht. apply Hlook in Ht as [-> ->]. exact Hcols.
    + intros t i j r Ht Hi Hj Hr. apply Hlook in Ht as [_ ->].
      cbn in Hr. apply list_elem_of_singleton in Hr as ->.
      assert (Ei : col_index (col_names {| cols := SnapshotDb.toma_samples_cols;
                                           rows := [Examples.old_sample] |}) "toma"
                   = Some 1%nat) by reflexivity.
      assert (Ej : col_index (col_names {| cols := SnapshotDb.toma_samples_cols;
                                           rows := [Examples.old_sample] |}) "ts"
                   = Some 0%nat) by reflexivity.
      rewrite Ei in Hi. rewrite Ej in Hj. injection Hi as <-. injection Hj as <-.
      split; [right; by eexists | right; by eexists].
Qed.

Lemma build_snapshot_succeeds_witness :
  ∃ snap d',
    SnapshotDb.build_snapshot (Some Examples.old_store) 1700000005 "safegrid.db"
      120 120 10
    = (Ok snap, Some d')
    ∧ SnapshotDb.now_ts snap = 1700000005%Z.
Proof.
  destruct (build_snapshot_succeeds Examples.old_store 1700000005 "safegrid.db"
              120 120 10
              (proj1 old_store_readable) (proj2 old_store_readable)
              eq_refl eq_refl eq_refl)
    as (snap & d' & E & Hn & _).
  exists snap, d'. split; [exact E | exact Hn].
Defined.
(** ** The ingestor keeps the store readable *)

Section IngestReadable.
Import IngestTomas.
Variable repr : pyval → string.





End IngestReadable.


